(** * MCP-Tool-Demo: the password-manager tool server and the MCP server manager

    A shallow embedding of [Custom/password_server.py], of
    [Client/mcp_connectors.py] and of [Custom/add_password_server.py],
    followed by the properties of the encrypt/store/retrieve routines and of
    the server-selection manager.

    Conventions of the embedding.
    - A Python [str] is a [string]: the bytes of its UTF-8 encoding, so that
      [s.encode('utf-8')] and [b.decode('utf-8')] are the conversions between
      [string] and [list byte]. Its characters are counted by [py_len] and
      cut by [py_prefix], which skip the continuation bytes.
    - A Python [dict] is an insertion-ordered association list ([PyDict]);
      a dict that Python built has pairwise distinct keys.
    - The two files under [Path.home()] are the fields of [world]; their
      permission bits and the diagnostic [print] of the key creation are not
      part of the state. A storage file is bytes that are not UTF-8, text
      that is not JSON, or the JSON text [save_passwords] writes: an object
      of objects with string members. Other JSON values are not among the
      worlds, so every statement is about storage files of these three kinds.
    - What the interpreter takes from outside during one tool call (the clock,
      [os.urandom], the choices of [secrets]) is an [oracle].
    - [cryptography.fernet] and [base64] are libraries outside the repository:
      they are an interface with the laws their documentation states. *)

From Stdlib Require Import List String Ascii ZArith Lia Bool Permutation Arith.
From Stdlib Require Import DecimalString.
From Stdlib.Strings Require Import Byte.
Import ListNotations.
Open Scope string_scope.

(** ** Python values used by both files *)

Definition bytes := list byte.

(** [s.encode('utf-8')] and [b.decode('utf-8')]. *)
Definition encode (s : string) : bytes := list_byte_of_string s.
Definition decode (b : bytes) : string := string_of_list_byte b.

Definition nl : string := String (ascii_of_nat 10) EmptyString.

(** Truth value of a string in a condition: [if s:]. *)
Definition truthy (s : string) : bool := negb (s =? "").

(** A byte [10xxxxxx], which continues the encoding of a character. *)
Definition is_continuation (c : ascii) : bool :=
  (128 <=? nat_of_ascii c)%nat && (nat_of_ascii c <? 192)%nat.

(** [len(s)]: the characters of [s], one for each byte that starts one. *)
Fixpoint py_len (s : string) : nat :=
  match s with
  | EmptyString => 0
  | String c rest => (if is_continuation c then 0 else 1) + py_len rest
  end.

(** [s[:n]]: the first [n] characters of [s], each with all its bytes. *)
Fixpoint py_prefix (n : nat) (s : string) : string :=
  match s with
  | EmptyString => EmptyString
  | String c rest =>
      if is_continuation c then String c (py_prefix n rest)
      else
        match n with
        | O => EmptyString
        | S n' => String c (py_prefix n' rest)
        end
  end.

(** [sep.join(items)]. *)
Definition join (sep : string) (items : list string) : string :=
  String.concat sep items.

(** [str(n)] for an integer. *)
Definition str_int (n : Z) : string := NilZero.string_of_int (Z.to_int n).

(** [sub in s] for strings, as a proposition. *)
Definition Contains (sub s : string) : Prop :=
  exists before after, s = before ++ sub ++ after.

(** [s.startswith(p)]. *)
Definition startswith (p s : string) : bool := String.prefix p s.

(** ** Insertion-ordered dictionaries with string keys *)

Module PyDict.
Section Dict.
Context {V : Type}.

Definition dict := list (string * V).

Definition empty : dict := [].

(** [d.get(k)]: [None] when the key is absent. *)
Fixpoint get (d : dict) (k : string) : option V :=
  match d with
  | [] => None
  | (k', v) :: rest => if k =? k' then Some v else get rest k
  end.

(** [k in d]. *)
Definition mem (d : dict) (k : string) : bool :=
  match get d k with Some _ => true | None => false end.

(** [d.get(k, dflt)]. *)
Definition get_default (d : dict) (k : string) (dflt : V) : V :=
  match get d k with Some v => v | None => dflt end.

(** [d[k] = v]: an existing key keeps its place, a new key goes last. *)
Fixpoint set (d : dict) (k : string) (v : V) : dict :=
  match d with
  | [] => [(k, v)]
  | (k', v') :: rest =>
      if k =? k' then (k', v) :: rest else (k', v') :: set rest k v
  end.

(** [del d[k]]: the slot of [k] is removed, the others keep their order. *)
Fixpoint del (d : dict) (k : string) : dict :=
  match d with
  | [] => []
  | (k', v') :: rest => if k =? k' then rest else (k', v') :: del rest k
  end.

(** [list(d.keys())], [d.items()] is the list itself. *)
Definition keys (d : dict) : list string := map fst d.

(** A dict built from a sequence of items, each stored with [d[k] = v]:
    what a dict comprehension, [dict(items)] and [json.load] do. *)
Definition of_items (items : list (string * V)) : dict :=
  fold_left (fun d kv => set d (fst kv) (snd kv)) items empty.

(** The invariant of every dict Python builds. *)
Definition wf (d : dict) : Prop := NoDup (keys d).

End Dict.
Arguments dict V : clear implicits.
End PyDict.

Abbreviation dict := PyDict.dict.

(** ** Exceptions and results *)

Inductive exn : Type :=
| KeyError (key : string)
| ValueError (msg : string)
| InvalidToken
| BinasciiError (msg : string)
| IndexError (msg : string)
| UnicodeDecodeError (msg : string).

(** [str(e)]: a [KeyError] shows the [repr] of its key (the keys raised here
    are identifiers, quoted with single quotes); [InvalidToken] carries no
    argument. *)
Definition str_exn (e : exn) : string :=
  match e with
  | KeyError key => "'" ++ key ++ "'"
  | ValueError msg => msg
  | InvalidToken => ""
  | BinasciiError msg => msg
  | IndexError msg => msg
  | UnicodeDecodeError msg => msg
  end.

Inductive res (A : Type) : Type :=
| Ok (a : A)
| Raise (e : exn).
Arguments Ok {A} a.
Arguments Raise {A} e.

(** ** The libraries outside the repository *)

Class Cryptography : Type := {
  (** [Fernet(key)] accepts the key. *)
  fernet_key_ok : bytes -> bool;
  (** [str] of the [ValueError] that [Fernet(key)] raises otherwise. *)
  fernet_key_error : string;
  (** [Fernet.generate_key()], from the 32 bytes of [os.urandom]. *)
  fernet_generate_key : bytes -> bytes;
  (** [Fernet(key).encrypt(data)], from the current time and a fresh IV. *)
  fernet_encrypt : bytes -> bytes -> bytes -> bytes;
  (** [Fernet(key).decrypt(token)]; [None] is [InvalidToken]. *)
  fernet_decrypt : bytes -> bytes -> option bytes;
  b64encode : bytes -> bytes;
  (** [base64.b64decode(s)]; [inl msg] is [binascii.Error(msg)]. *)
  b64decode : bytes -> string + bytes;
  fernet_generate_key_ok :
    forall seed, fernet_key_ok (fernet_generate_key seed) = true;
  fernet_decrypt_encrypt :
    forall key nonce data,
      fernet_key_ok key = true ->
      fernet_decrypt key (fernet_encrypt key nonce data) = Some data;
  b64decode_b64encode :
    forall b, b64decode (b64encode b) = inr b
}.

(** ** The state of the password server *)

(** An entry is a JSON object whose members are strings, the shape
    [save_password] writes; the store maps service names to entries. *)
Definition entry := dict string.
Definition store := dict entry.

(** The contents of the storage file. Reading it as UTF-8 fails with
    [UnicodeDecodeError] ([msg] is the text of the error, which names the
    offending byte); or it is text on which [json.load] fails with
    [JSONDecodeError]; or it is an object of objects with string members,
    given by its members in the order of the text (a repeated member name is
    legal JSON). *)
Inductive file_content : Type :=
| NotUtf8 (msg : string)
| Undecodable
| JsonObject (members : list (string * list (string * string))).

Record world : Type := {
  key_file : option bytes;
  storage_file : option file_content
}.

(** What one tool call reads from outside the process. *)
Record oracle : Type := {
  now : string;          (* datetime.now().isoformat() *)
  urandom : bytes;       (* consumed by Fernet.generate_key() *)
  nonce : bytes;         (* time and IV consumed by Fernet.encrypt() *)
  tape : nat -> nat      (* the successive draws of the secrets module *)
}.

(** [json.load] on an object: members are stored one after the other. *)
Definition json_load (members : list (string * list (string * string))) : store :=
  PyDict.of_items (map (fun m => (fst m, PyDict.of_items (snd m))) members).

(** ** A state and exception monad for the handlers *)

Definition M (A : Type) : Type := world -> res A * world.

Definition ret {A} (a : A) : M A := fun w => (Ok a, w).

Definition raise {A} (e : exn) : M A := fun w => (Raise e, w).

Definition bind {A B} (m : M A) (k : A -> M B) : M B :=
  fun w =>
    match m w with
    | (Ok a, w') => k a w'
    | (Raise e, w') => (Raise e, w')
    end.

(** [try: body except Exception as e: handler(e)]. *)
Definition try_except {A} (body : M A) (handler : exn -> M A) : M A :=
  fun w =>
    match body w with
    | (Ok a, w') => (Ok a, w')
    | (Raise e, w') => handler e w'
    end.

Definition get_world : M world := fun w => (Ok w, w).

Definition put_world (w : world) : M unit := fun _ => (Ok tt, w).

Notation "x <- m ;; k" := (bind m (fun x => k))
  (at level 61, m at next level, right associativity).
Notation "m ;;; k" := (bind m (fun _ => k))
  (at level 61, right associativity).

(** [d[k]] on a dict: [KeyError] when the key is absent. *)
Definition subscript {V} (d : dict V) (k : string) : M V :=
  match PyDict.get d k with
  | Some v => ret v
  | None => raise (KeyError k)
  end.

(** ** Lists, [secrets] and [random.shuffle] *)

(** The list with position [i] replaced (the list itself out of range). *)
Fixpoint update {A} (l : list A) (i : nat) (x : A) : list A :=
  match l, i with
  | [], _ => []
  | _ :: rest, O => x :: rest
  | y :: rest, S i' => y :: update rest i' x
  end.

(** [l[i] = x]: a negative index counts from the end, an index outside the
    list raises [IndexError]. *)
Definition setitem {A} (l : list A) (i : Z) (x : A) : M (list A) :=
  let n := Z.of_nat (List.length l) in
  let j := if (i <? 0)%Z then (i + n)%Z else i in
  if (0 <=? j)%Z && (j <? n)%Z then ret (update l (Z.to_nat j) x)
  else raise (IndexError "list assignment index out of range").

(** [secrets.choice(seq)] is [seq[randbelow(len(seq))]]; the draw at cursor
    [c] of the tape, reduced below [len(seq)], is the outcome of [randbelow].
    Every call of the source is on a non-empty sequence. *)
Definition secrets_choice (o : oracle) (alphabet : string) (c : nat) : ascii :=
  nth (tape o c mod String.length alphabet) (list_ascii_of_string alphabet) "000"%char.

(** [x[i], x[j] = x[j], x[i]] for two positions of the list. *)
Definition swap {A} (x : list A) (i j : nat) : list A :=
  match nth_error x i, nth_error x j with
  | Some xi, Some xj => update (update x i xj) j xi
  | _, _ => x
  end.

(** [random.shuffle]: [for i in reversed(range(1, len(x))): j = randbelow(i + 1);
    swap x[i] and x[j]]; here from index [i] downwards, starting at cursor [c]. *)
Fixpoint shuffle_from {A} (o : oracle) (i c : nat) (x : list A) : list A :=
  match i with
  | O => x
  | S i' => shuffle_from o i' (S c) (swap x i (tape o c mod S i))
  end.

Definition shuffle {A} (o : oracle) (c : nat) (x : list A) : list A :=
  shuffle_from o (List.length x - 1) c x.

(** ** The interface of the tool server *)

(** [mcp.types.TextContent]. *)
Record TextContent : Type := { type : string; text : string }.

(** The [arguments] dict of a tool call. Its values have the types the tool's
    [inputSchema] declares, so a key is looked up among the items of its
    declared type: strings, integers or booleans. *)
Record arguments : Type := {
  str_items : dict string;
  int_items : dict Z;
  bool_items : dict bool
}.

(** ** Custom/password_server.py *)

Module PasswordServer.
Section Server.
Context {crypto : Cryptography}.

Definition get_or_create_key (o : oracle) : M bytes :=
  w <- get_world ;;
  match key_file w with
  | Some key => ret key
  | None =>
      let key := fernet_generate_key (urandom o) in
      put_world {| key_file := Some key; storage_file := storage_file w |} ;;;
      ret key
  end.

(** The constructor [Fernet(key)]. *)
Definition Fernet (key : bytes) : M bytes :=
  if fernet_key_ok key then ret key else raise (ValueError fernet_key_error).

Definition encrypt_password (o : oracle) (password : string) : M string :=
  key <- get_or_create_key o ;;
  f <- Fernet key ;;
  let encrypted := fernet_encrypt f (nonce o) (encode password) in
  ret (decode (b64encode encrypted)).

Definition decrypt_password (o : oracle) (encrypted_password : string) : M string :=
  key <- get_or_create_key o ;;
  f <- Fernet key ;;
  encrypted_bytes <-
    match b64decode (encode encrypted_password) with
    | inr b => ret b
    | inl msg => raise (BinasciiError msg)
    end ;;
  decrypted <-
    match fernet_decrypt f encrypted_bytes with
    | Some data => ret data
    | None => raise InvalidToken
    end ;;
  ret (decode decrypted).

(** [except (json.JSONDecodeError, FileNotFoundError)] does not catch the
    [UnicodeDecodeError] of the read. *)
Definition load_passwords : M store :=
  w <- get_world ;;
  match storage_file w with
  | None => ret PyDict.empty
  | Some (NotUtf8 msg) => raise (UnicodeDecodeError msg)
  | Some Undecodable => ret PyDict.empty
  | Some (JsonObject members) => ret (json_load members)
  end.

Definition save_passwords (passwords : store) : M unit :=
  w <- get_world ;;
  put_world {| key_file := key_file w;
               storage_file := Some (JsonObject passwords) |}.

(** *** The tool calls *)

Definition text_content (result : string) : list TextContent :=
  [ {| type := "text"; text := result |} ].

Definition string_ascii_lowercase : string := "abcdefghijklmnopqrstuvwxyz".
Definition string_ascii_uppercase : string := "ABCDEFGHIJKLMNOPQRSTUVWXYZ".
Definition string_digits : string := "0123456789".
Definition symbols : string := "!@#$%^&*()-_=+[]{}|;:,.<>?".

Definition mark (b : bool) : string := if b then "✅" else "❌".

(** One of the four blocks [if include and pos < length: ...] on
    [(password_list, pos)], drawing at cursor [c] of the tape. *)
Definition place_one (o : oracle) (include : bool) (alphabet : string)
    (length_arg : Z) (st : list ascii * Z * nat) : M (list ascii * Z * nat) :=
  let '(password_list, pos, c) := st in
  if include && (pos <? length_arg)%Z then
    password_list' <- setitem password_list pos (secrets_choice o alphabet c) ;;
    ret (password_list', (pos + 1)%Z, S c)
  else ret st.

(** The value of [password] when the result text is built. *)
Definition generate (o : oracle) (length_arg : Z)
    (include_symbols include_numbers include_uppercase include_lowercase : bool)
    (chars : string) : M string :=
  let draws := Z.to_nat length_arg in
  let password := map (fun c => secrets_choice o chars c) (seq 0 draws) in
  if (2 <=? length_arg)%Z then
    st <- place_one o include_lowercase string_ascii_lowercase length_arg
            (password, 0%Z, draws) ;;
    st <- place_one o include_uppercase string_ascii_uppercase length_arg st ;;
    st <- place_one o include_numbers string_digits length_arg st ;;
    st <- place_one o include_symbols symbols length_arg st ;;
    let '(password_list, _, c) := st in
    ret (string_of_list_ascii (shuffle o c password_list))
  else ret (string_of_list_ascii password).

Definition call_generate_password (o : oracle) (arguments : arguments)
  : M (list TextContent) :=
  let length_arg := PyDict.get_default (int_items arguments) "length" 16%Z in
  let include_symbols := PyDict.get_default (bool_items arguments) "include_symbols" true in
  let include_numbers := PyDict.get_default (bool_items arguments) "include_numbers" true in
  let include_uppercase := PyDict.get_default (bool_items arguments) "include_uppercase" true in
  let include_lowercase := PyDict.get_default (bool_items arguments) "include_lowercase" true in
  let chars := "" in
  let chars := if include_lowercase then chars ++ string_ascii_lowercase else chars in
  let chars := if include_uppercase then chars ++ string_ascii_uppercase else chars in
  let chars := if include_numbers then chars ++ string_digits else chars in
  let chars := if include_symbols then chars ++ symbols else chars in
  if negb (truthy chars) then
    ret (text_content "❌ Error: At least one character type must be included!")
  else
    password <- generate o length_arg include_symbols include_numbers
                  include_uppercase include_lowercase chars ;;
    let result := "🔐 Generated secure password: " ++ password ++ nl ++ nl in
    let result := result ++ "📏 Length: " ++ str_int length_arg ++ " characters" ++ nl in
    let result := result ++ "🔤 Lowercase: " ++ mark include_lowercase ++ nl in
    let result := result ++ "🔠 Uppercase: " ++ mark include_uppercase ++ nl in
    let result := result ++ "🔢 Numbers: " ++ mark include_numbers ++ nl in
    let result := result ++ "🎭 Symbols: " ++ mark include_symbols ++ nl in
    let result := result ++ nl ++ "💡 Tip: Use 'save_password' to store this securely!" in
    ret (text_content result).

(** The entry literal of [save_password]. *)
Definition new_entry (username encrypted_password url notes current_time : string)
  : entry :=
  [ ("username", username);
    ("encrypted_password", encrypted_password);
    ("url", url);
    ("notes", notes);
    ("created_at", current_time);
    ("updated_at", current_time) ].

Definition call_save_password (o : oracle) (arguments : arguments)
  : M (list TextContent) :=
  service <- subscript (str_items arguments) "service" ;;
  username <- subscript (str_items arguments) "username" ;;
  password <- subscript (str_items arguments) "password" ;;
  let url := PyDict.get_default (str_items arguments) "url" "" in
  let notes := PyDict.get_default (str_items arguments) "notes" "" in
  passwords <- load_passwords ;;
  try_except
    (encrypted_password <- encrypt_password o password ;;
     let current_time := now o in
     let entry := new_entry username encrypted_password url notes current_time in
     let passwords := PyDict.set passwords service entry in
     save_passwords passwords ;;;
     let result := "✅ Password saved successfully!" ++ nl ++ nl in
     let result := result ++ "🏷️ Service: " ++ service ++ nl in
     let result := result ++ "👤 Username: " ++ username ++ nl in
     let result := result ++ "🔒 Encryption: Fernet (AES 128)" ++ nl in
     let result := if truthy url then result ++ "🌐 URL: " ++ url ++ nl else result in
     let result := if truthy notes then result ++ "📝 Notes: " ++ notes ++ nl else result in
     let result := result ++ "📅 Saved: " ++ current_time ++ nl in
     let result := result ++ nl ++ "💡 Use 'get_password' with service='" ++ service
                     ++ "' to retrieve it later." in
     ret (text_content result))
    (fun e => ret (text_content ("❌ Failed to save password: " ++ str_exn e))).

(** The text of the branch [if service not in passwords] of [get_password]. *)
Definition not_found_text (service : string) (passwords : store) : string :=
  let available_services := PyDict.keys passwords in
  let result := "❌ No password found for service '" ++ service ++ "'" ++ nl ++ nl in
  match available_services with
  | _ :: _ =>
      let result := result ++ "📋 Available services: "
                      ++ join ", " available_services ++ nl in
      result ++ "💡 Use 'list_passwords' to see all entries."
  | [] => result ++ "💡 No passwords saved yet. Use 'save_password' to add one."
  end.

(** [entry.get(k)] used as a condition. *)
Definition has_text (e : entry) (k : string) : bool :=
  match PyDict.get e k with Some v => truthy v | None => false end.

Definition call_get_password (o : oracle) (arguments : arguments)
  : M (list TextContent) :=
  service <- subscript (str_items arguments) "service" ;;
  passwords <- load_passwords ;;
  if negb (PyDict.mem passwords service) then
    ret (text_content (not_found_text service passwords))
  else
    entry <- subscript passwords service ;;
    try_except
      (encrypted_password <- subscript entry "encrypted_password" ;;
       decrypted_password <- decrypt_password o encrypted_password ;;
       let result := "🔓 Password retrieved for " ++ service ++ ":" ++ nl ++ nl in
       username <- subscript entry "username" ;;
       let result := result ++ "👤 Username: " ++ username ++ nl in
       let result := result ++ "🔑 Password: " ++ decrypted_password ++ nl in
       result <-
         (if has_text entry "url" then
            url <- subscript entry "url" ;;
            ret (result ++ "🌐 URL: " ++ url ++ nl)
          else ret result) ;;
       result <-
         (if has_text entry "notes" then
            notes <- subscript entry "notes" ;;
            ret (result ++ "📝 Notes: " ++ notes ++ nl)
          else ret result) ;;
       let result := result ++ "📅 Updated: "
                       ++ PyDict.get_default entry "updated_at" "Unknown" ++ nl in
       let result := result ++ nl ++ "⚠️ Handle this password securely!" in
       ret (text_content result))
      (fun e =>
         let result := "❌ Failed to decrypt password for '" ++ service ++ "': "
                         ++ str_exn e ++ nl in
         let result := result
                         ++ "💡 The password may be corrupted or encrypted with a different key." in
         ret (text_content result)).

(** One round of the loop of [list_passwords]. *)
Definition list_one (show_details : bool) (result : string)
    (item : string * entry) : M string :=
  let '(service, entry) := item in
  let result := result ++ "🏷️ " ++ service ++ nl in
  username <- subscript entry "username" ;;
  let result := result ++ "   👤 Username: " ++ username ++ nl in
  result <-
    (if show_details then
       result <-
         (if has_text entry "url" then
            url <- subscript entry "url" ;;
            ret (result ++ "   🌐 URL: " ++ url ++ nl)
          else ret result) ;;
       result <-
         (if has_text entry "notes" then
            notes_preview <-
              (if (100 <? py_len (PyDict.get_default entry "notes" ""))%nat then
                 notes <- subscript entry "notes" ;;
                 ret (py_prefix 100 notes ++ "...")
               else ret (PyDict.get_default entry "notes" "")) ;;
            ret (result ++ "   📝 Notes: " ++ notes_preview ++ nl)
          else ret result) ;;
       ret (result ++ "   📅 Updated: "
              ++ PyDict.get_default entry "updated_at" "Unknown" ++ nl)
     else ret result) ;;
  ret (result ++ nl).

Fixpoint list_loop (show_details : bool) (result : string)
    (items : list (string * entry)) : M string :=
  match items with
  | [] => ret result
  | item :: rest =>
      result <- list_one show_details result item ;;
      list_loop show_details result rest
  end.

Definition call_list_passwords (arguments : arguments) : M (list TextContent) :=
  let show_details := PyDict.get_default (bool_items arguments) "show_details" true in
  passwords <- load_passwords ;;
  match passwords with
  | [] =>
      let result := "📝 No passwords saved yet." ++ nl ++ nl in
      let result := result ++ "💡 Use 'generate_password' to create a secure password" ++ nl in
      let result := result ++ "💡 Use 'save_password' to store it securely" in
      ret (text_content result)
  | _ :: _ =>
      let result := "🔐 Password Manager - Saved Entries ("
                      ++ str_int (Z.of_nat (List.length passwords)) ++ " total):" ++ nl ++ nl in
      result <- list_loop show_details result passwords ;;
      let result := result
            ++ "💡 Use 'get_password' with any service name to retrieve the password." ++ nl in
      let result := result ++ "💡 Use 'delete_password' to remove an entry." ++ nl in
      let result := result ++ "💡 Use 'update_password' to modify an existing entry." in
      ret (text_content result)
  end.

(** The text of the branch [if service not in passwords] of
    [delete_password] and of [update_password]. *)
Definition not_found_short (service : string) (passwords : store) : string :=
  let available_services := PyDict.keys passwords in
  let result := "❌ No password found for service '" ++ service ++ "'" ++ nl ++ nl in
  match available_services with
  | _ :: _ => result ++ "📋 Available services: " ++ join ", " available_services
  | [] => result
  end.

Definition call_delete_password (arguments : arguments) : M (list TextContent) :=
  service <- subscript (str_items arguments) "service" ;;
  passwords <- load_passwords ;;
  if negb (PyDict.mem passwords service) then
    ret (text_content (not_found_short service passwords))
  else
    deleted_entry <- subscript passwords service ;;
    let passwords := PyDict.del passwords service in
    save_passwords passwords ;;;
    let result := "🗑️ Password deleted successfully!" ++ nl ++ nl in
    let result := result ++ "🏷️ Service: " ++ service ++ nl in
    username <- subscript deleted_entry "username" ;;
    let result := result ++ "👤 Username: " ++ username ++ nl in
    let result := result ++ "📅 Was created: "
                    ++ PyDict.get_default deleted_entry "created_at" "Unknown" ++ nl in
    let result := result ++ nl ++ "⚠️ This action cannot be undone!" in
    ret (text_content result).

(** [k in arguments and arguments[k]]. *)
Definition given_nonempty (arguments : arguments) (k : string) : bool :=
  match PyDict.get (str_items arguments) k with
  | Some v => truthy v
  | None => false
  end.

Definition call_update_password (o : oracle) (arguments : arguments)
  : M (list TextContent) :=
  service <- subscript (str_items arguments) "service" ;;
  passwords <- load_passwords ;;
  if negb (PyDict.mem passwords service) then
    ret (text_content (not_found_short service passwords))
  else
    entry <- subscript passwords service ;;
    try_except
      (let updated_fields : list string := [] in
       st <-
         (if given_nonempty arguments "username" then
            username <- subscript (str_items arguments) "username" ;;
            ret (PyDict.set entry "username" username,
                 (updated_fields ++ ["username"])%list)
          else ret (entry, updated_fields)) ;;
       let '(entry, updated_fields) := st in
       st <-
         (if given_nonempty arguments "password" then
            password <- subscript (str_items arguments) "password" ;;
            encrypted_password <- encrypt_password o password ;;
            ret (PyDict.set entry "encrypted_password" encrypted_password,
                 (updated_fields ++ ["password"])%list)
          else ret (entry, updated_fields)) ;;
       let '(entry, updated_fields) := st in
       st <-
         (if PyDict.mem (str_items arguments) "url" then
            url <- subscript (str_items arguments) "url" ;;
            ret (PyDict.set entry "url" url, (updated_fields ++ ["url"])%list)
          else ret (entry, updated_fields)) ;;
       let '(entry, updated_fields) := st in
       st <-
         (if PyDict.mem (str_items arguments) "notes" then
            notes <- subscript (str_items arguments) "notes" ;;
            ret (PyDict.set entry "notes" notes, (updated_fields ++ ["notes"])%list)
          else ret (entry, updated_fields)) ;;
       let '(entry, updated_fields) := st in
       let entry := PyDict.set entry "updated_at" (now o) in
       let passwords := PyDict.set passwords service entry in
       save_passwords passwords ;;;
       let result := "✅ Password entry updated successfully!" ++ nl ++ nl in
       let result := result ++ "🏷️ Service: " ++ service ++ nl in
       let result := result ++ "🔄 Updated fields: "
                       ++ (match updated_fields with
                           | _ :: _ => join ", " updated_fields
                           | [] => "none"
                           end) ++ nl in
       updated_at <- subscript entry "updated_at" ;;
       let result := result ++ "📅 Updated: " ++ updated_at ++ nl in
       let result :=
         match updated_fields with
         | [] => result ++ nl ++ "💡 No changes were made (no new values provided)."
         | _ :: _ => result
         end in
       ret (text_content result))
      (fun e => ret (text_content ("❌ Failed to update password entry: " ++ str_exn e))).

Definition handle_call_tool (o : oracle) (name : string) (arguments : arguments)
  : M (list TextContent) :=
  if name =? "generate_password" then call_generate_password o arguments
  else if name =? "save_password" then call_save_password o arguments
  else if name =? "get_password" then call_get_password o arguments
  else if name =? "list_passwords" then call_list_passwords arguments
  else if name =? "delete_password" then call_delete_password arguments
  else if name =? "update_password" then call_update_password o arguments
  else ret (text_content ("❌ Unknown tool: " ++ name)).

End Server.
End PasswordServer.

(** ** Client/mcp_connectors.py *)

Module Connectors.

Record MCPServerConfig : Type := {
  name : string;
  command : string;
  args : list string;
  env : dict string;
  description : string;
  enabled : bool
}.

Record MCPServerManager : Type := { servers : dict MCPServerConfig }.

(** [config.enabled = b] on a stored configuration. *)
Definition with_enabled (config : MCPServerConfig) (b : bool) : MCPServerConfig :=
  {| name := name config; command := command config; args := args config;
     env := env config; description := description config; enabled := b |}.

(** [config.args = a] on a stored configuration. *)
Definition with_args (config : MCPServerConfig) (a : list string) : MCPServerConfig :=
  {| name := name config; command := command config; args := a;
     env := env config; description := description config;
     enabled := enabled config |}.

(** [current_dir] is [str(Path.cwd())]. *)
Definition _load_filesystem_default (current_dir : string) (self : MCPServerManager)
  : MCPServerManager :=
  {| servers :=
       PyDict.set (servers self) "filesystem"
         {| name := "filesystem";
            command := "npx";
            args := ["-y"; "@modelcontextprotocol/server-filesystem"; current_dir];
            env := PyDict.empty;
            description :=
              "File system operations - read, write, list files and directories";
            enabled := true |} |}.

Definition __init__ (current_dir : string) : MCPServerManager :=
  _load_filesystem_default current_dir {| servers := PyDict.empty |}.

Definition get_available_servers (self : MCPServerManager) : dict MCPServerConfig :=
  servers self.

Definition get_enabled_servers (self : MCPServerManager) : dict MCPServerConfig :=
  PyDict.of_items (filter (fun item => enabled (snd item)) (servers self)).

Definition enable_server (self : MCPServerManager) (server_name : string)
  : bool * MCPServerManager :=
  match PyDict.get (servers self) server_name with
  | Some config =>
      (true, {| servers := PyDict.set (servers self) server_name (with_enabled config true) |})
  | None => (false, self)
  end.

Definition disable_server (self : MCPServerManager) (server_name : string)
  : bool * MCPServerManager :=
  match PyDict.get (servers self) server_name with
  | Some config =>
      (true, {| servers := PyDict.set (servers self) server_name (with_enabled config false) |})
  | None => (false, self)
  end.

Definition toggle_server (self : MCPServerManager) (server_name : string)
  : bool * MCPServerManager :=
  match PyDict.get (servers self) server_name with
  | Some config =>
      (negb (enabled config),
       {| servers :=
            PyDict.set (servers self) server_name
              (with_enabled config (negb (enabled config))) |})
  | None => (false, self)
  end.

Definition set_server_selections (self : MCPServerManager)
    (server_selections : dict bool) : MCPServerManager :=
  fold_left
    (fun self selection =>
       match PyDict.get (servers self) (fst selection) with
       | Some config =>
           {| servers :=
                PyDict.set (servers self) (fst selection)
                  (with_enabled config (snd selection)) |}
       | None => self
       end)
    server_selections self.

(** [env or {}]: [None] and the empty dict both give a new empty dict. *)
Definition env_or_empty (e : option (dict string)) : dict string :=
  match e with
  | Some (item :: rest) => item :: rest
  | Some [] => PyDict.empty
  | None => PyDict.empty
  end.

Definition add_custom_server (self : MCPServerManager) (name' command' : string)
    (args' : list string) (env' : option (dict string)) (description' : string)
    (enabled' : bool) : bool * MCPServerManager :=
  if PyDict.mem (servers self) name' then (false, self)
  else
    (true,
     {| servers :=
          PyDict.set (servers self) name'
            {| name := name'; command := command'; args := args';
               env := env_or_empty env'; description := description';
               enabled := enabled' |} |}).

Definition remove_server (self : MCPServerManager) (server_name : string)
  : bool * MCPServerManager :=
  if server_name =? "filesystem" then (false, self)
  else if PyDict.mem (servers self) server_name then
    (true, {| servers := PyDict.del (servers self) server_name |})
  else (false, self).

Definition update_filesystem_directories (self : MCPServerManager)
    (directories : list string) : MCPServerManager :=
  match PyDict.get (servers self) "filesystem" with
  | Some config =>
      {| servers :=
           PyDict.set (servers self) "filesystem"
             (with_args config
                (["-y"; "@modelcontextprotocol/server-filesystem"] ++ directories)%list) |}
  | None => self
  end.

(** One value of [config["mcpServers"]]. *)
Record ServerParams : Type := {
  params_command : string;
  params_args : list string;
  params_env : dict string
}.

(** The dict [{"mcpServers": ...}]. *)
Record Config : Type := { mcpServers : dict ServerParams }.

(** [MCPClient] belongs to the external [mcp_conductor]; a client is given
    by the configuration it was made from. *)
Inductive MCPClient : Type := from_dict (config : Config).

Definition client_config (c : MCPClient) : Config :=
  match c with from_dict config => config end.

Definition params_of (server_config : MCPServerConfig) : ServerParams :=
  {| params_command := command server_config;
     params_args := args server_config;
     params_env := env server_config |}.

(** The loop [for name, server_config in enabled_servers.items()]. *)
Definition build_config (enabled_servers : dict MCPServerConfig) : Config :=
  fold_left
    (fun config item =>
       {| mcpServers := PyDict.set (mcpServers config) (fst item) (params_of (snd item)) |})
    enabled_servers {| mcpServers := PyDict.empty |}.

Definition create_client_from_selection (self : MCPServerManager)
  : res MCPClient * MCPServerManager :=
  let enabled_servers := get_enabled_servers self in
  match enabled_servers with
  | [] =>
      let self := snd (enable_server self "filesystem") in
      match PyDict.get (servers self) "filesystem" with
      | Some config =>
          let enabled_servers := PyDict.of_items [("filesystem", config)] in
          (Ok (from_dict (build_config enabled_servers)), self)
      | None => (Raise (KeyError "filesystem"), self)
      end
  | _ :: _ => (Ok (from_dict (build_config enabled_servers)), self)
  end.

(** One item of [list_servers_for_selection]. *)
Record Selection : Type := {
  sel_name : string;
  sel_description : string;
  sel_enabled : bool;
  sel_command : string
}.

Definition list_servers_for_selection (self : MCPServerManager) : list Selection :=
  map (fun item =>
         {| sel_name := fst item;
            sel_description := description (snd item);
            sel_enabled := enabled (snd item);
            sel_command := command (snd item) ++ " " ++ join " " (args (snd item)) |})
      (servers self).

(** *** Sequences of manager operations *)

Inductive operation : Type :=
| GetAvailableServers
| GetEnabledServers
| EnableServer (server_name : string)
| DisableServer (server_name : string)
| ToggleServer (server_name : string)
| SetServerSelections (server_selections : dict bool)
| AddCustomServer (name' command' : string) (args' : list string)
    (env' : option (dict string)) (description' : string) (enabled' : bool)
| RemoveServer (server_name : string)
| UpdateFilesystemDirectories (directories : list string)
| CreateClientFromSelection
| ListServersForSelection.

(** The manager after one method call. *)
Definition step (self : MCPServerManager) (op : operation) : MCPServerManager :=
  match op with
  | GetAvailableServers => self
  | GetEnabledServers => self
  | EnableServer server_name => snd (enable_server self server_name)
  | DisableServer server_name => snd (disable_server self server_name)
  | ToggleServer server_name => snd (toggle_server self server_name)
  | SetServerSelections server_selections =>
      set_server_selections self server_selections
  | AddCustomServer name' command' args' env' description' enabled' =>
      snd (add_custom_server self name' command' args' env' description' enabled')
  | RemoveServer server_name => snd (remove_server self server_name)
  | UpdateFilesystemDirectories directories =>
      update_filesystem_directories self directories
  | CreateClientFromSelection => snd (create_client_from_selection self)
  | ListServersForSelection => self
  end.

Definition run (self : MCPServerManager) (ops : list operation) : MCPServerManager :=
  fold_left step ops self.

End Connectors.

(** ** Notions used to state the properties *)

(** A store as [json.load] returns it: distinct service names, and distinct
    member names in every entry. *)
Definition wf_store (st : store) : Prop :=
  PyDict.wf st /\ Forall (fun item => PyDict.wf (snd item)) st.

(** The text of the first content item of a tool result. *)
Definition first_text (contents : list TextContent) : string :=
  match contents with
  | c :: _ => text c
  | [] => ""
  end.

(** The tool call returned normally and its text starts with [marker]. *)
Definition reports (marker : string) (r : res (list TextContent)) : bool :=
  match r with
  | Ok contents => startswith marker (first_text contents)
  | Raise _ => false
  end.

Definition saved_marker : string := "✅ Password saved successfully!".
Definition updated_marker : string := "✅ Password entry updated successfully!".
Definition not_found_marker : string := "❌ No password found for service '".
Definition deleted_marker : string := "🗑️ Password deleted successfully!".

(** [c in alphabet] for a character. *)
Definition char_in (alphabet : string) (c : ascii) : bool :=
  existsb (Ascii.eqb c) (list_ascii_of_string alphabet).

(** The results of successive calls of [get_or_create_key], one per oracle,
    and the world after the last one. *)
Fixpoint key_calls {crypto : Cryptography} (os : list oracle) (w : world)
  : list (res bytes) * world :=
  match os with
  | [] => ([], w)
  | o :: rest =>
      let '(r, w') := PasswordServer.get_or_create_key o w in
      let '(rs, w'') := key_calls rest w' in
      (r :: rs, w'')
  end.

(** What [encrypt_password] returns for [password] under [key]. *)
Definition ciphertext {crypto : Cryptography} (key : bytes) (o : oracle)
    (password : string) : string :=
  decode (b64encode (fernet_encrypt key (nonce o) (encode password))).

(** The union of the four character classes of [generate_password]. *)
Definition all_classes : string :=
  PasswordServer.string_ascii_lowercase ++ PasswordServer.string_ascii_uppercase
    ++ PasswordServer.string_digits ++ PasswordServer.symbols.

(** The invariant of the manager: [servers] is a dict and has the key
    ["filesystem"]. *)
Definition manager_ok (self : Connectors.MCPServerManager) : Prop :=
  PyDict.wf (Connectors.servers self) /\
  PyDict.mem (Connectors.servers self) "filesystem" = true.

(** [Fernet] accepts the contents of the key file, or there is no key file
    yet and a key will be generated. *)
Definition usable_key {crypto : Cryptography} (w : world) : bool :=
  match key_file w with
  | Some key => fernet_key_ok key
  | None => true
  end.

(** The arguments dict made of string items only. *)
Definition str_arguments (items : dict string) : arguments :=
  {| str_items := items; int_items := PyDict.empty; bool_items := PyDict.empty |}.

(** ** A small instance of the library interface

    Keys are the non-empty byte strings, a token is the key followed by the
    data, and the transfer encoding is the identity. It shows that the laws of
    [Cryptography] can be met and lets the statements below be run. *)

Fixpoint strip_prefix (p l : bytes) : option bytes :=
  match p, l with
  | [], _ => Some l
  | _ :: _, [] => None
  | x :: p', y :: l' => if Byte.eqb x y then strip_prefix p' l' else None
  end.

Definition toy_key_ok (key : bytes) : bool :=
  match key with [] => false | _ :: _ => true end.

Definition toy_generate_key (seed : bytes) : bytes := x2a :: seed.

Definition toy_encrypt (key iv data : bytes) : bytes := (key ++ data)%list.

Definition toy_decrypt (key token : bytes) : option bytes := strip_prefix key token.

(** ** A concrete run, used to instantiate the statements *)

Definition demo_oracle : oracle :=
  {| now := "2024-05-17T10:30:00";
     urandom := [x01; x02; x03];
     nonce := [x10];
     tape := fun n => 7 * n + 3 |}.

(** A key file written by an earlier start of the server, no storage file. *)
Definition demo_world : world :=
  {| key_file := Some (toy_generate_key [x01; x02; x03]); storage_file := None |}.

Definition demo_save_arguments : arguments :=
  str_arguments
    [("service", "Gmail"); ("username", "john@example.com"); ("password", "hunter2");
     ("notes", "personal")].

Definition demo_service_arguments : arguments :=
  str_arguments [("service", "Gmail")].


(** The result and the world of the [save_password] call of the run. *)
Definition demo_saved {crypto : Cryptography} : res (list TextContent) * world :=
  PasswordServer.handle_call_tool demo_oracle "save_password"
    demo_save_arguments demo_world.

(** The store that call leaves. *)
Definition demo_store {crypto : Cryptography} : store :=
  [("Gmail",
    PasswordServer.new_entry "john@example.com"
      (ciphertext (toy_generate_key [x01; x02; x03]) demo_oracle "hunter2")
      "" "personal" "2024-05-17T10:30:00")].

(** * Notions for the further properties *)

(** ** What a computation may do to the world and what it may return *)

(** Every run of [m] takes a world to one related to it by [R]. *)
Definition frames {A} (R : world -> world -> Prop) (m : M A) : Prop :=
  forall w r w', m w = (r, w') -> R w w'.

(** Every result of [m] satisfies [Q]. *)
Definition answers {A} (Q : res A -> Prop) (m : M A) : Prop :=
  forall w r w', m w = (r, w') -> Q r.

(** The key file is as before, or there was none and it now holds the key
    generated from the oracle's random bytes. *)
Definition key_kept {crypto : Cryptography} (o : oracle) (w w' : world) : Prop :=
  key_file w' = key_file w \/
  (key_file w = None /\ key_file w' = Some (fernet_generate_key (urandom o))).

Definition storage_kept (w w' : world) : Prop := storage_file w' = storage_file w.

Definition unchanged (w w' : world) : Prop := w' = w.

(** The entry [update_password] stores for the entry [e0]: the four
    conditional assignments, then the time stamp; [c] is what
    [encrypt_password] returned when the call carries a non-empty password. *)
Definition updated_entry (a : arguments) (c : string) (time : string) (e0 : entry)
  : entry :=
  let e :=
    if PasswordServer.given_nonempty a "username"
    then PyDict.set e0 "username" (PyDict.get_default (str_items a) "username" "")
    else e0 in
  let e :=
    if PasswordServer.given_nonempty a "password"
    then PyDict.set e "encrypted_password" c
    else e in
  let e :=
    match PyDict.get (str_items a) "url" with
    | Some url => PyDict.set e "url" url
    | None => e
    end in
  let e :=
    match PyDict.get (str_items a) "notes" with
    | Some notes => PyDict.set e "notes" notes
    | None => e
    end in
  PyDict.set e "updated_at" time.

(** Two entries that agree on every member but the encrypted password. *)
Definition same_but_password (e e' : entry) : Prop :=
  forall k, k <> "encrypted_password" -> PyDict.get e k = PyDict.get e' k.

(** Two stores with the same services in the same order whose entries agree
    on every member but the encrypted password. *)
Definition same_but_passwords (st st' : store) : Prop :=
  Forall2 (fun item item' =>
             fst item = fst item' /\ same_but_password (snd item) (snd item'))
    st st'.

(** The characters [generate_password] draws from, by enabled class. *)
Definition charset (include_lowercase include_uppercase include_numbers
                    include_symbols : bool) : string :=
  (if include_lowercase then PasswordServer.string_ascii_lowercase else "")
    ++ (if include_uppercase then PasswordServer.string_ascii_uppercase else "")
    ++ (if include_numbers then PasswordServer.string_digits else "")
    ++ (if include_symbols then PasswordServer.symbols else "").

(** A character of an enabled class and of no disabled class. *)
Definition allowed_char (include_lowercase include_uppercase include_numbers
                         include_symbols : bool) (c : ascii) : bool :=
  char_in (charset include_lowercase include_uppercase include_numbers
             include_symbols) c
  && (include_lowercase || negb (char_in PasswordServer.string_ascii_lowercase c))
  && (include_uppercase || negb (char_in PasswordServer.string_ascii_uppercase c))
  && (include_numbers || negb (char_in PasswordServer.string_digits c))
  && (include_symbols || negb (char_in PasswordServer.symbols c)).

(** The result text of [generate_password] around [password]. *)
Definition generated_text (password : string) (length_arg : Z)
    (include_lowercase include_uppercase include_numbers include_symbols : bool)
  : string :=
  "🔐 Generated secure password: " ++ password ++ nl ++ nl
    ++ "📏 Length: " ++ str_int length_arg ++ " characters" ++ nl
    ++ "🔤 Lowercase: " ++ PasswordServer.mark include_lowercase ++ nl
    ++ "🔠 Uppercase: " ++ PasswordServer.mark include_uppercase ++ nl
    ++ "🔢 Numbers: " ++ PasswordServer.mark include_numbers ++ nl
    ++ "🎭 Symbols: " ++ PasswordServer.mark include_symbols ++ nl
    ++ nl ++ "💡 Tip: Use 'save_password' to store this securely!".

(** Some position below [pos] of the list holds a character of [alphabet]. *)
Definition placed (pl : list ascii) (pos : Z) (alphabet : string) : Prop :=
  exists i x,
    (Z.of_nat i < pos)%Z /\ nth_error pl i = Some x /\ char_in alphabet x = true.

(** ** Custom/password_server.py: the advertised tools *)

Module PasswordServerSchema.

(** A [default] of a schema property. *)
Inductive json_default : Type :=
| DefaultInt (n : Z)
| DefaultBool (b : bool).

(** One value of [properties]; a key the literal does not have is [None]. *)
Record Property : Type := {
  property_type : string;
  property_description : string;
  property_default : option json_default;
  property_minimum : option Z;
  property_maximum : option Z
}.

(** An [inputSchema]. *)
Record Schema : Type := {
  schema_type : string;
  properties : dict Property;
  required : option (list string)
}.

(** [mcp.types.Tool]. *)
Record Tool : Type := {
  name : string;
  description : string;
  inputSchema : Schema
}.

Definition string_property (description' : string) : Property :=
  {| property_type := "string"; property_description := description';
     property_default := None; property_minimum := None;
     property_maximum := None |}.

Definition boolean_property (description' : string) (default : bool) : Property :=
  {| property_type := "boolean"; property_description := description';
     property_default := Some (DefaultBool default); property_minimum := None;
     property_maximum := None |}.

Definition handle_list_tools : list Tool :=
  [ {| name := "generate_password";
       description := "Generate a secure random password";
       inputSchema :=
         {| schema_type := "object";
            properties :=
              [ ("length",
                 {| property_type := "integer";
                    property_description := "Password length (default: 16)";
                    property_default := Some (DefaultInt 16);
                    property_minimum := Some 8%Z;
                    property_maximum := Some 128%Z |});
                ("include_symbols",
                 boolean_property "Include special symbols (default: true)" true);
                ("include_numbers",
                 boolean_property "Include numbers (default: true)" true);
                ("include_uppercase",
                 boolean_property "Include uppercase letters (default: true)" true);
                ("include_lowercase",
                 boolean_property "Include lowercase letters (default: true)" true) ];
            required := None |} |};
    {| name := "save_password";
       description := "Save an encrypted password with metadata";
       inputSchema :=
         {| schema_type := "object";
            properties :=
              [ ("service",
                 string_property "Service/website/app name (e.g., 'Gmail', 'GitHub')");
                ("username", string_property "Username or email for this service");
                ("password", string_property "Password to encrypt and save");
                ("url", string_property "Website URL (optional)");
                ("notes", string_property "Additional notes (optional)") ];
            required := Some ["service"; "username"; "password"] |} |};
    {| name := "get_password";
       description := "Retrieve and decrypt a saved password";
       inputSchema :=
         {| schema_type := "object";
            properties :=
              [ ("service",
                 string_property "Service/website/app name to retrieve password for") ];
            required := Some ["service"] |} |};
    {| name := "list_passwords";
       description := "List all saved password entries (without revealing passwords)";
       inputSchema :=
         {| schema_type := "object";
            properties :=
              [ ("show_details",
                 boolean_property
                   "Show detailed information including URLs and notes (default: true)"
                   true) ];
            required := None |} |};
    {| name := "delete_password";
       description := "Delete a saved password entry";
       inputSchema :=
         {| schema_type := "object";
            properties :=
              [ ("service", string_property "Service/website/app name to delete") ];
            required := Some ["service"] |} |};
    {| name := "update_password";
       description := "Update an existing password entry";
       inputSchema :=
         {| schema_type := "object";
            properties :=
              [ ("service", string_property "Service/website/app name to update");
                ("username",
                 string_property "New username (optional - keeps existing if not provided)");
                ("password",
                 string_property "New password (optional - keeps existing if not provided)");
                ("url", string_property "New website URL (optional)");
                ("notes", string_property "New notes (optional)") ];
            required := Some ["service"] |} |} ].

End PasswordServerSchema.

(** ** Notions about calls and the advertised schemas *)

(** The tool advertised under [tool_name], if any. *)
Definition advertised (tool_name : string) : option PasswordServerSchema.Tool :=
  find (fun t => PasswordServerSchema.name t =? tool_name)
    PasswordServerSchema.handle_list_tools.

(** The argument names the advertised schema of [tool_name] requires. *)
Definition required_names (tool_name : string) : list string :=
  match advertised tool_name with
  | Some t =>
      match PasswordServerSchema.required (PasswordServerSchema.inputSchema t) with
      | Some names => names
      | None => []
      end
  | None => []
  end.

(** The call carries every required argument, as a string. *)
Definition meets_required (tool_name : string) (a : arguments) : Prop :=
  Forall (fun k => PyDict.mem (str_items a) k = true) (required_names tool_name).

(** The member names of an entry that [save_password] writes. *)
Definition entry_names : list string :=
  ["username"; "encrypted_password"; "url"; "notes"; "created_at"; "updated_at"].

(** Every entry of the store the world holds has the six members. *)
Definition complete_entries (w : world) : Prop :=
  exists st,
    PasswordServer.load_passwords w = (Ok st, w) /\
    Forall (fun item => PyDict.keys (snd item) = entry_names) st.

(** One request to the server: what the call reads from outside, the tool
    name and the arguments. *)
Record request : Type := {
  request_oracle : oracle;
  request_name : string;
  request_arguments : arguments
}.

(** The results of a sequence of requests and the world after the last one;
    a request whose handler raises leaves the server running. *)
Fixpoint serve {crypto : Cryptography} (requests : list request) (w : world)
  : list (res (list TextContent)) * world :=
  match requests with
  | [] => ([], w)
  | q :: rest =>
      let '(r, w') :=
        PasswordServer.handle_call_tool (request_oracle q) (request_name q)
          (request_arguments q) w in
      let '(rs, w'') := serve rest w' in
      (r :: rs, w'')
  end.

(** The set of an argument to a declared default. *)
Definition with_default (a : arguments) (k : string)
    (d : PasswordServerSchema.json_default) : arguments :=
  match d with
  | PasswordServerSchema.DefaultInt n =>
      {| str_items := str_items a;
         int_items := PyDict.set (int_items a) k n;
         bool_items := bool_items a |}
  | PasswordServerSchema.DefaultBool b =>
      {| str_items := str_items a;
         int_items := int_items a;
         bool_items := PyDict.set (bool_items a) k b |}
  end.

(** No item of the arguments has the name [k]. *)
Definition omits (a : arguments) (k : string) : Prop :=
  PyDict.get (str_items a) k = None /\
  PyDict.get (int_items a) k = None /\
  PyDict.get (bool_items a) k = None.

Definition unknown_marker : string := "❌ Unknown tool: ".

(** The result is not the text of an unknown tool. *)
Definition known (r : res (list TextContent)) : Prop :=
  reports unknown_marker r = false.

(** The text starts with two bytes that are not those of the cross mark
    that opens every error text. *)
Definition plain_head (s : string) : bool :=
  match s with
  | String c1 (String c2 _) => negb ((c1 =? "226")%char && (c2 =? "157")%char)
  | _ => false
  end.

(** A computation of a text returns one with a plain head. *)
Definition plain (r : res string) : Prop :=
  match r with
  | Ok s => plain_head s = true
  | Raise _ => True
  end.

(** ** Client/mcp_connectors.py: the module-level functions

    They act on the global [_server_manager], passed here as [manager]. *)

Module ConnectorsApi.
Import Connectors.

(** [current_dir] is [str(Path.cwd())]. *)
Definition create_filesystem_client (current_dir : string)
    (allowed_directories : option (list string)) : MCPClient :=
  let allowed_directories :=
    match allowed_directories with
    | None => [current_dir]
    | Some directories => directories
    end in
  from_dict
    {| mcpServers :=
         [ ("filesystem",
            {| params_command := "npx";
               params_args :=
                 (["-y"; "@modelcontextprotocol/server-filesystem"]
                    ++ allowed_directories)%list;
               params_env := PyDict.empty |}) ] |}.

Definition add_custom_server (manager : MCPServerManager) (name' command' : string)
    (args' : list string) (env' : option (dict string)) (description' : string)
    (enabled' : bool) : bool * MCPServerManager :=
  Connectors.add_custom_server manager name' command' args' env' description' enabled'.

(** [if server_selections:] holds for a dict with at least one item. *)
Definition create_multi_server_client (manager : MCPServerManager)
    (server_selections : option (dict bool)) : res MCPClient * MCPServerManager :=
  let manager :=
    match server_selections with
    | Some (selection :: rest) => set_server_selections manager (selection :: rest)
    | Some [] => manager
    | None => manager
    end in
  create_client_from_selection manager.

Definition list_available_servers (manager : MCPServerManager) : list Selection :=
  list_servers_for_selection manager.

Definition setup_basic_filesystem (current_dir : string) : MCPClient :=
  create_filesystem_client current_dir None.

(** The loop [for name, command, args, description in custom_servers]. *)
Definition add_custom_servers (manager : MCPServerManager)
    (custom_servers : list (string * string * list string * string))
  : MCPServerManager :=
  fold_left
    (fun manager custom =>
       let '(name', command', args', description') := custom in
       snd (Connectors.add_custom_server manager name' command' args' None
              description' true))
    custom_servers manager.

(** [custom_servers] are the tuples [(name, command, args, description)]. *)
Definition setup_with_custom_servers (manager : MCPServerManager)
    (custom_servers : list (string * string * list string * string))
  : res MCPClient * MCPServerManager :=
  let manager := add_custom_servers manager custom_servers in
  create_client_from_selection manager.

Definition get_server_selection_dict (manager : MCPServerManager) : dict bool :=
  PyDict.of_items
    (map (fun item => (fst item, enabled (snd item)))
       (get_available_servers manager)).

Definition apply_server_selections (manager : MCPServerManager)
    (selections : dict bool) : MCPServerManager :=
  set_server_selections manager selections.

End ConnectorsApi.

(** ** Custom/add_password_server.py *)

Module AddPasswordServer.
Import Connectors.

(** What a function of this file returns, or the [FileNotFoundError] it
    raises. *)
Inductive outcome (A : Type) : Type :=
| Returned (a : A)
| FileNotFoundError (msg : string).
Arguments Returned {A} a.
Arguments FileNotFoundError {A} msg.

Definition password_server_description : string :=
  "Password management - generate, save, encrypt/decrypt passwords securely".

(** [server_script] is [str(custom_dir / "password_server.py")] and
    [script_exists] is [server_script.exists()]. *)
Definition add_password_server (server_script : string) (script_exists : bool)
    (manager : MCPServerManager) (enabled' : bool)
  : outcome bool * MCPServerManager :=
  if negb script_exists then
    (FileNotFoundError ("Password server script not found: " ++ server_script),
     manager)
  else
    let '(success, manager) :=
      ConnectorsApi.add_custom_server manager "password_manager" "python"
        [server_script] (Some PyDict.empty) password_server_description enabled' in
    (Returned success, manager).

(** The result, the manager and the lines printed. *)
Definition setup_password_server (server_script : string) (script_exists : bool)
    (manager : MCPServerManager)
  : outcome bool * MCPServerManager * list string :=
  match add_password_server server_script script_exists manager false with
  | (FileNotFoundError msg, manager) => (FileNotFoundError msg, manager, [])
  | (Returned success, manager) =>
      let printed :=
        [ if success then "✅ Password manager server added successfully!"
          else "ℹ️ Password manager server already exists" ] in
      let manager := snd (enable_server manager "password_manager") in
      let printed := (printed ++ ["✅ Password manager server enabled"])%list in
      (Returned true, manager, printed)
  end.

Definition get_password_server_config (server_script : string) : ServerParams :=
  {| params_command := "python";
     params_args := [server_script];
     params_env := PyDict.empty |}.

End AddPasswordServer.

(** The methods that change nothing but [enabled] flags. *)
Definition flag_operation (op : Connectors.operation) : Prop :=
  match op with
  | Connectors.GetAvailableServers | Connectors.GetEnabledServers
  | Connectors.EnableServer _ | Connectors.DisableServer _
  | Connectors.ToggleServer _ | Connectors.SetServerSelections _
  | Connectors.ListServersForSelection => True
  | _ => False
  end.

(** [m] has the servers of [self], in the same order, with the same
    configuration up to the [enabled] flags. *)
Definition same_but_flags (self m : Connectors.MCPServerManager) : Prop :=
  PyDict.keys (Connectors.servers m) = PyDict.keys (Connectors.servers self) /\
  forall k,
    match PyDict.get (Connectors.servers self) k,
          PyDict.get (Connectors.servers m) k with
    | Some c, Some c' => exists b, c' = Connectors.with_enabled c b
    | None, None => True
    | _, _ => False
    end.


(** Every server is stored under its own name. *)
Definition named_by_key (self : Connectors.MCPServerManager) : Prop :=
  Forall (fun item => Connectors.name (snd item) = fst item)
    (Connectors.servers self).

(** The ["filesystem"] server as [_load_filesystem_default] and
    [update_filesystem_directories] leave it: the filesystem package run
    through [npx] on some directories, with no environment. *)
Definition filesystem_entry (config : Connectors.MCPServerConfig) : Prop :=
  Connectors.name config = "filesystem" /\
  Connectors.command config = "npx" /\
  Connectors.env config = PyDict.empty /\
  exists directories,
    Connectors.args config =
      (["-y"; "@modelcontextprotocol/server-filesystem"] ++ directories)%list.

Definition manager_shape (self : Connectors.MCPServerManager) : Prop :=
  named_by_key self /\
  exists config,
    PyDict.get (Connectors.servers self) "filesystem" = Some config /\
    filesystem_entry config.

(** The name in a tuple [(name, command, args, description)]. *)
Definition custom_name (custom : string * string * list string * string) : string :=
  let '(name', _, _, _) := custom in name'.

(** ** The concrete run, continued *)

(** A first start of the server: no key file, no storage file. *)
Definition demo_first_world : world :=
  {| key_file := None; storage_file := None |}.

(** A key file that [Fernet] rejects. *)
Definition demo_rejected_world : world :=
  {| key_file := Some []; storage_file := None |}.


(** A storage file that starts with the byte [0xff]. *)
Definition demo_not_utf8_world : world :=
  {| key_file := None;
     storage_file :=
       Some (NotUtf8
               "'utf-8' codec can't decode byte 0xff in position 0: invalid start byte") |}.

(** A store written under a key that the key file no longer holds: the key
    file has been emptied, and [Fernet] rejects it. *)
Definition demo_kept_store : store :=
  [("Gmail",
    PasswordServer.new_entry "john@example.com" "stored ciphertext"
      "https://mail.example.com" "personal" "2024-05-17T10:30:00")].

Definition demo_rejected_key_world : world :=
  {| key_file := Some []; storage_file := Some (JsonObject demo_kept_store) |}.


(** An update that carries a new username and a new password. *)
Definition demo_change_arguments : arguments :=
  str_arguments
    [("service", "Gmail"); ("username", "jane@example.com");
     ("password", "correct horse")].

(** The arguments of a [get_password] for a service that is not stored. *)
Definition demo_other_arguments : arguments :=
  str_arguments [("service", "GitHub")].

(** The world of the run with another password stored for the service. *)
Definition demo_other_saved : world :=
  {| key_file := Some (toy_generate_key [x01; x02; x03]);
     storage_file :=
       Some (JsonObject
               [("Gmail",
                 PasswordServer.new_entry "john@example.com" "another ciphertext"
                   "" "personal" "2024-05-17T10:30:00")]) |}.

(** A password of three characters. *)
Definition demo_short_arguments : arguments :=
  {| str_items := PyDict.empty;
     int_items := [("length", 3%Z)];
     bool_items := PyDict.empty |}.

(** One digit. *)
Definition demo_digit_arguments : arguments :=
  {| str_items := PyDict.empty;
     int_items := [("length", 1%Z)];
     bool_items :=
       [("include_lowercase", false); ("include_uppercase", false);
        ("include_symbols", false)] |}.

Definition demo_request (tool_name : string) (a : arguments) : request :=
  {| request_oracle := demo_oracle; request_name := tool_name;
     request_arguments := a |}.

Definition demo_requests : list request :=
  [ demo_request "save_password" demo_save_arguments;
    demo_request "update_password" demo_change_arguments;
    demo_request "list_passwords" (str_arguments []);
    demo_request "get_password" demo_service_arguments;
    demo_request "delete_password" demo_service_arguments;
    demo_request "rename_password" demo_service_arguments ].

(** A manager with a second server, disabled. *)
Definition demo_manager : Connectors.MCPServerManager :=
  snd (Connectors.add_custom_server (Connectors.__init__ "/srv/demo")
         "notes" "python" ["-m"; "notes_server"] None "Notes" false).

Definition demo_custom_servers : list (string * string * list string * string) :=
  [ ("notes", "node", ["notes.js"], "Other notes");
    ("search", "python", ["-m"; "search_server"], "Search") ].

(** * Properties *)

(** ** Dictionaries *)

Module PyDictFacts.
Import PyDict.
Section Facts.
Context {V : Type}.
Implicit Types (d : dict V) (k : string) (v : V).

Lemma get_set_eq d k v : get (set d k v) k = Some v.
Proof.
  induction d as [|[k' v'] rest IH]; simpl.
  - now rewrite String.eqb_refl.
  - destruct (k =? k') eqn:E; simpl; rewrite E; auto.
Qed.

Lemma get_set_ne d k k' v : k' <> k -> get (set d k v) k' = get d k'.
Proof.
  intros Hne. induction d as [|[k0 v0] rest IH]; simpl.
  - apply String.eqb_neq in Hne. now rewrite Hne.
  - destruct (k =? k0) eqn:E; simpl.
    + apply String.eqb_eq in E. subst k0.
      apply String.eqb_neq in Hne. now rewrite Hne.
    + now rewrite IH.
Qed.

Lemma get_None_keys d k : get d k = None <-> ~ In k (keys d).
Proof.
  induction d as [|[k' v'] rest IH]; simpl.
  - tauto.
  - destruct (String.eqb_spec k k') as [->|Hne].
    + split; [discriminate | intros H; exfalso; apply H; now left].
    + rewrite IH. split.
      * intros H [Heq|Hin]; [congruence | contradiction].
      * intros H Hin. apply H. now right.
Qed.

Lemma mem_true_keys d k : mem d k = true <-> In k (keys d).
Proof.
  unfold mem. destruct (get d k) eqn:E.
  - split; [intros _ | reflexivity].
    destruct (in_dec string_dec k (keys d)) as [Hin|Hn]; [assumption|].
    apply get_None_keys in Hn. congruence.
  - split; [discriminate|]. intros Hin.
    apply get_None_keys in E. contradiction.
Qed.

Lemma mem_false_get d k : mem d k = false <-> get d k = None.
Proof. unfold mem. destruct (get d k); split; congruence. Qed.

Lemma mem_true_get d k : mem d k = true <-> exists v, get d k = Some v.
Proof.
  unfold mem. destruct (get d k) as [v|].
  - split; [eauto | reflexivity].
  - split; [discriminate | intros [v Hv]; discriminate].
Qed.

(** Storing under a present key changes no key; under a new key it adds the
    key at the end. *)
Lemma keys_set d k v :
  keys (set d k v) = if mem d k then keys d else (keys d ++ [k])%list.
Proof.
  unfold mem. induction d as [|[k' v'] rest IH]; simpl.
  - reflexivity.
  - destruct (k =? k') eqn:E; simpl.
    + reflexivity.
    + rewrite IH. now destruct (get rest k).
Qed.

Lemma wf_set d k v : wf d -> wf (set d k v).
Proof.
  unfold wf. intros Hwf. rewrite keys_set.
  destruct (mem d k) eqn:E; [assumption|].
  apply mem_false_get, get_None_keys in E.
  apply NoDup_app; [assumption | repeat constructor; simpl; tauto |].
  intros x Hx [<-|[]]. contradiction.
Qed.

Lemma keys_del_incl d k x : In x (keys (del d k)) -> In x (keys d).
Proof.
  induction d as [|[k' v'] rest IH]; simpl; [tauto|].
  destruct (k =? k'); simpl; intuition.
Qed.

Lemma wf_del d k : wf d -> wf (del d k).
Proof.
  unfold wf. induction d as [|[k' v'] rest IH]; simpl; intros Hwf.
  - constructor.
  - inversion Hwf as [|? ? Hnotin Hrest]; subst.
    destruct (k =? k'); [assumption|]. simpl. constructor.
    + intros Hin. apply Hnotin. eapply keys_del_incl; eassumption.
    + now apply IH.
Qed.

Lemma get_del_eq d k : wf d -> get (del d k) k = None.
Proof.
  unfold wf. induction d as [|[k' v'] rest IH]; simpl; intros Hwf.
  - reflexivity.
  - inversion Hwf as [|? ? Hnotin Hrest]; subst.
    destruct (String.eqb_spec k k') as [->|Hne].
    + now apply get_None_keys.
    + simpl. apply String.eqb_neq in Hne. rewrite Hne. now apply IH.
Qed.

Lemma get_del_ne d k k' : k' <> k -> get (del d k) k' = get d k'.
Proof.
  intros Hne. induction d as [|[k0 v0] rest IH]; simpl.
  - reflexivity.
  - destruct (String.eqb_spec k k0) as [->|Hne0].
    + apply String.eqb_neq in Hne. now rewrite Hne.
    + simpl. now rewrite IH.
Qed.

Lemma length_del d k :
  mem d k = true -> S (List.length (del d k)) = List.length d.
Proof.
  unfold mem. induction d as [|[k' v'] rest IH]; simpl.
  - discriminate.
  - destruct (k =? k'); simpl; [reflexivity|].
    intros H. now rewrite IH.
Qed.

(** The number of slots a key has in a well-formed dict. *)
Lemma count_key d k :
  wf d -> count_occ string_dec (keys d) k = if mem d k then 1 else 0.
Proof.
  intros Hwf. destruct (mem d k) eqn:E.
  - apply mem_true_keys in E.
    apply (proj1 (NoDup_count_occ' string_dec (keys d))); assumption.
  - apply mem_false_get, get_None_keys in E.
    now apply count_occ_not_In.
Qed.

Lemma of_items_acc (items acc : dict V) :
  wf (acc ++ items)%list ->
  fold_left (fun d kv => set d (fst kv) (snd kv)) items acc = (acc ++ items)%list.
Proof.
  revert acc. induction items as [|[k v] rest IH]; intros acc Hwf; simpl.
  - now rewrite app_nil_r.
  - assert (Hset : set acc k v = (acc ++ [(k, v)])%list).
    { clear IH. unfold wf, keys in Hwf. rewrite map_app in Hwf. simpl in Hwf.
      apply NoDup_remove_2 in Hwf.
      assert (Hk : ~ In k (keys acc)).
      { intros Hin. apply Hwf. apply in_or_app. now left. }
      clear Hwf. induction acc as [|[k' v'] acc IH]; simpl.
      - reflexivity.
      - destruct (String.eqb_spec k k') as [->|Hne].
        + exfalso. apply Hk. now left.
        + rewrite IH; [reflexivity|]. intros Hin. apply Hk. now right. }
    rewrite Hset. rewrite IH.
    + now rewrite <- app_assoc.
    + now rewrite <- app_assoc.
Qed.

(** Rebuilding a dict from its own items gives the dict back. *)
Lemma of_items_wf d : wf d -> of_items d = d.
Proof. intros Hwf. unfold of_items, empty. now rewrite of_items_acc. Qed.

Lemma wf_fold_set (items acc : dict V) :
  wf acc -> wf (fold_left (fun d kv => set d (fst kv) (snd kv)) items acc).
Proof.
  revert acc. induction items as [|[k v] rest IH]; intros acc Hwf; simpl.
  - assumption.
  - apply IH. now apply wf_set.
Qed.

Lemma wf_of_items (items : list (string * V)) : wf (of_items items).
Proof. apply wf_fold_set. constructor. Qed.

End Facts.
End PyDictFacts.

(** ** The toy library instance meets the laws *)

Lemma strip_prefix_app (p l : bytes) : strip_prefix p (p ++ l)%list = Some l.
Proof.
  induction p as [|x p IH]; simpl.
  - reflexivity.
  - rewrite (Byte.byte_dec_lb (eq_refl x)). exact IH.
Qed.

#[export] Instance toy_crypto : Cryptography := {|
  fernet_key_ok := toy_key_ok;
  fernet_key_error := "Fernet key must be 32 url-safe base64-encoded bytes.";
  fernet_generate_key := toy_generate_key;
  fernet_encrypt := toy_encrypt;
  fernet_decrypt := toy_decrypt;
  b64encode := fun b => b;
  b64decode := fun b => inr b;
  fernet_generate_key_ok := fun _ => eq_refl;
  fernet_decrypt_encrypt := fun key _ data _ => strip_prefix_app key data;
  b64decode_b64encode := fun _ => eq_refl
|}.

(** ** Runs of the model *)

Example run_save_then_get :
  first_text
    (match fst (PasswordServer.handle_call_tool demo_oracle "get_password"
                  demo_service_arguments (snd demo_saved)) with
     | Ok contents => contents
     | Raise _ => []
     end)
  = join nl
      [ "🔓 Password retrieved for Gmail:"; "";
        "👤 Username: john@example.com";
        "🔑 Password: hunter2";
        "📝 Notes: personal";
        "📅 Updated: 2024-05-17T10:30:00"; "";
        "⚠️ Handle this password securely!" ].
Proof. reflexivity. Qed.

(** A key file that [Fernet] rejects: the save fails and nothing is written. *)
Example run_save_with_rejected_key :
  PasswordServer.handle_call_tool demo_oracle "save_password" demo_save_arguments
    {| key_file := Some []; storage_file := None |}
  = (Ok (PasswordServer.text_content
           "❌ Failed to save password: Fernet key must be 32 url-safe base64-encoded bytes."),
     {| key_file := Some []; storage_file := None |}).
Proof. reflexivity. Qed.

(** A storage file that is not JSON is read as the empty store. *)
Example run_get_on_undecodable_file :
  PasswordServer.handle_call_tool demo_oracle "get_password" demo_service_arguments
    {| key_file := None; storage_file := Some Undecodable |}
  = (Ok (PasswordServer.text_content
           (join nl
              [ "❌ No password found for service 'Gmail'"; "";
                "💡 No passwords saved yet. Use 'save_password' to add one." ])),
     {| key_file := None; storage_file := Some Undecodable |}).
Proof. reflexivity. Qed.

(** A storage file that is not UTF-8: the error of the read is not caught. *)
Example run_load_not_utf8_file :
  PasswordServer.load_passwords demo_not_utf8_world
  = (Raise
       (UnicodeDecodeError
          "'utf-8' codec can't decode byte 0xff in position 0: invalid start byte"),
     demo_not_utf8_world).
Proof. reflexivity. Qed.

(** Characters, not bytes, are counted and cut. *)
Example run_characters :
  py_len "naïve" = 5 /\ String.length "naïve" = 6 /\ py_prefix 3 "naïve" = "naï".
Proof. repeat split. Qed.

(** Notes of 101 two-byte characters are cut after the hundredth. *)
Example run_list_long_notes :
  PasswordServer.list_one true ""
    ("Gmail",
     [("username", "john"); ("notes", String.concat "" (repeat "é" 101))])
    demo_world
  = (Ok ("🏷️ Gmail" ++ nl
           ++ "   👤 Username: john" ++ nl
           ++ "   📝 Notes: " ++ String.concat "" (repeat "é" 100) ++ "..." ++ nl
           ++ "   📅 Updated: Unknown" ++ nl ++ nl),
     demo_world).
Proof. vm_compute. reflexivity. Qed.

(** An entry without a username is deleted before [KeyError] is raised. *)
Example run_delete_entry_without_username :
  PasswordServer.handle_call_tool demo_oracle "delete_password" demo_service_arguments
    {| key_file := None;
       storage_file := Some (JsonObject [("Gmail", []); ("GitHub", [])]) |}
  = (Raise (KeyError "username"),
     {| key_file := None; storage_file := Some (JsonObject [("GitHub", [])]) |}).
Proof. reflexivity. Qed.

(** A repeated member name in the file: the last value, at the first place. *)
Example run_json_load_repeated_name :
  json_load [("a", [("username", "x")]); ("b", []); ("a", [("username", "y")])]
  = [("a", [("username", "y")]); ("b", [])].
Proof. reflexivity. Qed.

(** Three characters without symbols: the first three classes are placed. *)
Example run_generate_three :
  PasswordServer.generate demo_oracle 3 false true true true
    "abcdefghijklmnopqrstuvwxyzABCDEFGHIJKLMNOPQRSTUVWXYZ0123456789" demo_world
  = (Ok "F8y", demo_world).
Proof. reflexivity. Qed.

Example run_remove_then_create :
  let self := Connectors.__init__ "/srv/demo" in
  let self := snd (Connectors.disable_server self "filesystem") in
  let self := snd (Connectors.remove_server self "filesystem") in
  PyDict.keys
    (Connectors.mcpServers
       (match fst (Connectors.create_client_from_selection self) with
        | Ok client => Connectors.client_config client
        | Raise _ => {| Connectors.mcpServers := [] |}
        end))
  = ["filesystem"].
Proof. reflexivity. Qed.

(** ** Strings *)

Lemma append_assoc (a b c : string) : (a ++ b) ++ c = a ++ (b ++ c).
Proof. induction a as [|x a IH]; simpl; [reflexivity | now rewrite IH]. Qed.

Lemma Contains_here (sub after : string) : Contains sub (sub ++ after).
Proof. exists "", after. reflexivity. Qed.

Lemma Contains_append_l (sub s t : string) : Contains sub s -> Contains sub (t ++ s).
Proof.
  intros (b & a & ->). exists (t ++ b), a.
  now rewrite append_assoc.
Qed.

Lemma Contains_append_r (sub s t : string) : Contains sub s -> Contains sub (s ++ t).
Proof.
  intros (b & a & ->). exists b, (a ++ t).
  now rewrite !append_assoc.
Qed.

Lemma prefix_cons_ne (a b : ascii) (p s : string) :
  a <> b -> String.prefix (String a p) (String b s) = false.
Proof. intros Hne. simpl. destruct (ascii_dec a b); [contradiction | reflexivity]. Qed.

Lemma prefix_cons_eq (a : ascii) (p s : string) :
  String.prefix (String a p) (String a s) = String.prefix p s.
Proof. simpl. destruct (ascii_dec a a); [reflexivity | contradiction]. Qed.

Lemma prefix_append (p s : string) : String.prefix p (p ++ s) = true.
Proof.
  induction p as [|a p IH]; simpl.
  - now destruct s.
  - destruct (ascii_dec a a); [exact IH | contradiction].
Qed.

(** ** The storage file *)

Module StoreFacts.
Import PyDict PyDictFacts PasswordServer.

Section Values.
Context {V : Type} (P : V -> Prop).

Lemma Forall_values_set (d : dict V) k v :
  Forall (fun item => P (snd item)) d -> P v ->
  Forall (fun item => P (snd item)) (set d k v).
Proof.
  intros Hd Hv. induction d as [|[k' v'] rest IH]; simpl.
  - repeat constructor. exact Hv.
  - inversion Hd as [|? ? Hhead Hrest]; subst.
    destruct (k =? k'); constructor; auto.
Qed.

Lemma Forall_values_del (d : dict V) k :
  Forall (fun item => P (snd item)) d ->
  Forall (fun item => P (snd item)) (del d k).
Proof.
  intros Hd. induction d as [|[k' v'] rest IH]; simpl.
  - constructor.
  - inversion Hd as [|? ? Hhead Hrest]; subst.
    destruct (k =? k'); [assumption | constructor; auto].
Qed.

Lemma Forall_values_fold (items acc : dict V) :
  Forall (fun item => P (snd item)) acc ->
  Forall (fun item => P (snd item)) items ->
  Forall (fun item => P (snd item))
    (fold_left (fun d kv => set d (fst kv) (snd kv)) items acc).
Proof.
  revert acc. induction items as [|[k v] rest IH]; intros acc Hacc Hitems; simpl.
  - assumption.
  - inversion Hitems as [|? ? Hhead Hrest]; subst.
    apply IH; [now apply Forall_values_set | assumption].
Qed.

Lemma Forall_values_get (d : dict V) k v :
  Forall (fun item => P (snd item)) d -> get d k = Some v -> P v.
Proof.
  intros Hd. induction d as [|[k' v'] rest IH]; simpl; [discriminate|].
  inversion Hd as [|? ? Hhead Hrest]; subst.
  destruct (k =? k'); [intros [= <-]; assumption | auto].
Qed.

End Values.

Lemma wf_store_json_load members : wf_store (json_load members).
Proof.
  split.
  - apply wf_of_items.
  - unfold json_load, of_items at 1. apply Forall_values_fold; [constructor|].
    induction members as [|[k e] rest IH]; simpl; constructor; auto.
    simpl. apply wf_of_items.
Qed.

(** Reading back what [json.dump] wrote for a store gives the store. *)
Lemma json_load_wf_store (st : store) : wf_store st -> json_load st = st.
Proof.
  intros [Hwf Hentries]. unfold json_load.
  assert (Hmap : map (fun m : string * list (string * string) =>
                        (fst m, of_items (snd m))) st = st).
  { clear Hwf. induction st as [|[k e] rest IH]; simpl; [reflexivity|].
    inversion Hentries as [|? ? Hhead Hrest]; subst. simpl in Hhead.
    rewrite (of_items_wf _ Hhead). now rewrite IH. }
  rewrite Hmap. now apply of_items_wf.
Qed.

Lemma wf_store_set (st : store) s (e : entry) :
  wf_store st -> wf e -> wf_store (set st s e).
Proof.
  intros [Hwf Hentries] He. split; [now apply wf_set|].
  now apply Forall_values_set.
Qed.

Lemma wf_store_del (st : store) s : wf_store st -> wf_store (del st s).
Proof.
  intros [Hwf Hentries]. split; [now apply wf_del|].
  now apply Forall_values_del.
Qed.

Lemma wf_store_get (st : store) s e : wf_store st -> get st s = Some e -> wf e.
Proof. intros [_ Hentries]. apply (Forall_values_get wf st s e). exact Hentries. Qed.

Lemma wf_new_entry u c url notes t : wf (new_entry u c url notes t).
Proof.
  unfold wf, new_entry. simpl.
  repeat (constructor; [simpl; intuition discriminate|]). constructor.
Qed.

(** [load_passwords] reads only: it returns a store, or the storage file is
    not UTF-8 and it raises. *)
Lemma load_passwords_cases (w : world) :
  (exists st, load_passwords w = (Ok st, w) /\ wf_store st) \/
  (exists msg, storage_file w = Some (NotUtf8 msg) /\
               load_passwords w = (Raise (UnicodeDecodeError msg), w)).
Proof.
  unfold load_passwords, bind, get_world, ret, raise.
  destruct (storage_file w) as [[msg| |members]|].
  - right. now exists msg.
  - left. exists empty. split; [reflexivity|]. split; constructor.
  - left. exists (json_load members).
    split; [reflexivity | apply wf_store_json_load].
  - left. exists empty. split; [reflexivity|]. split; constructor.
Qed.

Lemma load_passwords_reads (w w' : world) (r : res store) :
  load_passwords w = (r, w') -> w' = w.
Proof.
  destruct (load_passwords_cases w) as [(st & Hload & _)|(msg & _ & Hload)];
    rewrite Hload; now intros [= _ <-].
Qed.

(** The store [load_passwords] returns has distinct services and members. *)
Lemma load_passwords_wf (w w' : world) (st : store) :
  load_passwords w = (Ok st, w') -> wf_store st.
Proof.
  destruct (load_passwords_cases w) as [(st' & Hload & Hwf)|(msg & _ & Hload)];
    rewrite Hload; [now intros [= <- _] | discriminate].
Qed.

Lemma load_passwords_written (w : world) (st : store) :
  storage_file w = Some (JsonObject st) -> wf_store st ->
  load_passwords w = (Ok st, w).
Proof.
  intros Hfile Hwf. unfold load_passwords, bind, get_world, ret.
  rewrite Hfile. now rewrite json_load_wf_store.
Qed.

End StoreFacts.

(** ** The key file and the encryption step *)

Module KeyFacts.
Import PasswordServer.
Section WithCrypto.
Context {crypto : Cryptography}.

Lemma get_or_create_key_present o w key :
  key_file w = Some key -> get_or_create_key o w = (Ok key, w).
Proof.
  intros Hkey. unfold get_or_create_key, bind, get_world, ret. now rewrite Hkey.
Qed.

(** Whatever the key file was, the call returns a key and the key file then
    holds it; the storage file is not touched. *)
Lemma get_or_create_key_spec o w :
  exists key w',
    get_or_create_key o w = (Ok key, w') /\ key_file w' = Some key /\
    storage_file w' = storage_file w /\
    (key_file w = None -> key = fernet_generate_key (urandom o)) /\
    (forall key0, key_file w = Some key0 -> key = key0 /\ w' = w).
Proof.
  unfold get_or_create_key, bind, get_world, put_world, ret.
  destruct (key_file w) as [key|] eqn:Hkey.
  - exists key, w. repeat split; auto; try congruence.
  - eexists _, _. split; [reflexivity|]. repeat split; auto; discriminate.
Qed.

Lemma encrypt_password_present o w key password :
  key_file w = Some key -> fernet_key_ok key = true ->
  encrypt_password o password w = (Ok (ciphertext key o password), w).
Proof.
  intros Hkey Hok. unfold encrypt_password, bind.
  rewrite (get_or_create_key_present o w key Hkey).
  unfold Fernet. rewrite Hok. reflexivity.
Qed.

Lemma decrypt_password_ciphertext o o' w key password :
  key_file w = Some key -> fernet_key_ok key = true ->
  decrypt_password o' (ciphertext key o password) w = (Ok password, w).
Proof.
  intros Hkey Hok. unfold decrypt_password, bind.
  rewrite (get_or_create_key_present o' w key Hkey).
  unfold Fernet. rewrite Hok. unfold ret at 1.
  unfold ciphertext, encode, decode.
  rewrite list_byte_of_string_of_list_byte, b64decode_b64encode.
  unfold ret at 1. rewrite fernet_decrypt_encrypt by exact Hok.
  unfold ret. now rewrite string_of_list_byte_of_string.
Qed.

(** A call of [encrypt_password] that returns has used the key the key file
    holds afterwards, and that key is one [Fernet] accepts. *)
Lemma encrypt_password_inv o w password c w' :
  encrypt_password o password w = (Ok c, w') ->
  exists key,
    key_file w' = Some key /\ fernet_key_ok key = true /\
    c = ciphertext key o password /\ storage_file w' = storage_file w /\
    (forall key0, key_file w = Some key0 -> w' = w).
Proof.
  unfold encrypt_password, bind.
  destruct (get_or_create_key_spec o w)
    as (key & w1 & Hcall & Hfile & Hstorage & _ & Hsame).
  rewrite Hcall. unfold Fernet.
  destruct (fernet_key_ok key) eqn:Hok; unfold ret, raise; intros [= <- <-].
  exists key. repeat split; auto. intros key0 H0. now destruct (Hsame key0 H0).
Qed.

(** [encrypt_password] raises only on a key file that [Fernet] rejects. *)
Lemma encrypt_password_usable o w password :
  usable_key w = true ->
  exists c w', encrypt_password o password w = (Ok c, w').
Proof.
  unfold usable_key, encrypt_password, bind. intros Hkey.
  destruct (get_or_create_key_spec o w)
    as (key & w1 & Hcall & _ & _ & Hnew & Hsame).
  rewrite Hcall. unfold Fernet.
  assert (Hok : fernet_key_ok key = true).
  { destruct (key_file w) as [key0|].
    - destruct (Hsame key0 eq_refl) as [-> _]. exact Hkey.
    - rewrite (Hnew eq_refl). apply fernet_generate_key_ok. }
  rewrite Hok. unfold ret. eauto.
Qed.

Lemma encrypt_password_storage o w password r w' :
  encrypt_password o password w = (r, w') -> storage_file w' = storage_file w.
Proof.
  unfold encrypt_password, bind.
  destruct (get_or_create_key_spec o w) as (key & w1 & Hcall & _ & Hstorage & _).
  rewrite Hcall. unfold Fernet.
  destruct (fernet_key_ok key); unfold ret, raise; intros [= _ <-]; assumption.
Qed.

Lemma decrypt_password_storage o w c r w' :
  decrypt_password o c w = (r, w') -> storage_file w' = storage_file w.
Proof.
  unfold decrypt_password, bind.
  destruct (get_or_create_key_spec o w) as (key & w1 & Hcall & _ & Hstorage & _).
  rewrite Hcall. unfold Fernet.
  destruct (fernet_key_ok key); unfold ret, raise; [|intros [= _ <-]; assumption].
  destruct (b64decode (encode c)); [intros [= _ <-]; assumption|].
  destruct (fernet_decrypt key b); intros [= _ <-]; assumption.
Qed.

Lemma key_calls_stable os w key :
  key_file w = Some key ->
  key_calls os w = (map (fun _ => Ok key) os, w).
Proof.
  intros Hkey. induction os as [|o rest IH]; simpl.
  - reflexivity.
  - rewrite (get_or_create_key_present o w key Hkey). now rewrite IH.
Qed.

End WithCrypto.
End KeyFacts.

(** ** The tool calls on the store *)

Module ToolFacts.
Import PyDict PyDictFacts PasswordServer StoreFacts KeyFacts.
Section WithCrypto.
Context {crypto : Cryptography}.

Lemma dispatch_save o a : handle_call_tool o "save_password" a = call_save_password o a.
Proof. reflexivity. Qed.

Lemma dispatch_get o a : handle_call_tool o "get_password" a = call_get_password o a.
Proof. reflexivity. Qed.

Lemma dispatch_delete o a : handle_call_tool o "delete_password" a = call_delete_password a.
Proof. reflexivity. Qed.

Lemma dispatch_update o a : handle_call_tool o "update_password" a = call_update_password o a.
Proof. reflexivity. Qed.

Lemma dispatch_generate o a :
  handle_call_tool o "generate_password" a = call_generate_password o a.
Proof. reflexivity. Qed.

(** What a [save_password] call that reports success has done. *)
Lemma call_save_password_inv o a w s u p r w1 :
  get (str_items a) "service" = Some s ->
  get (str_items a) "username" = Some u ->
  get (str_items a) "password" = Some p ->
  call_save_password o a w = (r, w1) ->
  reports saved_marker r = true ->
  exists st0 key w',
    load_passwords w = (Ok st0, w) /\ wf_store st0 /\
    encrypt_password o p w = (Ok (ciphertext key o p), w') /\
    key_file w1 = Some key /\ fernet_key_ok key = true /\
    storage_file w1 =
      Some (JsonObject
              (set st0 s
                 (new_entry u (ciphertext key o p)
                    (get_default (str_items a) "url" "")
                    (get_default (str_items a) "notes" "") (now o)))).
Proof.
  intros Hs Hu Hp Hcall Hrep.
  unfold call_save_password, bind, subscript in Hcall.
  rewrite Hs, Hu, Hp in Hcall. unfold ret at 1 2 3 in Hcall.
  destruct (load_passwords_cases w) as [(st0 & Hload & Hwf)|(msg & _ & Hload)];
    rewrite Hload in Hcall;
    [|injection Hcall as <- <-; simpl in Hrep; discriminate].
  unfold try_except in Hcall.
  destruct (encrypt_password o p w) as [[c|e] w'] eqn:Henc.
  - destruct (encrypt_password_inv _ _ _ _ _ Henc)
      as (key & Hkey & Hok & -> & Hstorage & _).
    unfold save_passwords, bind, get_world, put_world, ret in Hcall.
    injection Hcall as <- <-.
    exists st0, key, w'. cbn [key_file storage_file]. tauto.
  - unfold ret in Hcall. injection Hcall as <- <-.
    simpl in Hrep. discriminate.
Qed.

Lemma has_text_get (e : entry) k :
  has_text e k = true -> exists v, get e k = Some v.
Proof. unfold has_text. destruct (get e k); [eauto | discriminate]. Qed.

(** [get_password] on a stored entry whose password decrypts. *)
Lemma call_get_password_found o a w s st e c u p w' :
  get (str_items a) "service" = Some s ->
  load_passwords w = (Ok st, w) ->
  get st s = Some e ->
  get e "encrypted_password" = Some c ->
  get e "username" = Some u ->
  decrypt_password o c w = (Ok p, w') ->
  exists rest,
    call_get_password o a w =
      (Ok (text_content
             ("🔓 Password retrieved for " ++ s ++ ":" ++ nl ++ nl
                ++ "👤 Username: " ++ u ++ nl
                ++ "🔑 Password: " ++ p ++ nl ++ rest)), w').
Proof.
  intros Hs Hload Hget Hc Hu Hdec.
  unfold call_get_password, bind, subscript.
  rewrite Hs. unfold ret at 1. rewrite Hload.
  unfold mem. rewrite Hget. cbn [negb]. unfold ret at 1.
  unfold try_except. rewrite Hc. unfold ret at 1. rewrite Hdec, Hu.
  unfold ret at 1.
  destruct (has_text e "url") eqn:Hurl;
    [destruct (has_text_get _ _ Hurl) as [url ->] |];
    (destruct (has_text e "notes") eqn:Hnotes;
     [destruct (has_text_get _ _ Hnotes) as [notes ->] |]);
    unfold ret; eexists; do 3 f_equal;
    rewrite !append_assoc; reflexivity.
Qed.

(** When the store loads, [get_password] returns a text and writes at most
    the key file;
    the text is the not-found text exactly when the service is not stored. *)
Lemma call_get_password_total o a w s st :
  get (str_items a) "service" = Some s ->
  load_passwords w = (Ok st, w) ->
  exists t w',
    call_get_password o a w = (Ok (text_content t), w') /\
    storage_file w' = storage_file w /\
    (mem st s = false -> t = not_found_text s st /\ w' = w) /\
    (mem st s = true -> startswith not_found_marker t = false).
Proof.
  intros Hs Hload.
  unfold call_get_password, bind, subscript.
  rewrite Hs. unfold ret at 1. rewrite Hload.
  destruct (mem st s) eqn:Hmem; cbn [negb].
  - apply mem_true_get in Hmem. destruct Hmem as [e Hget]. rewrite Hget.
    unfold ret at 1. unfold try_except.
    destruct (get e "encrypted_password") as [c|].
    + unfold ret at 1.
      destruct (decrypt_password o c w) as [[p|ex] w'] eqn:Hdec;
        pose proof (decrypt_password_storage _ _ _ _ _ Hdec) as Hst.
      * destruct (get e "username") as [u|].
        -- unfold ret at 1.
           destruct (has_text e "url") eqn:Hurl;
             [destruct (has_text_get _ _ Hurl) as [url ->] |];
             (destruct (has_text e "notes") eqn:Hnotes;
              [destruct (has_text_get _ _ Hnotes) as [notes ->] |]);
             unfold ret; eexists _, _; (split; [reflexivity|]);
             (split; [exact Hst|]); (split; [discriminate | intros _; reflexivity]).
        -- unfold raise, ret. eexists _, _. split; [reflexivity|].
           split; [exact Hst|]. split; [discriminate | intros _; reflexivity].
      * unfold ret. eexists _, _. split; [reflexivity|].
        split; [exact Hst|]. split; [discriminate | intros _; reflexivity].
    + unfold raise, ret. eexists _, _. split; [reflexivity|].
      split; [reflexivity|]. split; [discriminate | intros _; reflexivity].
  - unfold ret. eexists _, _. split; [reflexivity|]. split; [reflexivity|].
    split; [auto | discriminate].
Qed.

Lemma load_passwords_same_storage w w' st :
  storage_file w' = storage_file w ->
  load_passwords w = (Ok st, w) -> load_passwords w' = (Ok st, w').
Proof.
  unfold load_passwords, bind, get_world, ret, raise. intros ->.
  destruct (storage_file w) as [[msg| |members]|]; intros [= <-]; reflexivity.
Qed.

Lemma not_found_text_marker s st :
  startswith not_found_marker (not_found_text s st) = true.
Proof.
  unfold not_found_text, startswith, not_found_marker.
  destruct (keys st); rewrite !append_assoc; apply prefix_append.
Qed.

(** The world a successful [save_password] leaves, read back. *)
Lemma saved_world o a w s u p r w1 st0 :
  get (str_items a) "service" = Some s ->
  get (str_items a) "username" = Some u ->
  get (str_items a) "password" = Some p ->
  load_passwords w = (Ok st0, w) ->
  call_save_password o a w = (r, w1) ->
  reports saved_marker r = true ->
  exists key,
    let e := new_entry u (ciphertext key o p)
               (get_default (str_items a) "url" "")
               (get_default (str_items a) "notes" "") (now o) in
    key_file w1 = Some key /\ fernet_key_ok key = true /\
    wf_store st0 /\
    storage_file w1 = Some (JsonObject (set st0 s e)) /\
    load_passwords w1 = (Ok (set st0 s e), w1).
Proof.
  intros Hs Hu Hp Hload Hcall Hrep.
  destruct (call_save_password_inv _ _ _ _ _ _ _ _ Hs Hu Hp Hcall Hrep)
    as (st0' & key & w' & Hload' & Hwf & _ & Hkey & Hok & Hfile).
  rewrite Hload in Hload'. injection Hload' as <-.
  exists key. cbv zeta. repeat (split; [assumption|]).
  apply load_passwords_written; [assumption|].
  apply wf_store_set; [assumption | apply wf_new_entry].
Qed.

End WithCrypto.
End ToolFacts.

(** * The claims about the password server *)

Section PasswordServerClaims.
Import PyDict PyDictFacts PasswordServer StoreFacts KeyFacts ToolFacts.
Context {crypto : Cryptography}.

(** C1. With a key file that holds a Fernet key, decrypting what
    [encrypt_password] returned for [p] gives [p] back and the files are as
    before. And whenever the tool [save_password] with service [s], username
    [u] and password [p] reports success, from any prior world, the tool
    [get_password] with service [s] called next returns a text that contains
    [p] and [u]. *)
Theorem encrypt_store_retrieve_round_trip :
  (forall o1 o2 w key p,
     key_file w = Some key -> fernet_key_ok key = true ->
     (c <- encrypt_password o1 p ;; decrypt_password o2 c) w = (Ok p, w)) /\
  (forall o1 o2 w a1 a2 s u p r w1,
     get (str_items a1) "service" = Some s ->
     get (str_items a1) "username" = Some u ->
     get (str_items a1) "password" = Some p ->
     handle_call_tool o1 "save_password" a1 w = (r, w1) ->
     reports saved_marker r = true ->
     get (str_items a2) "service" = Some s ->
     exists t,
       handle_call_tool o2 "get_password" a2 w1 = (Ok (text_content t), w1) /\
       Contains p t /\ Contains u t).
Proof.
  split.
  - intros o1 o2 w key p Hkey Hok. unfold bind.
    rewrite (encrypt_password_present o1 w key p Hkey Hok).
    now apply decrypt_password_ciphertext.
  - intros o1 o2 w a1 a2 s u p r w1 Hs Hu Hp Hcall Hrep Hs2.
    rewrite dispatch_save in Hcall. rewrite dispatch_get.
    destruct (call_save_password_inv _ _ _ _ _ _ _ _ Hs Hu Hp Hcall Hrep)
      as (st0 & ? & ? & Hload & _).
    destruct (saved_world _ _ _ _ _ _ _ _ _ Hs Hu Hp Hload Hcall Hrep)
      as (key & Hkey & Hok & Hwf & _ & Hload1).
    cbv zeta in Hload1.
    edestruct (call_get_password_found o2 a2 w1 s) as [rest Hget];
      [exact Hs2 | exact Hload1 | apply get_set_eq | reflexivity | reflexivity
      | apply (decrypt_password_ciphertext o1 o2 w1 key p Hkey Hok) |].
    eexists. split; [exact Hget|]. split.
    + do 9 apply Contains_append_l. apply Contains_here.
    + do 6 apply Contains_append_l. apply Contains_here.
Qed.

(** C2. The store is keyed by service name. After a [save_password] with
    service [s] that reports success, the store read back is the prior store
    with [s] mapped to the entry just built: every other service has the entry
    it had, and [s] has exactly one slot (kept in place if [s] was stored,
    added last otherwise). A second successful save for the same [s] therefore
    leaves the list of services as it was and replaces the entry. *)
Theorem save_password_keyed_by_service :
  forall o w a s u p r w1 st0,
    get (str_items a) "service" = Some s ->
    get (str_items a) "username" = Some u ->
    get (str_items a) "password" = Some p ->
    load_passwords w = (Ok st0, w) ->
    handle_call_tool o "save_password" a w = (r, w1) ->
    reports saved_marker r = true ->
    exists key st1,
      let e := new_entry u (ciphertext key o p)
                 (get_default (str_items a) "url" "")
                 (get_default (str_items a) "notes" "") (now o) in
      key_file w1 = Some key /\
      load_passwords w1 = (Ok st1, w1) /\
      get st1 s = Some e /\
      (forall s', s' <> s -> get st1 s' = get st0 s') /\
      count_occ string_dec (keys st1) s = 1 /\
      keys st1 = (if mem st0 s then keys st0 else (keys st0 ++ [s])%list) /\
      (forall o' a' u' p' r' w2,
         get (str_items a') "service" = Some s ->
         get (str_items a') "username" = Some u' ->
         get (str_items a') "password" = Some p' ->
         handle_call_tool o' "save_password" a' w1 = (r', w2) ->
         reports saved_marker r' = true ->
         exists st2,
           load_passwords w2 = (Ok st2, w2) /\
           keys st2 = keys st1 /\
           get st2 s =
             Some (new_entry u' (ciphertext key o' p')
                     (get_default (str_items a') "url" "")
                     (get_default (str_items a') "notes" "") (now o'))).
Proof.
  intros o w a s u p r w1 st0 Hs Hu Hp Hload Hcall Hrep.
  rewrite dispatch_save in Hcall.
  destruct (saved_world _ _ _ _ _ _ _ _ _ Hs Hu Hp Hload Hcall Hrep)
    as (key & Hkey & Hok & Hwf & Hfile & Hload1).
  cbv zeta in Hfile, Hload1.
  eexists key, _. cbv zeta.
  split; [exact Hkey|]. split; [exact Hload1|].
  split; [apply get_set_eq|].
  split; [intros s' Hne; now apply get_set_ne|].
  assert (Hwf1 : wf (set st0 s
             (new_entry u (ciphertext key o p)
                (get_default (str_items a) "url" "")
                (get_default (str_items a) "notes" "") (now o)))).
  { apply wf_set. apply Hwf. }
  split.
  { rewrite (count_key _ s Hwf1).
    assert (Hm : mem (set st0 s
             (new_entry u (ciphertext key o p)
                (get_default (str_items a) "url" "")
                (get_default (str_items a) "notes" "") (now o))) s = true).
    { apply mem_true_get. eexists. apply get_set_eq. }
    now rewrite Hm. }
  split; [apply keys_set|].
  intros o' a' u' p' r' w2 Hs' Hu' Hp' Hcall' Hrep'.
  rewrite dispatch_save in Hcall'.
  destruct (saved_world _ _ _ _ _ _ _ _ _ Hs' Hu' Hp' Hload1 Hcall' Hrep')
    as (key' & Hkey' & _ & _ & _ & Hload2).
  cbv zeta in Hload2.
  assert (key' = key) as ->.
  { unfold call_save_password, bind, subscript in Hcall'.
    rewrite Hs', Hu', Hp' in Hcall'. unfold ret at 1 2 3 in Hcall'.
    rewrite Hload1 in Hcall'. unfold try_except in Hcall'.
    rewrite (encrypt_password_present o' w1 key p' Hkey Hok) in Hcall'.
    unfold save_passwords, bind, get_world, put_world, ret in Hcall'.
    injection Hcall' as _ <-. cbn [key_file] in Hkey'. congruence. }
  eexists. split; [exact Hload2|].
  split; [|apply get_set_eq].
  rewrite keys_set.
  replace (mem _ s) with true; [reflexivity|].
  symmetry. apply mem_true_get. eexists. apply get_set_eq.
Qed.

(** C3. Exactly one field is encrypted. The entry a successful
    [save_password] writes has the six members of the entry literal: the
    username, url and notes of the call as they were given (url and notes
    being the empty string when the call has none), both time stamps equal to
    the clock reading, and under [encrypted_password] the password after
    [encode], Fernet encryption with the key of the key file, [b64encode] and
    [decode]. *)
Theorem save_password_encrypts_only_password :
  forall o w a s u p r w1,
    get (str_items a) "service" = Some s ->
    get (str_items a) "username" = Some u ->
    get (str_items a) "password" = Some p ->
    handle_call_tool o "save_password" a w = (r, w1) ->
    reports saved_marker r = true ->
    exists key st1 e,
      key_file w1 = Some key /\
      storage_file w1 = Some (JsonObject st1) /\
      load_passwords w1 = (Ok st1, w1) /\
      get st1 s = Some e /\
      keys e = ["username"; "encrypted_password"; "url"; "notes";
                "created_at"; "updated_at"] /\
      get e "username" = Some u /\
      get e "url" = Some (get_default (str_items a) "url" "") /\
      get e "notes" = Some (get_default (str_items a) "notes" "") /\
      (get (str_items a) "url" = None -> get e "url" = Some "") /\
      (get (str_items a) "notes" = None -> get e "notes" = Some "") /\
      get e "encrypted_password" =
        Some (decode (b64encode (fernet_encrypt key (nonce o) (encode p)))) /\
      get e "created_at" = Some (now o) /\
      get e "updated_at" = Some (now o).
Proof.
  intros o w a s u p r w1 Hs Hu Hp Hcall Hrep.
  rewrite dispatch_save in Hcall.
  destruct (call_save_password_inv _ _ _ _ _ _ _ _ Hs Hu Hp Hcall Hrep)
    as (st0 & ? & ? & Hload & _).
  destruct (saved_world _ _ _ _ _ _ _ _ _ Hs Hu Hp Hload Hcall Hrep)
    as (key & Hkey & Hok & Hwf & Hfile & Hload1).
  cbv zeta in Hfile, Hload1.
  eexists key, _, _.
  split; [exact Hkey|]. split; [exact Hfile|]. split; [exact Hload1|].
  split; [apply get_set_eq|].
  unfold get_default.
  repeat split; try reflexivity.
  - intros ->. reflexivity.
  - intros ->. reflexivity.
Qed.

(** C4. The key is persisted and stable. When the key file exists,
    [get_or_create_key] returns its contents and changes nothing. In any
    sequence of calls the first one returns a key, and every later call
    returns that same key and leaves the world the first call left. *)
Theorem get_or_create_key_stable :
  (forall o w key,
     key_file w = Some key -> get_or_create_key o w = (Ok key, w)) /\
  (forall o os w,
     exists key w1,
       get_or_create_key o w = (Ok key, w1) /\
       key_file w1 = Some key /\
       key_calls os w1 = (map (fun _ => Ok key) os, w1) /\
       key_calls (o :: os) w = (map (fun _ => Ok key) (o :: os), w1)).
Proof.
  split.
  - apply get_or_create_key_present.
  - intros o os w.
    destruct (get_or_create_key_spec o w) as (key & w1 & Hcall & Hfile & _).
    exists key, w1. split; [exact Hcall|]. split; [exact Hfile|].
    pose proof (key_calls_stable os w1 key Hfile) as Hrest.
    split; [exact Hrest|].
    cbn [key_calls map]. rewrite Hcall, Hrest. reflexivity.
Qed.

(** C6. [get_password] returns a text whatever the store; the text is the
    "No password found" message exactly when the service is not a key of the
    loaded store; and the call never writes the storage file, so the store
    read afterwards is the same (with the service absent nothing at all is
    written). *)
Theorem get_password_not_found_iff :
  forall o w a s st,
    get (str_items a) "service" = Some s ->
    load_passwords w = (Ok st, w) ->
    exists t w',
      handle_call_tool o "get_password" a w = (Ok (text_content t), w') /\
      (t = not_found_text s st <-> mem st s = false) /\
      (startswith not_found_marker t = true <-> mem st s = false) /\
      storage_file w' = storage_file w /\
      load_passwords w' = (Ok st, w') /\
      (mem st s = false -> w' = w).
Proof.
  intros o w a s st Hs Hload. rewrite dispatch_get.
  destruct (call_get_password_total o a w s st Hs Hload)
    as (t & w' & Hcall & Hfile & Hnone & Hsome).
  exists t, w'. split; [exact Hcall|].
  assert (Hiff : startswith not_found_marker t = true <-> mem st s = false).
  { destruct (mem st s) eqn:Hmem.
    - rewrite (Hsome eq_refl). split; discriminate.
    - destruct (Hnone eq_refl) as [-> _].
      rewrite not_found_text_marker. tauto. }
  split.
  { split.
    - intros ->. apply Hiff. apply not_found_text_marker.
    - intros Hmem. now destruct (Hnone Hmem). }
  split; [exact Hiff|]. split; [exact Hfile|].
  split; [now apply (load_passwords_same_storage w)|].
  intros Hmem. now destruct (Hnone Hmem).
Qed.

(** C7. Deletion affects exactly one entry. For a store that contains
    service [s], [delete_password] writes back the store without the slot of
    [s]: [s] is no longer a key, every other service has the entry it had, and
    the store has one slot less. The key file is not touched. The write is
    done before the result text is built, so it also happens when the deleted
    entry has no username and the call ends with [KeyError]. *)
Theorem delete_password_removes_one :
  forall o w a s st,
    get (str_items a) "service" = Some s ->
    load_passwords w = (Ok st, w) ->
    mem st s = true ->
    exists r w1,
      handle_call_tool o "delete_password" a w = (r, w1) /\
      (reports deleted_marker r = true \/ r = Raise (KeyError "username")) /\
      key_file w1 = key_file w /\
      storage_file w1 = Some (JsonObject (del st s)) /\
      load_passwords w1 = (Ok (del st s), w1) /\
      get (del st s) s = None /\
      (forall s', s' <> s -> get (del st s) s' = get st s') /\
      S (List.length (del st s)) = List.length st.
Proof.
  intros o w a s st Hs Hload Hmem. rewrite dispatch_delete.
  pose proof (load_passwords_wf _ _ _ Hload) as Hwf.
  unfold call_delete_password, bind, subscript.
  rewrite Hs. unfold ret at 1. rewrite Hload, Hmem. cbn [negb].
  destruct (proj1 (mem_true_get st s) Hmem) as [e He]. rewrite He.
  unfold ret at 1. unfold save_passwords, bind, get_world, put_world.
  assert (Hrest :
    forall r k,
      (reports deleted_marker r = true \/ r = Raise (KeyError "username")) ->
      exists r0 w1,
        (r, {| key_file := k; storage_file := Some (JsonObject (del st s)) |})
          = (r0, w1) /\
        (reports deleted_marker r0 = true \/ r0 = Raise (KeyError "username")) /\
        key_file w1 = k /\
        storage_file w1 = Some (JsonObject (del st s)) /\
        load_passwords w1 = (Ok (del st s), w1) /\
        get (del st s) s = None /\
        (forall s', s' <> s -> get (del st s) s' = get st s') /\
        S (List.length (del st s)) = List.length st).
  { intros r k Hr. eexists _, _. split; [reflexivity|]. split; [exact Hr|].
    split; [reflexivity|]. split; [reflexivity|].
    split; [apply load_passwords_written; [reflexivity | now apply wf_store_del]|].
    split; [apply get_del_eq, Hwf|].
    split; [intros s' Hne; now apply get_del_ne|].
    now apply length_del. }
  destruct (get e "username") as [u|]; unfold ret, raise; apply Hrest.
  - left. reflexivity.
  - right. reflexivity.
Qed.


End PasswordServerClaims.

(** *** The statements at the concrete run *)

Lemma encrypt_store_retrieve_round_trip_witness :
  (c <- PasswordServer.encrypt_password demo_oracle "hunter2" ;;
   PasswordServer.decrypt_password demo_oracle c) demo_world
    = (Ok "hunter2", demo_world) /\
  exists t,
    PasswordServer.handle_call_tool demo_oracle "get_password"
      demo_service_arguments (snd demo_saved)
      = (Ok (PasswordServer.text_content t), snd demo_saved) /\
    Contains "hunter2" t /\ Contains "john@example.com" t.
Proof.
  destruct (@encrypt_store_retrieve_round_trip toy_crypto) as [Hcrypt Htool].
  split.
  - apply (Hcrypt demo_oracle demo_oracle demo_world
             (toy_generate_key [x01; x02; x03])); reflexivity.
  - apply (Htool demo_oracle demo_oracle demo_world demo_save_arguments
             demo_service_arguments "Gmail" "john@example.com" "hunter2"
             (fst demo_saved) (snd demo_saved)); reflexivity.
Defined.

Lemma save_password_keyed_by_service_witness :
  exists key st1,
    key_file (snd demo_saved) = Some key /\
    PasswordServer.load_passwords (snd demo_saved) = (Ok st1, snd demo_saved) /\
    PyDict.get st1 "Gmail" =
      Some (PasswordServer.new_entry "john@example.com"
              (ciphertext key demo_oracle "hunter2") "" "personal"
              "2024-05-17T10:30:00") /\
    count_occ string_dec (PyDict.keys st1) "Gmail" = 1.
Proof.
  destruct (@save_password_keyed_by_service toy_crypto demo_oracle demo_world
              demo_save_arguments "Gmail" "john@example.com" "hunter2"
              (fst demo_saved) (snd demo_saved) PyDict.empty)
    as (key & st1 & Hkey & Hload & Hget & _ & Hcount & _);
    try reflexivity.
  exists key, st1. repeat split; assumption.
Defined.

Lemma save_password_encrypts_only_password_witness :
  exists key st1 e,
    key_file (snd demo_saved) = Some key /\
    storage_file (snd demo_saved) = Some (JsonObject st1) /\
    PyDict.get st1 "Gmail" = Some e /\
    PyDict.get e "username" = Some "john@example.com" /\
    PyDict.get e "url" = Some "" /\
    PyDict.get e "notes" = Some "personal" /\
    PyDict.get e "encrypted_password" =
      Some (decode (b64encode (fernet_encrypt key [x10] (encode "hunter2")))).
Proof.
  destruct (@save_password_encrypts_only_password toy_crypto demo_oracle
              demo_world demo_save_arguments "Gmail" "john@example.com" "hunter2"
              (fst demo_saved) (snd demo_saved))
    as (key & st1 & e & Hkey & Hfile & _ & Hget & _ & Hu & Hurl & Hnotes & _
        & _ & Henc & _);
    try reflexivity.
  exists key, st1, e. repeat split; assumption.
Defined.

Lemma get_or_create_key_stable_witness :
  PasswordServer.get_or_create_key demo_oracle demo_world
    = (Ok (toy_generate_key [x01; x02; x03]), demo_world).
Proof.
  apply (proj1 (@get_or_create_key_stable toy_crypto)). reflexivity.
Defined.

Lemma get_password_not_found_iff_witness :
  exists t w',
    PasswordServer.handle_call_tool demo_oracle "get_password"
      (str_arguments [("service", "GitHub")]) (snd demo_saved)
      = (Ok (PasswordServer.text_content t), w') /\
    (t = PasswordServer.not_found_text "GitHub" demo_store <->
     PyDict.mem demo_store "GitHub" = false) /\
    storage_file w' = storage_file (snd demo_saved).
Proof.
  destruct (@get_password_not_found_iff toy_crypto demo_oracle (snd demo_saved)
              (str_arguments [("service", "GitHub")]) "GitHub" demo_store)
    as (t & w' & Hcall & Hiff & _ & Hfile & _);
    try reflexivity.
  exists t, w'. repeat split; try assumption; apply Hiff.
Defined.

Lemma delete_password_removes_one_witness :
  exists r w1,
    PasswordServer.handle_call_tool demo_oracle "delete_password"
      demo_service_arguments (snd demo_saved) = (r, w1) /\
    storage_file w1 = Some (JsonObject (PyDict.del demo_store "Gmail")) /\
    PyDict.get (PyDict.del demo_store "Gmail") "Gmail" = None.
Proof.
  destruct (@delete_password_removes_one toy_crypto demo_oracle (snd demo_saved)
              demo_service_arguments "Gmail" demo_store)
    as (r & w1 & Hcall & _ & _ & Hfile & _ & Hgone & _);
    try reflexivity.
  exists r, w1. repeat split; assumption.
Defined.



(** ** Lists, choices and the shuffle *)

Module ShuffleFacts.
Section Lists.
Context {A : Type}.
Implicit Types (l : list A) (x y : A) (i j : nat).

Lemma length_update l i x : List.length (update l i x) = List.length l.
Proof.
  revert i. induction l as [|y l IH]; intros [|i]; simpl; auto.
Qed.

Lemma nth_error_update_eq l i x :
  i < List.length l -> nth_error (update l i x) i = Some x.
Proof.
  revert i. induction l as [|y l IH]; intros [|i]; simpl; try lia; auto.
  intros H. apply IH. lia.
Qed.

Lemma nth_error_update_ne l i j x :
  i <> j -> nth_error (update l i x) j = nth_error l j.
Proof.
  revert i j. induction l as [|y l IH]; intros [|i] [|j]; simpl; auto; try lia.
Qed.

Lemma Forall_update (P : A -> Prop) l i x :
  Forall P l -> P x -> Forall P (update l i x).
Proof.
  intros Hl Hx. revert i.
  induction Hl as [|y l Hy Hl IH]; intros [|i]; simpl; constructor; auto.
Qed.

Lemma Exists_nth_error (P : A -> Prop) l i x :
  nth_error l i = Some x -> P x -> Exists P l.
Proof.
  intros Hnth Hx. apply Exists_exists. exists x. split; [|exact Hx].
  eapply nth_error_In; eassumption.
Qed.

(** Overwriting position [j], which held [y], and putting [y] in front. *)
Lemma Permutation_update_cons l j x y :
  nth_error l j = Some y -> Permutation (y :: update l j x) (x :: l).
Proof.
  revert j. induction l as [|z l IH]; intros [|j]; simpl; try discriminate.
  - intros [= ->]. apply perm_swap.
  - intros Hnth. specialize (IH j Hnth).
    apply perm_trans with (z :: y :: update l j x); [apply perm_swap|].
    apply perm_trans with (z :: x :: l); [now apply perm_skip | apply perm_swap].
Qed.

Lemma Permutation_swap l i j : Permutation (swap l i j) l.
Proof.
  unfold swap.
  destruct (nth_error l i) as [xi|] eqn:Hi; [|reflexivity].
  destruct (nth_error l j) as [xj|] eqn:Hj; [|reflexivity].
  revert i j Hi Hj. induction l as [|z l IH]; intros [|i] [|j]; simpl;
    try discriminate.
  - intros [= ->] [= ->]. reflexivity.
  - intros [= ->] Hj. now apply Permutation_update_cons.
  - intros Hi [= ->]. now apply Permutation_update_cons.
  - intros Hi Hj. apply perm_skip. now apply IH.
Qed.

Lemma Permutation_shuffle_from o i c l : Permutation (shuffle_from o i c l) l.
Proof.
  revert c l. induction i as [|i IH]; intros c l; simpl.
  - reflexivity.
  - eapply perm_trans; [apply IH | apply Permutation_swap].
Qed.

Lemma Permutation_shuffle o c l : Permutation (shuffle o c l) l.
Proof. apply Permutation_shuffle_from. Qed.

End Lists.

Lemma length_list_ascii_of_string s :
  List.length (list_ascii_of_string s) = String.length s.
Proof. induction s as [|a s IH]; simpl; auto. Qed.

Lemma length_string_of_list_ascii l :
  String.length (string_of_list_ascii l) = List.length l.
Proof. induction l as [|a l IH]; simpl; auto. Qed.

Lemma char_in_In alphabet c :
  char_in alphabet c = true <-> In c (list_ascii_of_string alphabet).
Proof.
  unfold char_in. rewrite existsb_exists. split.
  - intros (x & Hin & Heq). apply Ascii.eqb_eq in Heq. now subst.
  - intros Hin. exists c. split; [exact Hin | apply Ascii.eqb_refl].
Qed.

(** A choice from a non-empty alphabet is a character of the alphabet. *)
Lemma secrets_choice_in o alphabet c :
  alphabet <> "" -> char_in alphabet (secrets_choice o alphabet c) = true.
Proof.
  intros Hne. apply char_in_In. unfold secrets_choice. apply nth_In.
  rewrite length_list_ascii_of_string. apply Nat.mod_upper_bound.
  destruct alphabet; [contradiction | discriminate].
Qed.

Lemma char_in_append_l a b c : char_in a c = true -> char_in (a ++ b) c = true.
Proof.
  rewrite !char_in_In. intros Hin.
  induction a as [|x a IH]; simpl in *; [contradiction|].
  destruct Hin as [->|Hin]; auto.
Qed.

Lemma char_in_append_r a b c : char_in b c = true -> char_in (a ++ b) c = true.
Proof.
  rewrite !char_in_In. intros Hin.
  induction a as [|x a IH]; simpl; auto.
Qed.

Lemma setitem_ok {A} (l : list A) (i : Z) (x : A) (w : world) :
  (0 <= i < Z.of_nat (List.length l))%Z ->
  setitem l i x w = (Ok (update l (Z.to_nat i) x), w).
Proof.
  intros Hi. unfold setitem.
  replace (i <? 0)%Z with false by lia.
  replace ((0 <=? i)%Z && (i <? Z.of_nat (List.length l))%Z) with true by lia.
  reflexivity.
Qed.

End ShuffleFacts.

(** ** Generated passwords *)

Module GenerateFacts.
Import PasswordServer ShuffleFacts.

Lemma place_one_ok o alphabet len (pl : list ascii) pos c w :
  (0 <= pos < len)%Z -> Z.of_nat (List.length pl) = len ->
  place_one o true alphabet len (pl, pos, c) w =
    (Ok (update pl (Z.to_nat pos) (secrets_choice o alphabet c), (pos + 1)%Z, S c), w).
Proof.
  intros Hpos Hlen. unfold place_one, bind.
  replace (pos <? len)%Z with true by lia. cbn [andb].
  rewrite setitem_ok by lia. reflexivity.
Qed.

Lemma Forall_choices o alphabet n :
  alphabet <> "" ->
  Forall (fun c => char_in alphabet c = true)
    (map (fun c => secrets_choice o alphabet c) (seq 0 n)).
Proof.
  intros Hne. apply Forall_forall. intros x Hin.
  apply in_map_iff in Hin. destruct Hin as (c & <- & _).
  now apply secrets_choice_in.
Qed.

(** With the four classes enabled and a length of at least four, the
    password is a permutation of the drawn characters with one character of
    each class written over the first four positions. *)
Lemma generate_all_classes o len w :
  (4 <= len)%Z ->
  exists pl,
    generate o len true true true true all_classes w =
      (Ok (string_of_list_ascii pl), w) /\
    List.length pl = Z.to_nat len /\
    Forall (fun c => char_in all_classes c = true) pl /\
    Exists (fun c => char_in string_ascii_lowercase c = true) pl /\
    Exists (fun c => char_in string_ascii_uppercase c = true) pl /\
    Exists (fun c => char_in string_digits c = true) pl /\
    Exists (fun c => char_in symbols c = true) pl.
Proof.
  intros Hlen. unfold generate.
  replace (2 <=? len)%Z with true by lia.
  set (n := Z.to_nat len).
  set (p0 := map (fun c => secrets_choice o all_classes c) (seq 0 n)).
  assert (Hn0 : List.length p0 = n) by (unfold p0; now rewrite length_map, length_seq).
  assert (HF0 : Forall (fun c => char_in all_classes c = true) p0)
    by (apply Forall_choices; discriminate).
  set (a1 := secrets_choice o string_ascii_lowercase n).
  set (a2 := secrets_choice o string_ascii_uppercase (S n)).
  set (a3 := secrets_choice o string_digits (S (S n))).
  set (a4 := secrets_choice o symbols (S (S (S n)))).
  set (p1 := update p0 0 a1).
  set (p2 := update p1 1 a2).
  set (p3 := update p2 2 a3).
  set (p4 := update p3 3 a4).
  assert (Hn1 : List.length p1 = n) by (unfold p1; now rewrite length_update).
  assert (Hn2 : List.length p2 = n) by (unfold p2; now rewrite length_update).
  assert (Hn3 : List.length p3 = n) by (unfold p3; now rewrite length_update).
  assert (Hn4 : List.length p4 = n) by (unfold p4; now rewrite length_update).
  assert (H1 : char_in string_ascii_lowercase a1 = true)
    by (apply secrets_choice_in; discriminate).
  assert (H2 : char_in string_ascii_uppercase a2 = true)
    by (apply secrets_choice_in; discriminate).
  assert (H3 : char_in string_digits a3 = true)
    by (apply secrets_choice_in; discriminate).
  assert (H4 : char_in symbols a4 = true)
    by (apply secrets_choice_in; discriminate).
  exists (shuffle o (S (S (S (S n)))) p4).
  split.
  { assert (Hnz : Z.of_nat n = len) by (unfold n; lia).
    unfold bind.
    do 4 (rewrite place_one_ok by (rewrite ?length_update; lia); cbv beta iota).
    reflexivity. }
  pose proof (Permutation_shuffle o (S (S (S (S n)))) p4) as Hperm.
  apply Permutation_sym in Hperm.
  split; [rewrite <- (Permutation_length Hperm); exact Hn4|].
  split.
  { apply (Permutation_Forall Hperm). unfold p4, p3, p2, p1.
    apply Forall_update;
      [apply Forall_update; [apply Forall_update; [apply Forall_update|]|]|];
      try exact HF0; unfold all_classes.
    - now apply char_in_append_l.
    - now apply char_in_append_r, char_in_append_l.
    - now apply char_in_append_r, char_in_append_r, char_in_append_l.
    - now apply char_in_append_r, char_in_append_r, char_in_append_r. }
  assert (Hn : 4 <= n) by (unfold n; lia).
  split; [|split; [|split]]; apply (Permutation_Exists Hperm).
  - apply (Exists_nth_error _ p4 0 a1); [|exact H1]. unfold p4, p3, p2.
    rewrite !nth_error_update_ne by lia. apply nth_error_update_eq. lia.
  - apply (Exists_nth_error _ p4 1 a2); [|exact H2]. unfold p4, p3.
    rewrite !nth_error_update_ne by lia. apply nth_error_update_eq. lia.
  - apply (Exists_nth_error _ p4 2 a3); [|exact H3]. unfold p4.
    rewrite !nth_error_update_ne by lia. apply nth_error_update_eq. lia.
  - apply (Exists_nth_error _ p4 3 a4); [|exact H4].
    apply nth_error_update_eq. lia.
Qed.

End GenerateFacts.

(** * The claim about generated passwords *)

Section GenerateClaim.
Import PyDict PasswordServer ShuffleFacts GenerateFacts ToolFacts.
Context {crypto : Cryptography}.

(** C9. Generated passwords honor length and class coverage. For a requested
    length of at least four with the four character classes enabled, and for
    every tape of random draws, the tool [generate_password] returns the text
    built around a password of exactly that many characters, each of them in
    the union of the four classes, with at least one lowercase letter, one
    uppercase letter, one digit and one symbol among them. *)
Theorem generate_password_length_and_classes :
  forall o a w len,
    get_default (int_items a) "length" 16%Z = len ->
    (4 <= len)%Z ->
    get_default (bool_items a) "include_lowercase" true = true ->
    get_default (bool_items a) "include_uppercase" true = true ->
    get_default (bool_items a) "include_numbers" true = true ->
    get_default (bool_items a) "include_symbols" true = true ->
    exists password,
      handle_call_tool o "generate_password" a w =
        (Ok (text_content
               ("🔐 Generated secure password: " ++ password ++ nl ++ nl
                  ++ "📏 Length: " ++ str_int len ++ " characters" ++ nl
                  ++ "🔤 Lowercase: ✅" ++ nl
                  ++ "🔠 Uppercase: ✅" ++ nl
                  ++ "🔢 Numbers: ✅" ++ nl
                  ++ "🎭 Symbols: ✅" ++ nl
                  ++ nl ++ "💡 Tip: Use 'save_password' to store this securely!")),
         w) /\
      Z.of_nat (String.length password) = len /\
      Forall (fun c => char_in all_classes c = true) (list_ascii_of_string password) /\
      Exists (fun c => char_in string_ascii_lowercase c = true)
        (list_ascii_of_string password) /\
      Exists (fun c => char_in string_ascii_uppercase c = true)
        (list_ascii_of_string password) /\
      Exists (fun c => char_in string_digits c = true)
        (list_ascii_of_string password) /\
      Exists (fun c => char_in symbols c = true)
        (list_ascii_of_string password).
Proof.
  intros o a w len Hlen Hfour Hlower Hupper Hnumbers Hsymbols.
  destruct (generate_all_classes o len w Hfour)
    as (pl & Hgen & Hsize & Hall & Hl & Hu & Hd & Hs).
  exists (string_of_list_ascii pl).
  rewrite list_ascii_of_string_of_list_ascii, length_string_of_list_ascii.
  split; [|split; [lia | tauto]].
  rewrite dispatch_generate. unfold call_generate_password.
  rewrite Hlen, Hlower, Hupper, Hnumbers, Hsymbols. cbv zeta.
  lazymatch goal with
  | |- context [generate o len true true true true ?chars] =>
      change chars with all_classes
  end.
  change (negb (truthy all_classes)) with false. cbv iota.
  unfold bind. rewrite Hgen. unfold ret, mark. do 3 f_equal.
  rewrite !append_assoc. reflexivity.
Qed.

End GenerateClaim.

Lemma generate_password_length_and_classes_witness :
  exists password,
    first_text
      (match fst (PasswordServer.handle_call_tool (crypto := toy_crypto) demo_oracle
                    "generate_password" (str_arguments []) demo_world) with
       | Ok contents => contents
       | Raise _ => []
       end)
      = "🔐 Generated secure password: " ++ password ++ nl ++ nl
          ++ "📏 Length: 16 characters" ++ nl
          ++ "🔤 Lowercase: ✅" ++ nl
          ++ "🔠 Uppercase: ✅" ++ nl
          ++ "🔢 Numbers: ✅" ++ nl
          ++ "🎭 Symbols: ✅" ++ nl
          ++ nl ++ "💡 Tip: Use 'save_password' to store this securely!" /\
    String.length password = 16 /\
    Exists (fun c => char_in PasswordServer.string_digits c = true)
      (list_ascii_of_string password).
Proof.
  destruct (@generate_password_length_and_classes toy_crypto demo_oracle
              (str_arguments []) demo_world 16%Z)
    as (password & Hcall & Hlen & _ & _ & _ & Hdigit & _);
    try reflexivity; try lia.
  exists password. rewrite Hcall. split; [reflexivity|].
  split; [lia | exact Hdigit].
Defined.

(** ** The server manager *)

Module ConnectorFacts.
Import PyDict PyDictFacts Connectors.

Section Dicts.
Context {V : Type}.
Implicit Types (d : dict V) (k : string) (v : V).

Lemma mem_set_eq d k v : mem (set d k v) k = true.
Proof. unfold mem. now rewrite get_set_eq. Qed.

Lemma mem_set_other d k k' v : mem d k' = true -> mem (set d k v) k' = true.
Proof.
  intros H. destruct (String.eqb_spec k' k) as [->|Hne].
  - apply mem_set_eq.
  - unfold mem in *. now rewrite get_set_ne.
Qed.

Lemma mem_del_other d k k' : k' <> k -> mem (del d k) k' = mem d k'.
Proof. intros Hne. unfold mem. now rewrite get_del_ne. Qed.

Lemma get_In d k v : get d k = Some v -> In (k, v) d.
Proof.
  induction d as [|[k' v'] rest IH]; simpl; [discriminate|].
  destruct (String.eqb_spec k k') as [->|Hne].
  - intros [= ->]. now left.
  - intros H. right. auto.
Qed.

Lemma keys_filter_incl (f : string * V -> bool) d x :
  In x (keys (filter f d)) -> In x (keys d).
Proof.
  unfold keys. rewrite !in_map_iff. intros (item & <- & Hin).
  apply filter_In in Hin. exists item. tauto.
Qed.

Lemma wf_filter (f : string * V -> bool) d : wf d -> wf (filter f d).
Proof.
  unfold wf. induction d as [|[k v] rest IH]; simpl; intros Hwf.
  - constructor.
  - inversion Hwf as [|? ? Hnotin Hrest]; subst.
    destruct (f (k, v)); simpl; auto. constructor; auto.
    intros Hin. apply Hnotin. eapply keys_filter_incl; eassumption.
Qed.

Lemma get_filter (f : string * V -> bool) d k :
  wf d ->
  get (filter f d) k =
    match get d k with
    | Some v => if f (k, v) then Some v else None
    | None => None
    end.
Proof.
  unfold wf. induction d as [|[k' v'] rest IH]; simpl; intros Hwf.
  - reflexivity.
  - inversion Hwf as [|? ? Hnotin Hrest]; subst.
    destruct (String.eqb_spec k k') as [->|Hne].
    + destruct (f (k', v')) eqn:Hf; simpl.
      * now rewrite String.eqb_refl.
      * apply get_None_keys. intros Hin. apply Hnotin.
        eapply keys_filter_incl; eassumption.
    + destruct (f (k', v')); simpl; auto.
      apply String.eqb_neq in Hne. rewrite Hne. auto.
Qed.

End Dicts.

Lemma get_map_values {V W : Type} (g : V -> W) (d : dict V) k :
  get (map (fun item => (fst item, g (snd item))) d) k = option_map g (get d k).
Proof.
  induction d as [|[k' v'] rest IH]; simpl; [reflexivity|].
  destruct (k =? k'); auto.
Qed.

Lemma keys_map_values {V W : Type} (g : V -> W) (d : dict V) :
  keys (map (fun item => (fst item, g (snd item))) d) = keys d.
Proof. unfold keys. rewrite map_map. reflexivity. Qed.

(** The loop of [create_client_from_selection] stores one item per enabled
    server, in the order of the dict. *)
Lemma build_config_fold (items : dict MCPServerConfig) (acc : Config) :
  mcpServers
    (fold_left
       (fun config item =>
          {| mcpServers :=
               set (mcpServers config) (fst item) (params_of (snd item)) |})
       items acc) =
  fold_left (fun d kv => set d (fst kv) (snd kv))
    (map (fun item => (fst item, params_of (snd item))) items) (mcpServers acc).
Proof.
  revert acc. induction items as [|[k v] rest IH]; intros acc; simpl.
  - reflexivity.
  - now rewrite IH.
Qed.

Lemma build_config_wf (d : dict MCPServerConfig) :
  wf d ->
  mcpServers (build_config d) = map (fun item => (fst item, params_of (snd item))) d.
Proof.
  intros Hwf. unfold build_config. rewrite build_config_fold.
  apply (of_items_wf (map (fun item => (fst item, params_of (snd item))) d)).
  unfold wf. now rewrite keys_map_values.
Qed.

Lemma get_enabled_servers_wf self :
  wf (servers self) ->
  get_enabled_servers self = filter (fun item => enabled (snd item)) (servers self).
Proof.
  intros Hwf. unfold get_enabled_servers. apply of_items_wf. now apply wf_filter.
Qed.

(** *** Every method keeps the invariant *)

Lemma manager_ok_set self k config :
  manager_ok self ->
  manager_ok {| servers := set (servers self) k config |}.
Proof.
  intros [Hwf Hfs]. split; simpl; [now apply wf_set | now apply mem_set_other].
Qed.

Lemma manager_ok_init current_dir : manager_ok (__init__ current_dir).
Proof.
  split; simpl.
  - repeat constructor. simpl. tauto.
  - reflexivity.
Qed.

Lemma manager_ok_selections selections self :
  manager_ok self -> manager_ok (set_server_selections self selections).
Proof.
  unfold set_server_selections. revert self.
  induction selections as [|[k b] rest IH]; intros self Hok; simpl.
  - exact Hok.
  - apply IH. destruct (get (servers self) k); [now apply manager_ok_set | exact Hok].
Qed.

Lemma manager_ok_create self :
  manager_ok self -> manager_ok (snd (create_client_from_selection self)).
Proof.
  intros Hok. unfold create_client_from_selection.
  destruct (get_enabled_servers self); [|exact Hok].
  assert (Hen : manager_ok (snd (enable_server self "filesystem"))).
  { unfold enable_server. destruct (get (servers self) "filesystem");
      [now apply manager_ok_set | exact Hok]. }
  destruct (get (servers (snd (enable_server self "filesystem"))) "filesystem");
    exact Hen.
Qed.

Lemma manager_ok_step self op : manager_ok self -> manager_ok (step self op).
Proof.
  intros Hok. destruct op; simpl; try exact Hok.
  - unfold enable_server. destruct (get (servers self) server_name);
      [now apply manager_ok_set | exact Hok].
  - unfold disable_server. destruct (get (servers self) server_name);
      [now apply manager_ok_set | exact Hok].
  - unfold toggle_server. destruct (get (servers self) server_name);
      [now apply manager_ok_set | exact Hok].
  - now apply manager_ok_selections.
  - unfold add_custom_server. destruct (mem (servers self) name');
      [exact Hok | now apply manager_ok_set].
  - unfold remove_server.
    destruct (String.eqb_spec server_name "filesystem") as [->|Hne]; [exact Hok|].
    destruct (mem (servers self) server_name); [|exact Hok].
    destruct Hok as [Hwf Hfs]. split; simpl; [now apply wf_del|].
    rewrite mem_del_other; [exact Hfs | congruence].
  - unfold update_filesystem_directories.
    destruct (get (servers self) "filesystem"); [now apply manager_ok_set | exact Hok].
  - now apply manager_ok_create.
Qed.

Lemma manager_ok_run ops self : manager_ok self -> manager_ok (run self ops).
Proof.
  unfold run. revert self. induction ops as [|op rest IH]; intros self Hok; simpl.
  - exact Hok.
  - apply IH. now apply manager_ok_step.
Qed.

End ConnectorFacts.

(** * The claims about the server manager *)

Section ManagerClaims.
Import PyDict PyDictFacts Connectors ConnectorFacts.

(** C5. The subprocess configuration is passed through exactly. When at
    least one server of the manager is enabled, [create_client_from_selection]
    leaves the manager as it is and makes the client from a configuration
    whose [mcpServers] has, for every enabled server, one item under the
    server's name with the command, args and env stored for it, and nothing
    under the name of a disabled or unknown server; its items are those of the
    enabled servers, in the order of the manager. *)
Theorem create_client_passes_configuration :
  forall self,
    wf (servers self) ->
    (exists server_name config,
        get (servers self) server_name = Some config /\ enabled config = true) ->
    exists config,
      create_client_from_selection self = (Ok (from_dict config), self) /\
      wf (mcpServers config) /\
      keys (mcpServers config) =
        keys (filter (fun item => enabled (snd item)) (servers self)) /\
      (forall server_name,
         get (mcpServers config) server_name =
           match get (servers self) server_name with
           | Some server_config =>
               if enabled server_config then
                 Some {| params_command := command server_config;
                         params_args := args server_config;
                         params_env := env server_config |}
               else None
           | None => None
           end) /\
      (forall server_name,
         count_occ string_dec (keys (mcpServers config)) server_name =
           match get (servers self) server_name with
           | Some server_config => if enabled server_config then 1 else 0
           | None => 0
           end).
Proof.
  intros self Hwf (n & c & Hget & Hen).
  pose proof (wf_filter (fun item => enabled (snd item)) _ Hwf) as Hwff.
  assert (Hlookup : forall server_name,
    get (map (fun item => (fst item, params_of (snd item)))
           (filter (fun item : string * MCPServerConfig => enabled (snd item))
              (servers self))) server_name =
    match get (servers self) server_name with
    | Some server_config =>
        if enabled server_config then Some (params_of server_config) else None
    | None => None
    end).
  { intros m. rewrite get_map_values, get_filter by exact Hwf.
    destruct (get (servers self) m) as [sc|]; [|reflexivity].
    cbn [snd]. now destruct (enabled sc). }
  assert (Hwfc : wf (map (fun item => (fst item, params_of (snd item)))
           (filter (fun item : string * MCPServerConfig => enabled (snd item))
              (servers self)))).
  { unfold wf. now rewrite keys_map_values. }
  unfold create_client_from_selection.
  rewrite (get_enabled_servers_wf self Hwf).
  destruct (filter (fun item => enabled (snd item)) (servers self))
    as [|item rest] eqn:Hfilter.
  - exfalso. apply get_In in Hget.
    assert (Hin : In (n, c) (filter (fun item => enabled (snd item)) (servers self)))
      by (apply filter_In; split; [exact Hget | exact Hen]).
    rewrite Hfilter in Hin. contradiction.
  - rewrite <- Hfilter in *. eexists. split; [reflexivity|].
    rewrite (build_config_wf _ Hwff).
    split; [exact Hwfc|]. split; [apply keys_map_values|].
    split; [exact Hlookup|].
    intros m. rewrite (count_key _ m Hwfc). unfold mem. rewrite Hlookup.
    destruct (get (servers self) m) as [sc|]; [|reflexivity].
    now destruct (enabled sc).
Qed.

(** C8. The ["filesystem"] server is permanent and a client always has a
    server. After construction and after any sequence of method calls the
    manager's [servers] has the key ["filesystem"]; [remove_server] on that
    name returns [False] and leaves the manager as it is; and
    [create_client_from_selection] returns a client whose [mcpServers] is not
    empty: when no server is enabled it enables ["filesystem"] and the client
    has that server alone. *)
Theorem filesystem_is_permanent :
  forall current_dir ops,
    let self := run (__init__ current_dir) ops in
    mem (servers self) "filesystem" = true /\
    remove_server self "filesystem" = (false, self) /\
    exists config self',
      create_client_from_selection self = (Ok (from_dict config), self') /\
      mcpServers config <> [] /\
      mem (servers self') "filesystem" = true /\
      (get_enabled_servers self <> [] -> self' = self) /\
      (get_enabled_servers self = [] ->
       self' = snd (enable_server self "filesystem") /\
       exists server_config,
         get (servers self') "filesystem" = Some server_config /\
         enabled server_config = true /\
         mcpServers config = [("filesystem", params_of server_config)]).
Proof.
  intros current_dir ops self.
  assert (Hok : manager_ok self)
    by (apply manager_ok_run, manager_ok_init).
  destruct Hok as [Hwf Hfs].
  split; [exact Hfs|]. split; [reflexivity|].
  unfold create_client_from_selection.
  destruct (get_enabled_servers self) as [|item rest] eqn:Hen.
  - apply mem_true_get in Hfs. destruct Hfs as [c Hc].
    unfold enable_server. rewrite Hc. cbn [snd servers].
    rewrite get_set_eq. eexists _, _. split; [reflexivity|].
    split; [discriminate|]. split; [apply mem_set_eq|].
    split; [intros H; now contradiction H|]. intros _. split; [reflexivity|].
    exists (with_enabled c true). cbn [servers]. rewrite get_set_eq.
    repeat split.
  - eexists _, _. split; [reflexivity|].
    split.
    { rewrite <- Hen. rewrite (get_enabled_servers_wf self Hwf) in *.
      rewrite build_config_wf by (now apply wf_filter).
      rewrite Hen. discriminate. }
    split; [exact Hfs|]. split; [reflexivity | discriminate].
Qed.

End ManagerClaims.

Lemma create_client_passes_configuration_witness :
  exists config,
    Connectors.create_client_from_selection (Connectors.__init__ "/srv/demo")
      = (Ok (Connectors.from_dict config), Connectors.__init__ "/srv/demo") /\
    PyDict.get (Connectors.mcpServers config) "filesystem" =
      Some {| Connectors.params_command := "npx";
              Connectors.params_args :=
                ["-y"; "@modelcontextprotocol/server-filesystem"; "/srv/demo"];
              Connectors.params_env := [] |} /\
    PyDict.get (Connectors.mcpServers config) "password_manager" = None.
Proof.
  destruct (create_client_passes_configuration (Connectors.__init__ "/srv/demo"))
    as (config & Hcall & _ & _ & Hget & _).
  - repeat constructor. simpl. tauto.
  - eexists "filesystem", _. split; reflexivity.
  - exists config. split; [exact Hcall|]. split; rewrite Hget; reflexivity.
Defined.

(** * Further properties of the password server *)

(** ** Framing the handlers *)

Module FrameFacts.
Import PyDict PyDictFacts PasswordServer StoreFacts KeyFacts ToolFacts.

Section Rules.
Context (R : world -> world -> Prop).
Hypothesis R_refl : forall w, R w w.
Hypothesis R_trans : forall w1 w2 w3, R w1 w2 -> R w2 w3 -> R w1 w3.

Lemma frames_ret {A} (a : A) : frames R (ret a).
Proof. intros w r w' [= _ <-]. apply R_refl. Qed.

Lemma frames_raise {A} (e : exn) : frames R (@raise A e).
Proof. intros w r w' [= _ <-]. apply R_refl. Qed.

Lemma frames_bind {A B} (m : M A) (k : A -> M B) :
  frames R m -> (forall a, frames R (k a)) -> frames R (bind m k).
Proof.
  intros Hm Hk w r w'. unfold bind.
  destruct (m w) as [[a|e] w1] eqn:Hrun.
  - intros Hrest. eapply R_trans; [eapply Hm | eapply Hk]; eassumption.
  - intros [= _ <-]. eapply Hm; eassumption.
Qed.

Lemma frames_try {A} (body : M A) (handler : exn -> M A) :
  frames R body -> (forall e, frames R (handler e)) -> frames R (try_except body handler).
Proof.
  intros Hm Hk w r w'. unfold try_except.
  destruct (body w) as [[a|e] w1] eqn:Hrun.
  - intros [= _ <-]. eapply Hm; eassumption.
  - intros Hrest. eapply R_trans; [eapply Hm | eapply Hk]; eassumption.
Qed.

Lemma frames_subscript {V} (d : dict V) k : frames R (subscript d k).
Proof. unfold subscript. destruct (get d k); [apply frames_ret | apply frames_raise]. Qed.

Lemma frames_setitem {A} (l : list A) i x : frames R (setitem l i x).
Proof.
  unfold setitem. cbv zeta.
  match goal with |- frames _ (if ?b then _ else _) => destruct b end;
    [apply frames_ret | apply frames_raise].
Qed.

Lemma frames_load_passwords : frames R load_passwords.
Proof.
  intros w r w' Hload. rewrite (load_passwords_reads _ _ _ Hload). apply R_refl.
Qed.

End Rules.

(** One step of a framing proof: split a composite computation. *)
Ltac frame_step Hrefl Htrans :=
  first
    [ apply (frames_ret _ Hrefl)
    | apply (frames_raise _ Hrefl)
    | apply (frames_subscript _ Hrefl)
    | apply (frames_setitem _ Hrefl)
    | apply (frames_load_passwords _ Hrefl)
    | assumption
    | match goal with H : forall _, frames _ _ |- _ => apply H end
    | apply (frames_bind _ Htrans); [|intros ?]
    | apply (frames_try _ Htrans); [|intros ?]
    | match goal with
      | |- frames _ (if ?b then _ else _) => destruct b
      | |- frames _ (match ?x with _ => _ end) => destruct x
      end ].

Ltac frame Hrefl Htrans := repeat frame_step Hrefl Htrans.

Section Handlers.
Context {crypto : Cryptography}.
Context (R : world -> world -> Prop).
Hypothesis R_refl : forall w, R w w.
Hypothesis R_trans : forall w1 w2 w3, R w1 w2 -> R w2 w3 -> R w1 w3.

Section WithKey.
Context (o : oracle).
Hypothesis R_key : frames R (get_or_create_key o).

Lemma frames_encrypt_password password : frames R (encrypt_password o password).
Proof. unfold encrypt_password, Fernet. frame R_refl R_trans. Qed.

Lemma frames_decrypt_password c : frames R (decrypt_password o c).
Proof. unfold decrypt_password, Fernet. frame R_refl R_trans. Qed.

Lemma frames_call_get_password a : frames R (call_get_password o a).
Proof.
  pose proof frames_decrypt_password.
  unfold call_get_password. frame R_refl R_trans.
Qed.

Lemma frames_list_loop show_details items :
  forall result, frames R (list_loop show_details result items).
Proof.
  induction items as [|item rest IH]; intros result; simpl.
  - apply (frames_ret _ R_refl).
  - apply (frames_bind _ R_trans); [|intros ?; apply IH].
    unfold list_one. destruct item. frame R_refl R_trans.
Qed.

Lemma frames_call_list_passwords a : frames R (call_list_passwords a).
Proof.
  pose proof frames_list_loop.
  unfold call_list_passwords.
  apply (frames_bind _ R_trans); [apply (frames_load_passwords _ R_refl)|].
  intros [|item rest]; [apply (frames_ret _ R_refl)|].
  apply (frames_bind _ R_trans); [apply frames_list_loop|].
  intros ?. apply (frames_ret _ R_refl).
Qed.

Lemma frames_call_generate_password a : frames R (call_generate_password o a).
Proof.
  unfold call_generate_password. cbv zeta.
  match goal with |- frames _ (if ?b then _ else _) => destruct b end;
    [apply (frames_ret _ R_refl)|].
  apply (frames_bind _ R_trans); [|intros ?; apply (frames_ret _ R_refl)].
  unfold generate. cbv zeta.
  match goal with |- frames _ (if ?b then _ else _) => destruct b end;
    [|apply (frames_ret _ R_refl)].
  unfold place_one.
  repeat (apply (frames_bind _ R_trans);
          [repeat match goal with
                  | |- frames _ (let '(_, _) := ?x in _) => destruct x
                  end;
           frame R_refl R_trans
          |intros ?]).
  repeat match goal with
         | |- frames _ (let '(_, _) := ?x in _) => destruct x
         end.
  apply (frames_ret _ R_refl).
Qed.

Section WithSave.
Hypothesis R_save : forall st, frames R (save_passwords st).

Lemma frames_call_save_password a : frames R (call_save_password o a).
Proof.
  pose proof frames_encrypt_password.
  unfold call_save_password. frame R_refl R_trans.
Qed.

Lemma frames_call_delete_password a : frames R (call_delete_password a).
Proof. unfold call_delete_password. frame R_refl R_trans. Qed.

Lemma frames_call_update_password a : frames R (call_update_password o a).
Proof.
  pose proof frames_encrypt_password.
  unfold call_update_password. frame R_refl R_trans.
Qed.

Lemma frames_handle_call_tool name a : frames R (handle_call_tool o name a).
Proof.
  unfold handle_call_tool.
  repeat match goal with |- frames _ (if ?b then _ else _) => destruct b end.
  - apply frames_call_generate_password.
  - apply frames_call_save_password.
  - apply frames_call_get_password.
  - apply frames_call_list_passwords.
  - apply frames_call_delete_password.
  - apply frames_call_update_password.
  - apply (frames_ret _ R_refl).
Qed.

End WithSave.
End WithKey.
End Handlers.

(** The three relations are preorders, and the primitives respect them. *)

Section Relations.
Context {crypto : Cryptography}.

Lemma key_kept_refl o w : key_kept o w w.
Proof. now left. Qed.

Lemma key_kept_trans o w1 w2 w3 :
  key_kept o w1 w2 -> key_kept o w2 w3 -> key_kept o w1 w3.
Proof.
  unfold key_kept. intros [H12|[H1 H2]] [H23|[H2' H3]].
  - left. congruence.
  - right. split; congruence.
  - right. split; congruence.
  - congruence.
Qed.

Lemma key_kept_get_or_create_key o : frames (key_kept o) (get_or_create_key o).
Proof.
  intros w r w' Hcall.
  destruct (get_or_create_key_spec o w)
    as (key & w1 & Hcall1 & Hfile & _ & Hnew & Hsame).
  rewrite Hcall in Hcall1. injection Hcall1 as _ Hw. subst w1.
  unfold key_kept. destruct (key_file w) as [key0|] eqn:Hbefore.
  - left. destruct (Hsame key0 eq_refl) as [_ Hw]. rewrite Hw. exact Hbefore.
  - right. split; [reflexivity|]. now rewrite Hfile, (Hnew eq_refl).
Qed.

Lemma key_kept_save_passwords o st : frames (key_kept o) (save_passwords st).
Proof. intros w r w' [= _ <-]. now left. Qed.

Lemma storage_kept_refl w : storage_kept w w.
Proof. reflexivity. Qed.

Lemma storage_kept_trans w1 w2 w3 :
  storage_kept w1 w2 -> storage_kept w2 w3 -> storage_kept w1 w3.
Proof. unfold storage_kept. congruence. Qed.

Lemma storage_kept_get_or_create_key o : frames storage_kept (get_or_create_key o).
Proof.
  intros w r w' Hcall.
  destruct (get_or_create_key_spec o w) as (key & w1 & Hcall1 & _ & Hst & _).
  rewrite Hcall in Hcall1. injection Hcall1 as _ Hw. subst w1. exact Hst.
Qed.

Lemma unchanged_refl w : unchanged w w.
Proof. reflexivity. Qed.

Lemma unchanged_trans w1 w2 w3 : unchanged w1 w2 -> unchanged w2 w3 -> unchanged w1 w3.
Proof. unfold unchanged. congruence. Qed.

End Relations.
End FrameFacts.

Section FrameProperties.
Import PyDict PasswordServer FrameFacts.
Context {crypto : Cryptography}.

(** X1. No tool call replaces a key: whatever the tool name and the
    arguments, the key file after the call is the one before, or there was
    none and the call has written the key generated from [os.urandom]. A key
    file that exists is therefore never rewritten. *)
Theorem key_file_never_overwritten :
  forall o name a w r w',
    handle_call_tool o name a w = (r, w') ->
    key_kept o w w' /\
    (forall key, key_file w = Some key -> key_file w' = Some key).
Proof.
  intros o name a w r w' Hcall.
  assert (Hkept : key_kept o w w').
  { eapply (frames_handle_call_tool (key_kept o) (key_kept_refl o) (key_kept_trans o) o
              (key_kept_get_or_create_key o) (key_kept_save_passwords o));
      eassumption. }
  split; [exact Hkept|].
  intros key Hkey. destruct Hkept as [Heq|[Hnone _]]; congruence.
Qed.

(** X2. Only [save_password], [delete_password] and [update_password]
    write the storage file: a call under any other tool name, with any
    arguments, leaves the storage file as it was, and apart from
    [get_password] (which may create the key file) it leaves the whole world
    as it was. *)
Theorem other_tools_do_not_write :
  forall o name a w r w',
    name <> "save_password" -> name <> "delete_password" ->
    name <> "update_password" ->
    handle_call_tool o name a w = (r, w') ->
    storage_file w' = storage_file w /\
    (name <> "get_password" -> w' = w).
Proof.
  intros o name a w r w' Hsave Hdelete Hupdate.
  unfold handle_call_tool.
  destruct (String.eqb_spec name "generate_password") as [->|_].
  { intros Hcall.
    pose proof (frames_call_generate_password unchanged unchanged_refl
                  unchanged_trans o a w r w' Hcall) as ->. tauto. }
  destruct (String.eqb_spec name "save_password") as [->|_]; [contradiction|].
  destruct (String.eqb_spec name "get_password") as [->|_].
  { intros Hcall. split; [|congruence].
    apply (frames_call_get_password storage_kept storage_kept_refl
             storage_kept_trans o (storage_kept_get_or_create_key o) a w r w' Hcall). }
  destruct (String.eqb_spec name "list_passwords") as [->|_].
  { intros Hcall.
    pose proof (frames_call_list_passwords unchanged unchanged_refl
                  unchanged_trans a w r w' Hcall) as ->. tauto. }
  destruct (String.eqb_spec name "delete_password") as [->|_]; [contradiction|].
  destruct (String.eqb_spec name "update_password") as [->|_]; [contradiction|].
  intros [= _ <-]. tauto.
Qed.

End FrameProperties.

(** ** Errors and edges of the store tools *)

Section EdgeProperties.
Import PyDict PyDictFacts PasswordServer StoreFacts KeyFacts ToolFacts.
Context {crypto : Cryptography}.

(** X3. The first run. With no key file, [encrypt_password] generates the
    key from [os.urandom], writes it to the key file and encrypts under it,
    leaving the storage file alone; [decrypt_password] called next finds that
    key and returns the password. *)
Theorem first_run_round_trip :
  forall o1 o2 w p,
    key_file w = None ->
    exists w1,
      encrypt_password o1 p w =
        (Ok (ciphertext (fernet_generate_key (urandom o1)) o1 p), w1) /\
      key_file w1 = Some (fernet_generate_key (urandom o1)) /\
      storage_file w1 = storage_file w /\
      (c <- encrypt_password o1 p ;; decrypt_password o2 c) w = (Ok p, w1).
Proof.
  intros o1 o2 w p Hnone.
  destruct (encrypt_password_usable o1 w p) as (c & w1 & Henc).
  { unfold usable_key. now rewrite Hnone. }
  destruct (encrypt_password_inv o1 w p c w1 Henc)
    as (key & Hkey & Hok & -> & Hst & _).
  assert (key = fernet_generate_key (urandom o1)) as ->.
  { pose proof (FrameFacts.frames_encrypt_password (key_kept o1)
                  (FrameFacts.key_kept_refl o1) (FrameFacts.key_kept_trans o1) o1
                  (FrameFacts.key_kept_get_or_create_key o1) p w _ w1 Henc)
      as [Heq|[_ Hnew]]; congruence. }
  exists w1. split; [exact Henc|]. split; [exact Hkey|]. split; [exact Hst|].
  unfold bind. rewrite Henc. now apply decrypt_password_ciphertext.
Qed.

(** X4. When the store loads, [save_password] succeeds exactly when the key
    is usable. For a call that carries service, username and password, made
    when [load_passwords] returns a store (the storage file is missing, is not
    JSON, or is the JSON of a store), the result reports success if and only
    if [Fernet] accepts the key file's contents or there is no key file yet.
    With a key file that [Fernet] rejects the call returns the failure text
    with the library's message and writes nothing. When the storage file is
    not UTF-8 the call ends with the [UnicodeDecodeError] of the read,
    whatever the key, and writes nothing. *)
Theorem save_password_succeeds_iff_usable_key :
  forall o w a s u p r w1,
    get (str_items a) "service" = Some s ->
    get (str_items a) "username" = Some u ->
    get (str_items a) "password" = Some p ->
    handle_call_tool o "save_password" a w = (r, w1) ->
    (forall st,
       load_passwords w = (Ok st, w) ->
       (reports saved_marker r = true <-> usable_key w = true) /\
       (usable_key w = false ->
        r = Ok (text_content ("❌ Failed to save password: " ++ fernet_key_error)) /\
        w1 = w)) /\
    (forall msg,
       storage_file w = Some (NotUtf8 msg) ->
       r = Raise (UnicodeDecodeError msg) /\ w1 = w).
Proof.
  intros o w a s u p r w1 Hs Hu Hp Hcall. rewrite dispatch_save in Hcall.
  unfold call_save_password, bind, subscript in Hcall.
  rewrite Hs, Hu, Hp in Hcall. unfold ret at 1 2 3 in Hcall.
  split.
  2: { intros msg Hfile.
       assert (Hload : load_passwords w = (Raise (UnicodeDecodeError msg), w)).
       { unfold load_passwords, bind, get_world, ret, raise. now rewrite Hfile. }
       rewrite Hload in Hcall. now injection Hcall as <- <-. }
  intros st0 Hload.
  rewrite Hload in Hcall. unfold try_except in Hcall.
  destruct (usable_key w) eqn:Husable.
  - destruct (encrypt_password_usable o w p Husable) as (c & w' & Henc).
    rewrite Henc in Hcall.
    unfold save_passwords, bind, get_world, put_world, ret in Hcall.
    injection Hcall as <- <-. split; [|discriminate].
    split; [reflexivity|]. intros _.
    destruct (truthy (get_default (str_items a) "url" ""));
      destruct (truthy (get_default (str_items a) "notes" "")); reflexivity.
  - unfold usable_key in Husable.
    destruct (key_file w) as [key|] eqn:Hkey; [|discriminate].
    unfold encrypt_password, bind in Hcall.
    rewrite (get_or_create_key_present o w key Hkey) in Hcall.
    unfold Fernet in Hcall. rewrite Husable in Hcall.
    unfold raise, ret in Hcall. injection Hcall as <- <-.
    split; [|intros _; split; reflexivity].
    split; [|discriminate]. simpl. discriminate.
Qed.

(** X5. A call without a required argument raises [KeyError] for the first
    missing name before it reads or writes anything: [service] for the four
    store tools, then [username] and [password] for [save_password]. *)
Theorem missing_argument_raises :
  forall o a w,
    (get (str_items a) "service" = None ->
     forall name,
       In name ["save_password"; "get_password"; "delete_password"; "update_password"] ->
       handle_call_tool o name a w = (Raise (KeyError "service"), w)) /\
    (forall s, get (str_items a) "service" = Some s ->
       get (str_items a) "username" = None ->
       handle_call_tool o "save_password" a w = (Raise (KeyError "username"), w)) /\
    (forall s u, get (str_items a) "service" = Some s ->
       get (str_items a) "username" = Some u ->
       get (str_items a) "password" = None ->
       handle_call_tool o "save_password" a w = (Raise (KeyError "password"), w)).
Proof.
  intros o a w. split; [|split].
  - intros Hs name Hin. simpl in Hin.
    destruct Hin as [<-|[<-|[<-|[<-|[]]]]];
      cbn [handle_call_tool String.eqb Ascii.eqb Bool.eqb];
      unfold call_save_password, call_get_password, call_delete_password,
        call_update_password, bind, subscript; rewrite Hs; reflexivity.
  - intros s Hs Hu. rewrite dispatch_save.
    unfold call_save_password, bind, subscript. rewrite Hs, Hu. reflexivity.
  - intros s u Hs Hu Hp. rewrite dispatch_save.
    unfold call_save_password, bind, subscript. rewrite Hs, Hu, Hp. reflexivity.
Qed.

End EdgeProperties.

(** ** What [delete_password] and [update_password] do to a stored entry *)

Module WriterFacts.
Import PyDict PyDictFacts PasswordServer StoreFacts KeyFacts ToolFacts.
Section WithCrypto.
Context {crypto : Cryptography}.

Lemma call_delete_password_missing a w s st :
  get (str_items a) "service" = Some s ->
  load_passwords w = (Ok st, w) ->
  mem st s = false ->
  call_delete_password a w = (Ok (text_content (not_found_short s st)), w).
Proof.
  intros Hs Hload Hmem. unfold call_delete_password, bind, subscript.
  rewrite Hs. unfold ret at 1. rewrite Hload, Hmem. reflexivity.
Qed.

Lemma call_update_password_missing o a w s st :
  get (str_items a) "service" = Some s ->
  load_passwords w = (Ok st, w) ->
  mem st s = false ->
  call_update_password o a w = (Ok (text_content (not_found_short s st)), w).
Proof.
  intros Hs Hload Hmem. unfold call_update_password, bind, subscript.
  rewrite Hs. unfold ret at 1. rewrite Hload, Hmem. reflexivity.
Qed.

(** The world after deleting a stored service, and the result. *)
Lemma call_delete_password_found a w s st e :
  get (str_items a) "service" = Some s ->
  load_passwords w = (Ok st, w) ->
  get st s = Some e ->
  exists r,
    call_delete_password a w =
      (r, {| key_file := key_file w;
             storage_file := Some (JsonObject (del st s)) |}) /\
    (get e "username" = None -> r = Raise (KeyError "username")) /\
    (forall u, get e "username" = Some u -> reports deleted_marker r = true).
Proof.
  intros Hs Hload Hget. unfold call_delete_password, bind, subscript.
  rewrite Hs. unfold ret at 1. rewrite Hload.
  unfold mem. rewrite Hget. cbn [negb]. unfold ret at 1.
  unfold save_passwords, bind, get_world, put_world.
  destruct (get e "username") as [u|]; unfold ret, raise; eexists;
    (split; [reflexivity|]); split; try discriminate; try reflexivity.
Qed.

(** Either the update is stored, or [Fernet] has rejected the key and
    nothing is written. *)
Lemma call_update_password_found o a w s st e0 r w1 :
  get (str_items a) "service" = Some s ->
  load_passwords w = (Ok st, w) ->
  get st s = Some e0 ->
  call_update_password o a w = (r, w1) ->
  (reports updated_marker r = true /\
   exists c,
     storage_file w1 =
       Some (JsonObject (set st s (updated_entry a c (now o) e0))) /\
     (forall pw, get (str_items a) "password" = Some pw -> truthy pw = true ->
        exists key,
          key_file w1 = Some key /\ fernet_key_ok key = true /\
          c = ciphertext key o pw)) \/
  (r = Ok (text_content ("❌ Failed to update password entry: " ++ fernet_key_error)) /\
   w1 = w /\ given_nonempty a "password" = true /\ usable_key w = false).
Proof.
  intros Hs Hload Hget Hcall.
  unfold call_update_password, bind, subscript, mem in Hcall.
  unfold updated_entry, given_nonempty in *.
  rewrite Hs in Hcall. unfold ret at 1 in Hcall. rewrite Hload in Hcall.
  rewrite Hget in Hcall. cbn [negb] in Hcall. unfold ret at 1 in Hcall.
  unfold try_except in Hcall. unfold get_default.
  destruct (get (str_items a) "username") as [un|] eqn:Hun;
    [destruct (truthy un) eqn:Tun|];
    (destruct (get (str_items a) "password") as [pw|] eqn:Hpw;
     [destruct (truthy pw) eqn:Tpw|]);
    (destruct (get (str_items a) "url") as [url|] eqn:Hurl);
    (destruct (get (str_items a) "notes") as [notes|] eqn:Hnotes);
    unfold save_passwords, bind, get_world, put_world, ret, raise in Hcall;
    cbv beta iota zeta in Hcall;
    try (destruct (usable_key w) eqn:Husable;
         [ destruct (encrypt_password_usable o w pw Husable) as (c & w' & Henc);
           rewrite Henc in Hcall;
           destruct (encrypt_password_inv o w pw c w' Henc)
             as (key & Hkey & Hok & Hc & _)
         | unfold usable_key in Husable;
           destruct (key_file w) as [key|] eqn:Hkey; [|discriminate Husable];
           unfold encrypt_password, bind in Hcall;
           rewrite (get_or_create_key_present o w key Hkey) in Hcall;
           unfold Fernet in Hcall; rewrite Husable in Hcall;
           unfold raise in Hcall ];
         cbv beta iota zeta in Hcall);
    rewrite ?get_set_eq in Hcall;
    cbv beta iota zeta in Hcall;
    injection Hcall as <- <-;
    first
      [ solve [ right; unfold usable_key; rewrite ?Hkey; auto ]
      | left; split; [vm_compute; reflexivity|];
        first
          [ exists c; split; [reflexivity|];
            intros pw' [= <-] _; exists key; cbn [key_file]; auto
          | exists ""; split; [reflexivity|];
            intros pw' Heq Htrue; first [discriminate Heq | congruence] ] ].
Qed.

Lemma wf_updated_entry a c time (e0 : entry) :
  wf e0 -> wf (updated_entry a c time e0).
Proof.
  intros Hwf. unfold updated_entry. cbv zeta.
  destruct (given_nonempty a "username"), (given_nonempty a "password"),
    (get (str_items a) "url"), (get (str_items a) "notes");
    repeat apply wf_set; exact Hwf.
Qed.

(** The members of the stored entry, one by one. *)
Lemma get_updated_entry a c time (e0 : entry) :
  get (updated_entry a c time e0) "updated_at" = Some time /\
  get (updated_entry a c time e0) "username" =
    (if given_nonempty a "username" then get (str_items a) "username"
     else get e0 "username") /\
  get (updated_entry a c time e0) "encrypted_password" =
    (if given_nonempty a "password" then Some c else get e0 "encrypted_password") /\
  get (updated_entry a c time e0) "url" =
    (match get (str_items a) "url" with
     | Some url => Some url
     | None => get e0 "url"
     end) /\
  get (updated_entry a c time e0) "notes" =
    (match get (str_items a) "notes" with
     | Some notes => Some notes
     | None => get e0 "notes"
     end) /\
  (forall k,
     ~ In k ["username"; "encrypted_password"; "url"; "notes"; "updated_at"] ->
     get (updated_entry a c time e0) k = get e0 k).
Proof.
  unfold updated_entry, given_nonempty, get_default. cbv zeta.
  destruct (get (str_items a) "username") as [un|]; [destruct (truthy un)|];
    (destruct (get (str_items a) "password") as [pw|]; [destruct (truthy pw)|]);
    destruct (get (str_items a) "url") as [url|];
    destruct (get (str_items a) "notes") as [notes|];
    (repeat split;
     [ apply get_set_eq
     | repeat (rewrite get_set_ne by discriminate); rewrite ?get_set_eq; reflexivity
     | repeat (rewrite get_set_ne by discriminate); rewrite ?get_set_eq; reflexivity
     | repeat (rewrite get_set_ne by discriminate); rewrite ?get_set_eq; reflexivity
     | repeat (rewrite get_set_ne by discriminate); rewrite ?get_set_eq; reflexivity
     | intros k Hk;
       repeat (rewrite get_set_ne by (intros ->; apply Hk; simpl; tauto));
       reflexivity ]).
Qed.

End WithCrypto.
End WriterFacts.

Lemma Contains_refl (s : string) : Contains s s.
Proof.
  exists "", "". simpl. induction s as [|c s IH]; simpl; [reflexivity | now f_equal].
Qed.

Lemma Contains_join (sep x : string) (items : list string) :
  In x items -> Contains x (join sep items).
Proof.
  unfold join. induction items as [|y rest IH]; simpl; [contradiction|].
  intros [->|Hin].
  - destruct rest; [apply Contains_refl | apply Contains_here].
  - destruct rest as [|z rest]; [contradiction|].
    do 2 apply Contains_append_l. now apply IH.
Qed.

Section WriterProperties.
Import PyDict PyDictFacts PasswordServer StoreFacts KeyFacts ToolFacts WriterFacts.
Context {crypto : Cryptography}.

(** X6. Deleting or updating a service that is not stored changes
    nothing: the call returns the "No password found" text, which names every
    stored service, and the world is as it was. *)
Theorem delete_update_missing_service :
  forall o name a w s st,
    In name ["delete_password"; "update_password"] ->
    get (str_items a) "service" = Some s ->
    load_passwords w = (Ok st, w) ->
    mem st s = false ->
    exists t,
      handle_call_tool o name a w = (Ok (text_content t), w) /\
      startswith not_found_marker t = true /\
      (forall s', mem st s' = true -> Contains s' t).
Proof.
  intros o name a w s st Hname Hs Hload Hmem.
  exists (not_found_short s st). split.
  - simpl in Hname. destruct Hname as [<-|[<-|[]]].
    + rewrite dispatch_delete. now apply call_delete_password_missing.
    + rewrite dispatch_update. now apply call_update_password_missing.
  - split.
    + unfold not_found_short, startswith, not_found_marker.
      destruct (keys st); rewrite ?append_assoc; apply prefix_append.
    + intros s' Hs'. apply mem_true_keys in Hs'. unfold not_found_short.
      destruct (keys st) as [|k rest] eqn:Hkeys; [contradiction|].
      do 2 apply Contains_append_l. now apply Contains_join.
Qed.


(** X8. A deleted service is gone for every tool. After [delete_password]
    on a stored service (also when the call ends with [KeyError]),
    [get_password], [update_password] and a second [delete_password] for that
    service answer with their not-found texts and change nothing. *)
Theorem deleted_service_is_gone :
  forall o o' a a' w s st r w1,
    get (str_items a) "service" = Some s ->
    get (str_items a') "service" = Some s ->
    load_passwords w = (Ok st, w) ->
    mem st s = true ->
    handle_call_tool o "delete_password" a w = (r, w1) ->
    handle_call_tool o' "get_password" a' w1 =
      (Ok (text_content (not_found_text s (del st s))), w1) /\
    handle_call_tool o' "update_password" a' w1 =
      (Ok (text_content (not_found_short s (del st s))), w1) /\
    handle_call_tool o' "delete_password" a' w1 =
      (Ok (text_content (not_found_short s (del st s))), w1).
Proof.
  intros o o' a a' w s st r w1 Hs Hs' Hload Hmem Hcall.
  rewrite dispatch_delete in Hcall.
  pose proof (load_passwords_wf _ _ _ Hload) as Hwf.
  destruct (proj1 (mem_true_get st s) Hmem) as [e He].
  destruct (call_delete_password_found a w s st e Hs Hload He) as (r' & Hdel & _).
  rewrite Hcall in Hdel. injection Hdel as _ ->.
  assert (Hload1 :
    load_passwords {| key_file := key_file w;
                      storage_file := Some (JsonObject (del st s)) |}
    = (Ok (del st s), {| key_file := key_file w;
                         storage_file := Some (JsonObject (del st s)) |})).
  { apply load_passwords_written; [reflexivity | now apply wf_store_del]. }
  assert (Hgone : mem (del st s) s = false).
  { apply mem_false_get. apply get_del_eq, Hwf. }
  split; [|split].
  - rewrite dispatch_get.
    destruct (call_get_password_total o' a' _ s _ Hs' Hload1)
      as (t & w' & Hget & _ & Hnone & _).
    destruct (Hnone Hgone) as [-> ->]. exact Hget.
  - rewrite dispatch_update. now apply call_update_password_missing.
  - rewrite dispatch_delete. now apply call_delete_password_missing.
Qed.

(** X9. An updated password is the one retrieved. When [update_password]
    with a non-empty username and a non-empty password reports success for a
    stored service, [get_password] for that service called next returns a
    text that contains the new password and the new username. *)
Theorem updated_password_is_retrieved :
  forall o o' a a' w s st u p r w1,
    get (str_items a) "service" = Some s ->
    get (str_items a') "service" = Some s ->
    load_passwords w = (Ok st, w) ->
    mem st s = true ->
    get (str_items a) "username" = Some u -> truthy u = true ->
    get (str_items a) "password" = Some p -> truthy p = true ->
    handle_call_tool o "update_password" a w = (r, w1) ->
    reports updated_marker r = true ->
    exists t,
      handle_call_tool o' "get_password" a' w1 = (Ok (text_content t), w1) /\
      Contains p t /\ Contains u t.
Proof.
  intros o o' a a' w s st u p r w1 Hs Hs' Hload Hmem Hu Tu Hp Tp Hcall Hrep.
  rewrite dispatch_update in Hcall. rewrite dispatch_get.
  pose proof (load_passwords_wf _ _ _ Hload) as Hwf.
  destruct (proj1 (mem_true_get st s) Hmem) as [e0 He0].
  destruct (call_update_password_found o a w s st e0 r w1 Hs Hload He0 Hcall)
    as [(_ & c & Hfile & Hkey)|(-> & _)]; [|simpl in Hrep; discriminate].
  destruct (Hkey p Hp Tp) as (key & Hkeyfile & Hok & ->).
  assert (Hload1 : load_passwords w1 =
            (Ok (set st s (updated_entry a (ciphertext key o p) (now o) e0)), w1)).
  { apply load_passwords_written; [exact Hfile|].
    apply wf_store_set; [exact Hwf|].
    apply wf_updated_entry. exact (wf_store_get st s e0 Hwf He0). }
  destruct (get_updated_entry a (ciphertext key o p) (now o) e0)
    as (_ & Huser & Hpass & _).
  assert (Gu : given_nonempty a "username" = true)
    by (unfold given_nonempty; now rewrite Hu).
  assert (Gp : given_nonempty a "password" = true)
    by (unfold given_nonempty; now rewrite Hp).
  rewrite Gu, Hu in Huser. rewrite Gp in Hpass.
  edestruct (call_get_password_found o' a' w1 s) as [rest Hget];
    [exact Hs' | exact Hload1 | apply get_set_eq | exact Hpass | exact Huser
    | apply (decrypt_password_ciphertext o o' w1 key p Hkeyfile Hok) |].
  eexists. split; [exact Hget|]. split.
  - do 9 apply Contains_append_l. apply Contains_here.
  - do 6 apply Contains_append_l. apply Contains_here.
Qed.

(** X10. [update_password] changes one entry and only the members it is
    given. After an update that reports success the services are the same, in
    the same order; every other service has its entry; and in the entry of the
    updated service [updated_at] is the clock reading, a member the call does
    not carry ([username], [password], [url], [notes]) is as before, a given
    [url] or [notes] is stored as given, and every other member, [created_at]
    among them, is as before. *)
Theorem update_password_changes_what_is_given :
  forall o a w s st e0 r w1,
    get (str_items a) "service" = Some s ->
    load_passwords w = (Ok st, w) ->
    get st s = Some e0 ->
    handle_call_tool o "update_password" a w = (r, w1) ->
    reports updated_marker r = true ->
    exists st1 e1,
      load_passwords w1 = (Ok st1, w1) /\
      keys st1 = keys st /\
      (forall s', s' <> s -> get st1 s' = get st s') /\
      get st1 s = Some e1 /\
      get e1 "updated_at" = Some (now o) /\
      (get (str_items a) "username" = None ->
       get e1 "username" = get e0 "username") /\
      (get (str_items a) "password" = None ->
       get e1 "encrypted_password" = get e0 "encrypted_password") /\
      (forall url, get (str_items a) "url" = Some url -> get e1 "url" = Some url) /\
      (get (str_items a) "url" = None -> get e1 "url" = get e0 "url") /\
      (forall notes, get (str_items a) "notes" = Some notes ->
                     get e1 "notes" = Some notes) /\
      (get (str_items a) "notes" = None -> get e1 "notes" = get e0 "notes") /\
      (forall k,
         ~ In k ["username"; "encrypted_password"; "url"; "notes"; "updated_at"] ->
         get e1 k = get e0 k).
Proof.
  intros o a w s st e0 r w1 Hs Hload He0 Hcall Hrep.
  rewrite dispatch_update in Hcall.
  pose proof (load_passwords_wf _ _ _ Hload) as Hwf.
  destruct (call_update_password_found o a w s st e0 r w1 Hs Hload He0 Hcall)
    as [(_ & c & Hfile & _)|(-> & _)]; [|simpl in Hrep; discriminate].
  destruct (get_updated_entry a c (now o) e0)
    as (Htime & Huser & Hpass & Hurl & Hnotes & Hother).
  exists (set st s (updated_entry a c (now o) e0)), (updated_entry a c (now o) e0).
  split.
  { apply load_passwords_written; [exact Hfile|].
    apply wf_store_set; [exact Hwf|].
    apply wf_updated_entry. exact (wf_store_get st s e0 Hwf He0). }
  split.
  { rewrite keys_set. replace (mem st s) with true; [reflexivity|].
    symmetry. apply mem_true_get. eauto. }
  split; [intros s' Hne; now apply get_set_ne|].
  split; [apply get_set_eq|].
  split; [exact Htime|].
  split.
  { intros Hnone. rewrite Huser. unfold given_nonempty. now rewrite Hnone. }
  split.
  { intros Hnone. rewrite Hpass. unfold given_nonempty. now rewrite Hnone. }
  split; [intros url Hsome; now rewrite Hurl, Hsome|].
  split; [intros Hnone; now rewrite Hurl, Hnone|].
  split; [intros notes Hsome; now rewrite Hnotes, Hsome|].
  split; [intros Hnone; now rewrite Hnotes, Hnone|].
  exact Hother.
Qed.

End WriterProperties.

(** ** Listing the store *)

Module ListFacts.
Import PyDict PyDictFacts PasswordServer StoreFacts ToolFacts.

Lemma append_empty_r (s : string) : s ++ "" = s.
Proof. induction s as [|c s IH]; simpl; [reflexivity | now f_equal]. Qed.

Lemma list_one_same show_details result s (e e' : entry) :
  same_but_password e e' ->
  list_one show_details result (s, e) = list_one show_details result (s, e').
Proof.
  intros Hsame. unfold list_one, has_text, subscript, get_default.
  rewrite !(Hsame "username") by discriminate.
  rewrite !(Hsame "url") by discriminate.
  rewrite !(Hsame "notes") by discriminate.
  rewrite !(Hsame "updated_at") by discriminate.
  reflexivity.
Qed.

Lemma list_loop_same show_details (st st' : store) :
  same_but_passwords st st' ->
  forall result w,
    list_loop show_details result st w = list_loop show_details result st' w.
Proof.
  induction 1 as [|[s e] [s' e'] st st' [Hs He] Hrest IH]; intros result w.
  - reflexivity.
  - simpl in Hs. subst s'. cbn [list_loop]. unfold bind.
    rewrite (list_one_same show_details result s e e' He).
    destruct (list_one show_details result (s, e') w) as [[out|ex] w1];
      [apply IH | reflexivity].
Qed.

(** One round of the loop appends to the text, names the service and the
    username, and fails exactly on an entry without username; it does not
    look at the world. *)
Lemma list_one_spec show_details result s (e : entry) :
  match get e "username" with
  | Some u =>
      exists piece,
        (forall w, list_one show_details result (s, e) w = (Ok (result ++ piece), w)) /\
        Contains s piece /\ Contains u piece
  | None =>
      forall w, list_one show_details result (s, e) w = (Raise (KeyError "username"), w)
  end.
Proof.
  unfold list_one, bind, subscript.
  destruct (get e "username") as [u|]; [|reflexivity].
  unfold ret at 1.
  assert (Hhead : forall rest,
    Contains s ("🏷️ " ++ s ++ nl ++ "   👤 Username: " ++ u ++ nl ++ rest) /\
    Contains u ("🏷️ " ++ s ++ nl ++ "   👤 Username: " ++ u ++ nl ++ rest)).
  { intros rest. split.
    - apply Contains_append_l, Contains_here.
    - do 4 apply Contains_append_l. apply Contains_here. }
  destruct show_details.
  - destruct (has_text e "url") eqn:Hurl;
      [destruct (has_text_get e "url" Hurl) as [url ->]|];
      (destruct (has_text e "notes") eqn:Hnotes;
       [destruct (has_text_get e "notes" Hnotes) as [notes Hn]; rewrite Hn;
        unfold get_default at 1; rewrite Hn;
        destruct (100 <? py_len notes)%nat|]);
      unfold ret; eexists;
      (split;
       [intros w; do 2 f_equal; rewrite !append_assoc; reflexivity | apply Hhead]).
  - unfold ret. eexists.
    split; [intros w; do 2 f_equal; rewrite !append_assoc; reflexivity | apply Hhead].
Qed.

Lemma list_loop_spec show_details (items : store) :
  forall result,
    (Forall (fun item => get (snd item) "username" <> None) items ->
     exists listing,
       (forall w, list_loop show_details result items w = (Ok (result ++ listing), w)) /\
       forall s e, In (s, e) items ->
         Contains s listing /\
         (forall u, get e "username" = Some u -> Contains u listing)) /\
    (Exists (fun item => get (snd item) "username" = None) items ->
     forall w, list_loop show_details result items w = (Raise (KeyError "username"), w)).
Proof.
  induction items as [|[s e] rest IH]; intros result.
  - split.
    + intros _. exists "". split.
      * intros w. cbn [list_loop]. unfold ret. now rewrite append_empty_r.
      * intros s e [].
    + intros H. inversion H.
  - cbn [list_loop]. unfold bind.
    pose proof (list_one_spec show_details result s e) as Hone.
    destruct (get e "username") as [u|] eqn:Hu.
    + destruct Hone as (piece & Hrun & Hs & Hpu).
      destruct (IH (result ++ piece)) as [IHok IHraise].
      split.
      * intros Hall. inversion Hall as [|? ? _ Hrest]; subst.
        destruct (IHok Hrest) as (listing & Hloop & Hin).
        exists (piece ++ listing). split.
        { intros w. rewrite Hrun, Hloop. now rewrite append_assoc. }
        intros s' e' [[= <- <-]|Hin'].
        -- split; [now apply Contains_append_r|].
           intros u' Hu'. rewrite Hu in Hu'. injection Hu' as <-.
           now apply Contains_append_r.
        -- destruct (Hin s' e' Hin') as [H1 H2].
           split; [now apply Contains_append_l|].
           intros u' Hu'. now apply Contains_append_l, H2.
      * intros Hex w. inversion Hex as [? ? Hhere|? ? Hlater]; subst.
        -- simpl in Hhere. congruence.
        -- rewrite Hrun. now apply IHraise.
    + split.
      * intros Hall. inversion Hall as [|? ? Hhere _]; subst.
        simpl in Hhere. contradiction.
      * intros _ w. now rewrite Hone.
Qed.

(** The loop returns the same result in every world and leaves it alone. *)
Lemma list_loop_pure show_details (items : store) :
  forall result, exists r, forall w, list_loop show_details result items w = (r, w).
Proof.
  induction items as [|[s e] rest IH]; intros result.
  - eexists. intros w. reflexivity.
  - cbn [list_loop]. unfold bind.
    pose proof (list_one_spec show_details result s e) as Hone.
    destruct (get e "username") as [u|].
    + destruct Hone as (piece & Hrun & _).
      destruct (IH (result ++ piece)) as [r Hr].
      exists r. intros w. now rewrite Hrun, Hr.
    + eexists. intros w. now rewrite Hone.
Qed.

End ListFacts.

Section ListProperties.
Import PyDict PyDictFacts PasswordServer StoreFacts ToolFacts ListFacts.
Context {crypto : Cryptography}.

(** X11. [list_passwords] does not depend on the stored passwords. Two
    worlds whose stores have the same services, with entries that agree on
    every member except [encrypted_password], get the same result, and each
    world is left as it was. *)
Theorem list_passwords_hides_passwords :
  forall o a w w' st st',
    load_passwords w = (Ok st, w) ->
    load_passwords w' = (Ok st', w') ->
    same_but_passwords st st' ->
    exists r,
      handle_call_tool o "list_passwords" a w = (r, w) /\
      handle_call_tool o "list_passwords" a w' = (r, w').
Proof.
  intros o a w w' st st' Hload Hload' Hsame.
  cbn [handle_call_tool String.eqb Ascii.eqb Bool.eqb].
  unfold call_list_passwords, bind. rewrite Hload, Hload'.
  pose proof (Forall2_length Hsame) as Hlen.
  pose proof (list_loop_same (get_default (bool_items a) "show_details" true)
                st st' Hsame) as Hloop.
  destruct st as [|item rest], st' as [|item' rest']; try discriminate Hlen.
  - eexists. split; reflexivity.
  - cbn [List.length] in *. injection Hlen as Hlen. rewrite Hlen.
    match goal with
    | |- context [list_loop ?sd ?header (item :: rest) w] =>
        destruct (list_loop_pure sd (item' :: rest') header) as [r Hr];
        rewrite (Hloop header w), !Hr
    end.
    destruct r as [out|ex]; eexists; split; reflexivity.
Qed.

(** X12. [list_passwords] names every stored service. When every entry has
    a username the result is a text that contains each service name and each
    username; when some entry lacks one the call ends with
    [KeyError('username')]. In both cases nothing is written. *)
Theorem list_passwords_names_every_service :
  forall o a w st,
    load_passwords w = (Ok st, w) ->
    (Forall (fun item => get (snd item) "username" <> None) st ->
     exists t,
       handle_call_tool o "list_passwords" a w = (Ok (text_content t), w) /\
       forall s e, In (s, e) st ->
         Contains s t /\ (forall u, get e "username" = Some u -> Contains u t)) /\
    (Exists (fun item => get (snd item) "username" = None) st ->
     handle_call_tool o "list_passwords" a w = (Raise (KeyError "username"), w)).
Proof.
  intros o a w st Hload.
  cbn [handle_call_tool String.eqb Ascii.eqb Bool.eqb].
  unfold call_list_passwords, bind. rewrite Hload.
  destruct st as [|item rest].
  - split.
    + intros _. eexists. split; [reflexivity|]. intros s e [].
    + intros H. inversion H.
  - match goal with
    | |- context [list_loop ?sd ?header (item :: rest) w] =>
        destruct (list_loop_spec sd (item :: rest) header) as [Hok Hraise]
    end.
    split.
    + intros Hall. destruct (Hok Hall) as (listing & Hrun & Hin).
      rewrite Hrun. unfold ret. eexists. split; [reflexivity|].
      intros s e Hse. destruct (Hin s e Hse) as [H1 H2].
      split.
      * do 3 apply Contains_append_r. now apply Contains_append_l.
      * intros u Hu. do 3 apply Contains_append_r.
        now apply Contains_append_l, H2.
    + intros Hex. now rewrite (Hraise Hex w).
Qed.

End ListProperties.

(** ** Generated passwords, whatever the options *)

Module GenerateAnyFacts.
Import PyDict PasswordServer ShuffleFacts GenerateFacts.

Lemma place_one_skip o alphabet len (st : list ascii * Z * nat) w :
  place_one o false alphabet len st w = (Ok st, w).
Proof. destruct st as [[pl pos] c]. reflexivity. Qed.

(** A placement never fails on a list of [len] characters, keeps the length
    and keeps a property that the placed character has. *)
Lemma place_one_total (P : ascii -> Prop) o include alphabet len
    (pl : list ascii) pos c w :
  Z.of_nat (List.length pl) = len -> (0 <= pos)%Z ->
  Forall P pl ->
  (include = true -> forall k, P (secrets_choice o alphabet k)) ->
  exists pl' pos' c',
    place_one o include alphabet len (pl, pos, c) w = (Ok (pl', pos', c'), w) /\
    Z.of_nat (List.length pl') = len /\ (0 <= pos')%Z /\ Forall P pl'.
Proof.
  intros Hlen Hpos Hall Hclass.
  destruct include;
    [|rewrite place_one_skip; eexists _, _, _; split; [reflexivity | auto]].
  destruct (Z.ltb_spec pos len) as [Hlt|Hge].
  - rewrite place_one_ok by lia. eexists _, _, _. split; [reflexivity|].
    rewrite length_update. split; [exact Hlen|]. split; [lia|].
    apply Forall_update; auto.
  - unfold place_one. replace (pos <? len)%Z with false by lia.
    cbn [andb]. unfold ret. eexists _, _, _. split; [reflexivity | auto].
Qed.

(** [generate] never fails: whatever the length and the options, it returns
    as many characters as asked for, each with a property shared by the
    draws from [chars] and from the enabled classes. *)
Lemma generate_total (P : ascii -> Prop) o len sy nu up lo chars w :
  (forall k, P (secrets_choice o chars k)) ->
  (lo = true -> forall k, P (secrets_choice o string_ascii_lowercase k)) ->
  (up = true -> forall k, P (secrets_choice o string_ascii_uppercase k)) ->
  (nu = true -> forall k, P (secrets_choice o string_digits k)) ->
  (sy = true -> forall k, P (secrets_choice o symbols k)) ->
  exists pl,
    generate o len sy nu up lo chars w = (Ok (string_of_list_ascii pl), w) /\
    List.length pl = Z.to_nat len /\ Forall P pl.
Proof.
  intros Hchars Hlo Hup Hnu Hsy. unfold generate. cbv zeta.
  set (p0 := map (fun c => secrets_choice o chars c) (seq 0 (Z.to_nat len))).
  assert (Hn0 : List.length p0 = Z.to_nat len)
    by (unfold p0; now rewrite length_map, length_seq).
  assert (HP0 : Forall P p0).
  { apply Forall_forall. intros x Hin. apply in_map_iff in Hin.
    destruct Hin as (k & <- & _). apply Hchars. }
  destruct (Z.leb_spec 2 len) as [Hlen|Hlen]; [|exists p0; auto].
  assert (Hz0 : Z.of_nat (List.length p0) = len) by lia.
  unfold bind.
  destruct (place_one_total P o lo string_ascii_lowercase len p0 0
              (Z.to_nat len) w Hz0 ltac:(lia) HP0 Hlo)
    as (p1 & pos1 & c1 & -> & Hz1 & Hpos1 & HP1).
  destruct (place_one_total P o up string_ascii_uppercase len p1 pos1 c1 w
              Hz1 Hpos1 HP1 Hup)
    as (p2 & pos2 & c2 & -> & Hz2 & Hpos2 & HP2).
  destruct (place_one_total P o nu string_digits len p2 pos2 c2 w
              Hz2 Hpos2 HP2 Hnu)
    as (p3 & pos3 & c3 & -> & Hz3 & Hpos3 & HP3).
  destruct (place_one_total P o sy symbols len p3 pos3 c3 w Hz3 Hpos3 HP3 Hsy)
    as (p4 & pos4 & c4 & -> & Hz4 & Hpos4 & HP4).
  exists (shuffle o c4 p4). split; [reflexivity|].
  pose proof (Permutation_shuffle o c4 p4) as Hperm.
  split.
  - rewrite (Permutation_length Hperm). lia.
  - apply Permutation_sym in Hperm. exact (Permutation_Forall Hperm HP4).
Qed.

(** A draw from one alphabet has every property its characters have. *)
Lemma secrets_choice_forallb (f : ascii -> bool) o alphabet k :
  alphabet <> "" ->
  forallb f (list_ascii_of_string alphabet) = true ->
  f (secrets_choice o alphabet k) = true.
Proof.
  intros Hne Hall.
  pose proof (secrets_choice_in o alphabet k Hne) as Hin.
  apply char_in_In in Hin.
  exact (proj1 (forallb_forall f _) Hall _ Hin).
Qed.

(** A placement keeps what was placed below [pos] and, when it is enabled
    and there is room, places a character of its class at [pos]. *)
Lemma place_one_covers o include alphabet len (pl : list ascii) pos c w :
  Z.of_nat (List.length pl) = len -> (0 <= pos)%Z -> alphabet <> "" ->
  exists pl' pos' c',
    place_one o include alphabet len (pl, pos, c) w = (Ok (pl', pos', c'), w) /\
    Z.of_nat (List.length pl') = len /\
    (pos <= pos' <= pos + Z.b2z include)%Z /\
    (forall cls, placed pl pos cls -> placed pl' pos' cls) /\
    (include = true -> (pos < len)%Z -> placed pl' pos' alphabet).
Proof.
  intros Hlen Hpos Hne.
  destruct include.
  - destruct (Z.ltb_spec pos len) as [Hlt|Hge].
    + rewrite place_one_ok by lia. eexists _, _, _. split; [reflexivity|].
      rewrite length_update. split; [exact Hlen|]. cbn [Z.b2z].
      split; [lia|]. split.
      * intros cls (i & x & Hi & Hnth & Hx). exists i, x.
        split; [lia|]. split; [|exact Hx].
        rewrite nth_error_update_ne by lia. exact Hnth.
      * intros _ _. exists (Z.to_nat pos), (secrets_choice o alphabet c).
        split; [lia|]. split; [apply nth_error_update_eq; lia|].
        now apply secrets_choice_in.
    + unfold place_one. replace (pos <? len)%Z with false by lia.
      cbn [andb Z.b2z]. unfold ret. eexists _, _, _. split; [reflexivity|].
      split; [exact Hlen|]. split; [lia|]. split; [auto | intros _ ?; lia].
  - rewrite place_one_skip. eexists _, _, _. split; [reflexivity|].
    split; [exact Hlen|]. cbn [Z.b2z]. split; [lia|].
    split; [auto | discriminate].
Qed.

Lemma placed_Exists (pl : list ascii) pos alphabet :
  placed pl pos alphabet -> Exists (fun c => char_in alphabet c = true) pl.
Proof.
  intros (i & x & _ & Hnth & Hx). now apply (Exists_nth_error _ pl i x).
Qed.

(** With at least two characters asked for, a class is represented as soon
    as fewer classes are enabled before it than there are characters. *)
Lemma generate_covers o len sy nu up lo chars w :
  (2 <= len)%Z ->
  exists pl,
    generate o len sy nu up lo chars w = (Ok (string_of_list_ascii pl), w) /\
    (lo = true -> Exists (fun c => char_in string_ascii_lowercase c = true) pl) /\
    (up = true -> (Z.b2z lo < len)%Z ->
     Exists (fun c => char_in string_ascii_uppercase c = true) pl) /\
    (nu = true -> (Z.b2z lo + Z.b2z up < len)%Z ->
     Exists (fun c => char_in string_digits c = true) pl) /\
    (sy = true -> (Z.b2z lo + Z.b2z up + Z.b2z nu < len)%Z ->
     Exists (fun c => char_in symbols c = true) pl).
Proof.
  intros Hlen. unfold generate. cbv zeta.
  replace (2 <=? len)%Z with true by lia.
  set (p0 := map (fun c => secrets_choice o chars c) (seq 0 (Z.to_nat len))).
  assert (Hz0 : Z.of_nat (List.length p0) = len)
    by (unfold p0; rewrite length_map, length_seq; lia).
  unfold bind.
  destruct (place_one_covers o lo string_ascii_lowercase len p0 0
              (Z.to_nat len) w Hz0 ltac:(lia) ltac:(discriminate))
    as (p1 & pos1 & c1 & -> & Hz1 & Hpos1 & _ & Hnew1).
  destruct (place_one_covers o up string_ascii_uppercase len p1 pos1 c1 w
              Hz1 ltac:(lia) ltac:(discriminate))
    as (p2 & pos2 & c2 & -> & Hz2 & Hpos2 & Hkeep2 & Hnew2).
  destruct (place_one_covers o nu string_digits len p2 pos2 c2 w
              Hz2 ltac:(lia) ltac:(discriminate))
    as (p3 & pos3 & c3 & -> & Hz3 & Hpos3 & Hkeep3 & Hnew3).
  destruct (place_one_covers o sy symbols len p3 pos3 c3 w
              Hz3 ltac:(lia) ltac:(discriminate))
    as (p4 & pos4 & c4 & -> & Hz4 & Hpos4 & Hkeep4 & Hnew4).
  exists (shuffle o c4 p4). split; [reflexivity|].
  pose proof (Permutation_sym (Permutation_shuffle o c4 p4)) as Hperm.
  repeat split.
  - intros Hlo. apply (Permutation_Exists Hperm), (placed_Exists p4 pos4).
    apply Hkeep4, Hkeep3, Hkeep2, Hnew1; [exact Hlo | lia].
  - intros Hup Hroom. apply (Permutation_Exists Hperm), (placed_Exists p4 pos4).
    apply Hkeep4, Hkeep3, Hnew2; [exact Hup | lia].
  - intros Hnu Hroom. apply (Permutation_Exists Hperm), (placed_Exists p4 pos4).
    apply Hkeep4, Hnew3; [exact Hnu | lia].
  - intros Hsy Hroom. apply (Permutation_Exists Hperm), (placed_Exists p4 pos4).
    apply Hnew4; [exact Hsy | lia].
Qed.

End GenerateAnyFacts.

Section GenerateAnyProperties.
Import PyDict PasswordServer ShuffleFacts GenerateFacts GenerateAnyFacts ToolFacts.
Context {crypto : Cryptography}.

(** X13. [generate_password] answers every call and writes nothing. With no
    class enabled it returns the error text. Otherwise, for every length
    (below two and negative ones included), every choice of classes and every
    tape of random draws, it returns the result text around a password of
    exactly [max(length, 0)] characters, each of them a character of an
    enabled class and of no disabled class. *)
Theorem generate_password_any_options :
  forall o a w,
    let len := get_default (int_items a) "length" 16%Z in
    let lo := get_default (bool_items a) "include_lowercase" true in
    let up := get_default (bool_items a) "include_uppercase" true in
    let nu := get_default (bool_items a) "include_numbers" true in
    let sy := get_default (bool_items a) "include_symbols" true in
    (lo || up || nu || sy = false ->
     handle_call_tool o "generate_password" a w =
       (Ok (text_content "❌ Error: At least one character type must be included!"), w)) /\
    (lo || up || nu || sy = true ->
     exists password,
       handle_call_tool o "generate_password" a w =
         (Ok (text_content (generated_text password len lo up nu sy)), w) /\
       String.length password = Z.to_nat len /\
       Forall (fun c =>
                 char_in (charset lo up nu sy) c = true /\
                 (lo = false -> char_in string_ascii_lowercase c = false) /\
                 (up = false -> char_in string_ascii_uppercase c = false) /\
                 (nu = false -> char_in string_digits c = false) /\
                 (sy = false -> char_in symbols c = false))
         (list_ascii_of_string password)).
Proof.
  intros o a w len lo up nu sy.
  rewrite dispatch_generate. unfold call_generate_password.
  fold len lo up nu sy. cbv zeta.
  split.
  - intros Hnone.
    destruct lo, up, nu, sy; try discriminate Hnone. reflexivity.
  - intros Hsome.
    assert (Hgen : exists pl,
      generate o len sy nu up lo (charset lo up nu sy) w
        = (Ok (string_of_list_ascii pl), w) /\
      List.length pl = Z.to_nat len /\
      Forall (fun c => allowed_char lo up nu sy c = true) pl).
    { apply generate_total.
      - intros k. apply secrets_choice_forallb.
        + destruct lo, up, nu, sy; try discriminate Hsome; discriminate.
        + destruct lo, up, nu, sy; try discriminate Hsome; vm_compute; reflexivity.
      - intros -> k. apply secrets_choice_forallb; [discriminate|].
        destruct up, nu, sy; vm_compute; reflexivity.
      - intros -> k. apply secrets_choice_forallb; [discriminate|].
        destruct lo, nu, sy; vm_compute; reflexivity.
      - intros -> k. apply secrets_choice_forallb; [discriminate|].
        destruct lo, up, sy; vm_compute; reflexivity.
      - intros -> k. apply secrets_choice_forallb; [discriminate|].
        destruct lo, up, nu; vm_compute; reflexivity. }
    destruct Hgen as (pl & Hgen & Hsize & Hall).
    exists (string_of_list_ascii pl).
    rewrite list_ascii_of_string_of_list_ascii, length_string_of_list_ascii.
    split; [|split; [exact Hsize|]].
    + assert (Hchars :
        (let chars := "" in
         let chars := if lo then chars ++ string_ascii_lowercase else chars in
         let chars := if up then chars ++ string_ascii_uppercase else chars in
         let chars := if nu then chars ++ string_digits else chars in
         if sy then chars ++ symbols else chars) = charset lo up nu sy)
        by (destruct lo, up, nu, sy; reflexivity).
      cbv zeta in Hchars. rewrite Hchars.
      replace (negb (truthy (charset lo up nu sy))) with false
        by (destruct lo, up, nu, sy; try discriminate Hsome; reflexivity).
      unfold bind. rewrite Hgen. unfold ret, generated_text. do 3 f_equal.
      rewrite !append_assoc. reflexivity.
    + eapply Forall_impl; [|exact Hall]. intros c Hc. unfold allowed_char in Hc.
      repeat (apply andb_prop in Hc; destruct Hc as [Hc ?]).
      split; [exact Hc|].
      repeat split; intros ->; cbn [orb] in *;
        match goal with H : negb ?b = true |- ?b = false =>
          now apply negb_true_iff in H end.
Qed.

(** X14. [generate_password] covers the enabled classes as far as the
    length allows. With a length of at least two, whatever classes are enabled
    and whatever the random draws, the password has a lowercase letter when
    lowercase is enabled, and a character of each further enabled class
    (uppercase, digits, symbols, in that order) as long as the number of
    classes enabled before it is below the length. *)
Theorem generate_password_covers_enabled_classes :
  forall o a w,
    let len := get_default (int_items a) "length" 16%Z in
    let lo := get_default (bool_items a) "include_lowercase" true in
    let up := get_default (bool_items a) "include_uppercase" true in
    let nu := get_default (bool_items a) "include_numbers" true in
    let sy := get_default (bool_items a) "include_symbols" true in
    (2 <= len)%Z ->
    lo || up || nu || sy = true ->
    exists password,
      handle_call_tool o "generate_password" a w =
        (Ok (text_content (generated_text password len lo up nu sy)), w) /\
      (lo = true ->
       Exists (fun c => char_in string_ascii_lowercase c = true)
         (list_ascii_of_string password)) /\
      (up = true -> (Z.b2z lo < len)%Z ->
       Exists (fun c => char_in string_ascii_uppercase c = true)
         (list_ascii_of_string password)) /\
      (nu = true -> (Z.b2z lo + Z.b2z up < len)%Z ->
       Exists (fun c => char_in string_digits c = true)
         (list_ascii_of_string password)) /\
      (sy = true -> (Z.b2z lo + Z.b2z up + Z.b2z nu < len)%Z ->
       Exists (fun c => char_in symbols c = true)
         (list_ascii_of_string password)).
Proof.
  intros o a w len lo up nu sy Hlen Hsome.
  rewrite dispatch_generate. unfold call_generate_password.
  fold len lo up nu sy. cbv zeta.
  match goal with
  | |- context [generate o len sy nu up lo ?chars] =>
      destruct (generate_covers o len sy nu up lo chars w Hlen)
        as (pl & Hgen & Hcover);
      replace (negb (truthy chars)) with false
        by (destruct lo, up, nu, sy; try discriminate Hsome; reflexivity)
  end.
  exists (string_of_list_ascii pl).
  rewrite list_ascii_of_string_of_list_ascii.
  split; [|exact Hcover].
  unfold bind. rewrite Hgen. unfold ret, generated_text. do 3 f_equal.
  rewrite !append_assoc. reflexivity.
Qed.

End GenerateAnyProperties.

(** ** Sequences of requests *)

Module SessionFacts.
Import PyDict PyDictFacts PasswordServer StoreFacts KeyFacts ToolFacts WriterFacts
  ListFacts GenerateAnyFacts.
Section WithCrypto.
Context {crypto : Cryptography}.

Lemma complete_entries_same_storage w w' :
  storage_file w' = storage_file w -> complete_entries w -> complete_entries w'.
Proof.
  intros Hst (st & Hload & Hall). exists st. split; [|exact Hall].
  now apply (load_passwords_same_storage w).
Qed.

Lemma complete_entries_written w (st : store) :
  storage_file w = Some (JsonObject st) -> wf_store st ->
  Forall (fun item => keys (snd item) = entry_names) st ->
  complete_entries w.
Proof.
  intros Hfile Hwf Hall. exists st. split; [|exact Hall].
  now apply load_passwords_written.
Qed.

Lemma entry_names_username (e : entry) :
  keys e = entry_names -> get e "username" <> None.
Proof.
  intros Hkeys Hnone. apply get_None_keys in Hnone. apply Hnone.
  rewrite Hkeys. simpl. tauto.
Qed.

Lemma keys_set_present {V} (d : dict V) k v :
  In k (keys d) -> keys (set d k v) = keys d.
Proof.
  intros Hin. rewrite keys_set.
  now rewrite (proj2 (mem_true_keys d k) Hin).
Qed.

Lemma keys_set_entry_names (e : entry) k v :
  In k entry_names -> keys e = entry_names -> keys (set e k v) = entry_names.
Proof.
  intros Hin Hkeys. rewrite keys_set_present; [exact Hkeys|]. now rewrite Hkeys.
Qed.

Lemma keys_updated_entry a c time (e0 : entry) :
  keys e0 = entry_names -> keys (updated_entry a c time e0) = entry_names.
Proof.
  intros Hkeys. unfold updated_entry. cbv zeta.
  destruct (given_nonempty a "username"), (given_nonempty a "password"),
    (get (str_items a) "url"), (get (str_items a) "notes");
    repeat (apply keys_set_entry_names; [simpl; tauto|]); exact Hkeys.
Qed.

Lemma call_generate_password_returns o a w :
  exists t, call_generate_password o a w = (Ok (text_content t), w).
Proof.
  unfold call_generate_password. cbv zeta.
  match goal with |- context [if ?b then _ else _] => destruct b end.
  - eexists. reflexivity.
  - match goal with
    | |- context [generate o ?len ?sy ?nu ?up ?lo ?chars] =>
        destruct (generate_total (fun _ => True) o len sy nu up lo chars w)
          as (pl & Hgen & _); auto
    end.
    unfold bind. rewrite Hgen. eexists. reflexivity.
Qed.

(** With its three arguments, [save_password] either stores the new entry
    or returns the failure text and writes nothing. *)
Lemma call_save_password_cases o a w s u p st0 :
  get (str_items a) "service" = Some s ->
  get (str_items a) "username" = Some u ->
  get (str_items a) "password" = Some p ->
  load_passwords w = (Ok st0, w) ->
  exists t w1,
    call_save_password o a w = (Ok (text_content t), w1) /\
    (storage_file w1 = storage_file w \/
     exists c, storage_file w1 =
       Some (JsonObject
               (set st0 s
                  (new_entry u c (get_default (str_items a) "url" "")
                     (get_default (str_items a) "notes" "") (now o))))).
Proof.
  intros Hs Hu Hp Hload.
  unfold call_save_password, bind, subscript.
  rewrite Hs, Hu, Hp. unfold ret at 1 2 3. rewrite Hload. unfold try_except.
  destruct (encrypt_password o p w) as [[c|ex] w'] eqn:Henc.
  - unfold save_passwords, bind, get_world, put_world, ret.
    eexists _, _. split; [reflexivity|]. right. exists c. reflexivity.
  - unfold ret. eexists _, _. split; [reflexivity|]. left.
    exact (encrypt_password_storage o w p _ w' Henc).
Qed.

Lemma meets_required_service name a :
  In name ["save_password"; "get_password"; "delete_password"; "update_password"] ->
  meets_required name a -> exists s, get (str_items a) "service" = Some s.
Proof.
  intros Hin Hreq. apply mem_true_get.
  simpl in Hin. destruct Hin as [<-|[<-|[<-|[<-|[]]]]];
    inversion Hreq; assumption.
Qed.

(** One request on a store of complete entries: the handler returns a
    result and the entries stay complete. *)
Lemma handle_call_tool_keeps_entries o name a w r w' :
  complete_entries w -> meets_required name a ->
  handle_call_tool o name a w = (r, w') ->
  (exists contents, r = Ok contents) /\ complete_entries w'.
Proof.
  intros Hcomplete Hreq.
  pose proof Hcomplete as (st & Hload & Hall).
  pose proof (load_passwords_wf _ _ _ Hload) as Hwf.
  unfold handle_call_tool.
  destruct (String.eqb_spec name "generate_password") as [->|_].
  { destruct (call_generate_password_returns o a w) as (t & ->).
    intros [= <- <-]. eauto. }
  destruct (String.eqb_spec name "save_password") as [->|_].
  { destruct (meets_required_service "save_password" a) as [s Hs];
      [simpl; tauto | exact Hreq|].
    inversion Hreq as [|? ? _ Hreq1]; subst.
    inversion Hreq1 as [|? ? Hu Hreq2]; subst.
    inversion Hreq2 as [|? ? Hp _]; subst.
    apply mem_true_get in Hu, Hp. destruct Hu as [u Hu], Hp as [p Hp].
    destruct (call_save_password_cases o a w s u p st Hs Hu Hp Hload)
      as (t & w1 & -> & Hcases).
    intros [= <- <-]. split; [eauto|].
    destruct Hcases as [Hsame|[c Hfile]].
    - now apply (complete_entries_same_storage w).
    - eapply complete_entries_written; [exact Hfile | |].
      + apply wf_store_set; [exact Hwf | apply wf_new_entry].
      + apply (Forall_values_set (fun e => keys e = entry_names));
          [exact Hall | reflexivity]. }
  destruct (String.eqb_spec name "get_password") as [->|_].
  { destruct (meets_required_service "get_password" a) as [s Hs];
      [simpl; tauto | exact Hreq|].
    destruct (call_get_password_total o a w s st Hs Hload)
      as (t & w1 & -> & Hst & _).
    intros [= <- <-]. split; [eauto|].
    now apply (complete_entries_same_storage w). }
  destruct (String.eqb_spec name "list_passwords") as [->|_].
  { unfold call_list_passwords, bind. rewrite Hload.
    destruct st as [|item rest]; [intros [= <- <-]; eauto|].
    match goal with
    | |- context [list_loop ?sd ?header (item :: rest) w] =>
        destruct (list_loop_spec sd (item :: rest) header) as [Hok _]
    end.
    destruct Hok as (listing & Hrun & _).
    { eapply Forall_impl; [|exact Hall]. intros it. apply entry_names_username. }
    rewrite Hrun. intros [= <- <-]. eauto. }
  destruct (String.eqb_spec name "delete_password") as [->|_].
  { destruct (meets_required_service "delete_password" a) as [s Hs];
      [simpl; tauto | exact Hreq|].
    destruct (get st s) as [e|] eqn:He.
    - destruct (call_delete_password_found a w s st e Hs Hload He)
        as (r0 & -> & Hnone & Hsome).
      intros [= <- <-].
      pose proof (Forall_values_get (fun e => keys e = entry_names) st s e Hall He)
        as Hkeys.
      split.
      + destruct (get e "username") as [u|] eqn:Hu;
          [|exfalso; exact (entry_names_username e Hkeys Hu)].
        specialize (Hsome u eq_refl). destruct r0; [eauto | discriminate].
      + eapply complete_entries_written; [reflexivity | |].
        * now apply wf_store_del.
        * now apply (Forall_values_del (fun e => keys e = entry_names)).
    - rewrite (call_delete_password_missing a w s st Hs Hload)
        by (now apply mem_false_get).
      intros [= <- <-]. eauto. }
  destruct (String.eqb_spec name "update_password") as [->|_].
  { destruct (meets_required_service "update_password" a) as [s Hs];
      [simpl; tauto | exact Hreq|].
    destruct (get st s) as [e0|] eqn:He0.
    - intros Hcall.
      pose proof (Forall_values_get (fun e => keys e = entry_names) st s e0 Hall He0)
        as Hkeys.
      destruct (call_update_password_found o a w s st e0 r w' Hs Hload He0 Hcall)
        as [(Hrep & c & Hfile & _)|(-> & -> & _)].
      + split; [destruct r; [eauto | discriminate]|].
        eapply complete_entries_written; [exact Hfile | |].
        * apply wf_store_set; [exact Hwf|].
          apply wf_updated_entry. exact (wf_store_get st s e0 Hwf He0).
        * apply (Forall_values_set (fun e => keys e = entry_names));
            [exact Hall|]. now apply keys_updated_entry.
      + eauto.
    - rewrite (call_update_password_missing o a w s st Hs Hload)
        by (now apply mem_false_get).
      intros [= <- <-]. eauto. }
  intros [= <- <-]. eauto.
Qed.

End WithCrypto.
End SessionFacts.

Section SessionProperties.
Import PyDict PasswordServer SessionFacts.
Context {crypto : Cryptography}.

(** X15. The server keeps its entries complete and never raises on them.
    From a world whose stored entries all have the six members of
    [save_password] (a missing storage file among them), along any sequence of
    requests that carry the arguments their advertised schema requires, every
    handler returns a result, none ends with an exception, and the stored
    entries still have the six members at the end. *)
Theorem complete_entries_preserved :
  forall requests w,
    complete_entries w ->
    Forall (fun q => meets_required (request_name q) (request_arguments q)) requests ->
    Forall (fun r => exists contents, r = Ok contents) (fst (serve requests w)) /\
    complete_entries (snd (serve requests w)).
Proof.
  induction requests as [|q rest IH]; intros w Hcomplete Hreq.
  - split; [constructor | exact Hcomplete].
  - inversion Hreq as [|? ? Hq Hrest]; subst. cbn [serve].
    destruct (handle_call_tool (request_oracle q) (request_name q)
                (request_arguments q) w) as [r w1] eqn:Hcall.
    destruct (handle_call_tool_keeps_entries _ _ _ _ _ _ Hcomplete Hq Hcall)
      as [Hr Hcomplete1].
    destruct (IH w1 Hcomplete1 Hrest) as [Hrs Hend].
    destruct (serve rest w1) as [rs w2]. split; [constructor; assumption | exact Hend].
Qed.

End SessionProperties.

(** ** The advertised tools and the dispatch *)

Module DispatchFacts.
Import PyDict PyDictFacts PasswordServer PasswordServerSchema.

Section Rules.
Context {B : Type} (Q : res B -> Prop).
Hypothesis Q_raise : forall e, Q (Raise e).

Lemma answers_raise (e : exn) : answers Q (raise e).
Proof. intros w r w' [= <- _]. apply Q_raise. Qed.

Lemma answers_bind {A} (m : M A) (k : A -> M B) :
  (forall a, answers Q (k a)) -> answers Q (bind m k).
Proof.
  intros Hk w r w'. unfold bind. destruct (m w) as [[a|e] w1].
  - apply Hk.
  - intros [= <- _]. apply Q_raise.
Qed.

(** The same, knowing what the first computation returns. *)
Lemma answers_bind_with {A} (Qa : res A -> Prop) (m : M A) (k : A -> M B) :
  answers Qa m -> (forall a, Qa (Ok a) -> answers Q (k a)) -> answers Q (bind m k).
Proof.
  intros Hm Hk w r w'. unfold bind. destruct (m w) as [[a|e] w1] eqn:Hrun.
  - apply Hk. eapply Hm; eassumption.
  - intros [= <- _]. apply Q_raise.
Qed.

Lemma answers_try (body : M B) (handler : exn -> M B) :
  answers Q body -> (forall e, answers Q (handler e)) ->
  answers Q (try_except body handler).
Proof.
  intros Hbody Hhandler w r w'. unfold try_except.
  destruct (body w) as [[a|e] w1] eqn:Hrun.
  - intros [= <- _]. eapply Hbody; eassumption.
  - apply Hhandler.
Qed.

End Rules.

Lemma plain_head_append s t : plain_head s = true -> plain_head (s ++ t) = true.
Proof. destruct s as [|c1 [|c2 s]]; simpl; auto; discriminate. Qed.

Lemma plain_head_known s :
  plain_head s = true -> String.prefix unknown_marker s = false.
Proof.
  destruct s as [|c1 [|c2 s]]; try discriminate. unfold plain_head.
  intros H. apply negb_true_iff, andb_false_iff in H. unfold unknown_marker.
  destruct H as [H|H]; apply Ascii.eqb_neq in H.
  - now apply prefix_cons_ne.
  - destruct (ascii_dec "226" c1) as [<-|Hne]; [|now apply prefix_cons_ne].
    rewrite prefix_cons_eq. now apply prefix_cons_ne.
Qed.

Lemma plain_raise e : plain (Raise e).
Proof. exact I. Qed.

Lemma known_raise e : known (Raise e).
Proof. reflexivity. Qed.

Ltac known_leaf :=
  intros ? ? ? Hleaf; injection Hleaf as <- _;
  unfold known, mark, not_found_text, not_found_short; cbv zeta;
  repeat match goal with
         | |- context [if ?b then _ else _] => destruct b
         | |- context [match ?l with [] => _ | _ :: _ => _ end] => destruct l
         end;
  vm_compute; reflexivity.

Ltac known_step :=
  first
    [ apply (answers_raise known known_raise)
    | apply (answers_bind known known_raise); intros ?
    | apply (answers_try known); [|intros ?]
    | match goal with
      | |- answers _ (ret _) => known_leaf
      | |- answers _ (if ?b then _ else _) => destruct b
      | |- answers _ (match ?x with _ => _ end) => destruct x
      end ].

Section WithCrypto.
Context {crypto : Cryptography}.

Lemma known_call_generate_password o a : answers known (call_generate_password o a).
Proof. unfold call_generate_password. cbv zeta. repeat known_step. Qed.

Lemma known_call_save_password o a : answers known (call_save_password o a).
Proof. unfold call_save_password. repeat known_step. Qed.

(** Proving that a text, built on one with a plain head, has a plain head. *)
Ltac plain_text :=
  first
    [ assumption
    | vm_compute; reflexivity
    | apply plain_head_append; plain_text ].

Ltac plain_step :=
  first
    [ apply (answers_raise plain plain_raise)
    | apply (answers_bind plain plain_raise); intros ?
    | match goal with
      | |- answers plain (ret _) =>
          intros ? ? ? Hleaf; injection Hleaf as <- _; unfold plain; plain_text
      | |- answers _ (if ?b then _ else _) => destruct b
      | |- answers _ (match ?x with _ => _ end) => destruct x
      end ].

Lemma known_call_get_password o a : answers known (call_get_password o a).
Proof.
  unfold call_get_password.
  do 2 (apply (answers_bind known known_raise); intros ?).
  match goal with |- answers _ (if ?b then _ else _) => destruct b end;
    [known_leaf|].
  apply (answers_bind known known_raise); intros e.
  apply (answers_try known); [|intros ?; known_leaf].
  do 3 (apply (answers_bind known known_raise); intros ?).
  apply (answers_bind_with known known_raise plain); [repeat plain_step|].
  intros result1 H1. cbn [plain] in H1.
  apply (answers_bind_with known known_raise plain); [repeat plain_step|].
  intros result2 H2. cbn [plain] in H2.
  intros w r w' [= <- _]. unfold known. cbn [reports first_text text_content text].
  apply plain_head_known. plain_text.
Qed.

Lemma plain_list_one show_details result item :
  plain_head result = true -> answers plain (list_one show_details result item).
Proof.
  intros Hresult. unfold list_one. destruct item as [service e].
  apply (answers_bind plain plain_raise); intros username.
  apply (answers_bind_with plain plain_raise plain).
  - destruct show_details; [|repeat plain_step].
    apply (answers_bind_with plain plain_raise plain); [repeat plain_step|].
    intros result1 H1. cbn [plain] in H1.
    apply (answers_bind_with plain plain_raise plain).
    + destruct (has_text e "notes"); [|repeat plain_step].
      apply (answers_bind plain plain_raise); intros ?. repeat plain_step.
    + intros result2 H2. cbn [plain] in H2. repeat plain_step.
  - intros result1 H1. cbn [plain] in H1. repeat plain_step.
Qed.

Lemma plain_list_loop show_details items :
  forall result,
    plain_head result = true -> answers plain (list_loop show_details result items).
Proof.
  induction items as [|item rest IH]; intros result Hresult; cbn [list_loop].
  - repeat plain_step.
  - apply (answers_bind_with plain plain_raise plain);
      [now apply plain_list_one|].
    intros result1 H1. now apply IH.
Qed.

Lemma known_call_list_passwords a : answers known (call_list_passwords a).
Proof.
  unfold call_list_passwords.
  apply (answers_bind known known_raise); intros st.
  destruct st as [|item rest]; [known_leaf|].
  apply (answers_bind_with known known_raise plain).
  - apply plain_list_loop. vm_compute. reflexivity.
  - intros result H. cbn [plain] in H.
    intros w r w' [= <- _]. unfold known. cbn [reports first_text text_content text].
    apply plain_head_known. plain_text.
Qed.

Lemma known_call_delete_password a : answers known (call_delete_password a).
Proof. unfold call_delete_password. repeat known_step. Qed.

Lemma known_call_update_password o a : answers known (call_update_password o a).
Proof. unfold call_update_password. repeat known_step. Qed.

Lemma known_handle_call_tool o name a :
  (name =? "generate_password") = true \/ (name =? "save_password") = true \/
  (name =? "get_password") = true \/ (name =? "list_passwords") = true \/
  (name =? "delete_password") = true \/ (name =? "update_password") = true ->
  answers known (handle_call_tool o name a).
Proof.
  intros Hname. unfold handle_call_tool.
  destruct (name =? "generate_password"); [apply known_call_generate_password|].
  destruct (name =? "save_password"); [apply known_call_save_password|].
  destruct (name =? "get_password"); [apply known_call_get_password|].
  destruct (name =? "list_passwords"); [apply known_call_list_passwords|].
  destruct (name =? "delete_password"); [apply known_call_delete_password|].
  destruct (name =? "update_password"); [apply known_call_update_password|].
  intuition discriminate.
Qed.

Lemma advertised_spec tool_name :
  advertised tool_name = None <->
  ~ ((tool_name =? "generate_password") = true \/ (tool_name =? "save_password") = true \/
     (tool_name =? "get_password") = true \/ (tool_name =? "list_passwords") = true \/
     (tool_name =? "delete_password") = true \/ (tool_name =? "update_password") = true).
Proof.
  unfold advertised, handle_list_tools.
  cbn [find PasswordServerSchema.name].
  rewrite !(String.eqb_sym _ tool_name).
  destruct (tool_name =? "generate_password"); [split; [discriminate | tauto]|].
  destruct (tool_name =? "save_password"); [split; [discriminate | tauto]|].
  destruct (tool_name =? "get_password"); [split; [discriminate | tauto]|].
  destruct (tool_name =? "list_passwords"); [split; [discriminate | tauto]|].
  destruct (tool_name =? "delete_password"); [split; [discriminate | tauto]|].
  destruct (tool_name =? "update_password"); [split; [discriminate | tauto]|].
  split; [intuition discriminate | reflexivity].
Qed.

End WithCrypto.
End DispatchFacts.

Section DispatchProperties.
Import PyDict PasswordServer PasswordServerSchema DispatchFacts.
Context {crypto : Cryptography}.

(** X16. The dispatch agrees with the advertised tools. [handle_list_tools]
    advertises six tools under pairwise distinct names, and
    [handle_call_tool] answers with the "Unknown tool" text (changing
    nothing) exactly for the names that are not advertised: under an
    advertised name no result, whatever the arguments and the world, is that
    text. *)
Theorem unknown_tool_iff_not_advertised :
  NoDup (map name handle_list_tools) /\
  List.length handle_list_tools = 6 /\
  forall o tool_name a w,
    (advertised tool_name = None ->
     handle_call_tool o tool_name a w =
       (Ok (text_content ("❌ Unknown tool: " ++ tool_name)), w)) /\
    (advertised tool_name <> None ->
     reports unknown_marker (fst (handle_call_tool o tool_name a w)) = false).
Proof.
  split; [|split; [reflexivity|]].
  { cbn [map handle_list_tools name].
    repeat (constructor; [simpl; intuition discriminate|]). constructor. }
  intros o tool_name a w. split.
  - intros Hnone. apply advertised_spec in Hnone. unfold handle_call_tool.
    destruct (tool_name =? "generate_password"); [tauto|].
    destruct (tool_name =? "save_password"); [tauto|].
    destruct (tool_name =? "get_password"); [tauto|].
    destruct (tool_name =? "list_passwords"); [tauto|].
    destruct (tool_name =? "delete_password"); [tauto|].
    destruct (tool_name =? "update_password"); [tauto|].
    reflexivity.
  - intros Hsome.
    destruct (handle_call_tool o tool_name a w) as [r w'] eqn:Hcall.
    apply (known_handle_call_tool o tool_name a) with (w := w) (w' := w');
      [|exact Hcall].
    destruct (tool_name =? "generate_password") eqn:E1; [tauto|].
    destruct (tool_name =? "save_password") eqn:E2; [tauto|].
    destruct (tool_name =? "get_password") eqn:E3; [tauto|].
    destruct (tool_name =? "list_passwords") eqn:E4; [tauto|].
    destruct (tool_name =? "delete_password") eqn:E5; [tauto|].
    destruct (tool_name =? "update_password") eqn:E6; [tauto|].
    exfalso. apply Hsome. apply advertised_spec.
    rewrite E1, E2, E3, E4, E5, E6. intuition discriminate.
Qed.

(** X17. The declared defaults are the defaults the handlers use. For every
    advertised tool and every property of its schema that declares a default,
    a call that leaves the argument out behaves exactly as the same call with
    the argument set to the declared default: same result, same world. *)
Theorem declared_defaults_are_used :
  forall t k p d,
    In t handle_list_tools ->
    get (properties (inputSchema t)) k = Some p ->
    property_default p = Some d ->
    forall o a w,
      omits a k ->
      handle_call_tool o (name t) a w
        = handle_call_tool o (name t) (with_default a k d) w.
Proof.
  intros t k p d Hin Hget Hdef o a w (Hs & Hi & Hb).
  simpl in Hin.
  destruct Hin as [<-|[<-|[<-|[<-|[<-|[<-|[]]]]]]];
    cbn [name inputSchema properties get] in Hget;
    repeat match type of Hget with
           | context [k =? ?x] =>
               destruct (String.eqb_spec k x) as [->|?];
               [injection Hget as <-; cbn in Hdef;
                first [discriminate Hdef | injection Hdef as <-]|]
           end;
    try discriminate Hget;
    cbn [name handle_call_tool String.eqb Ascii.eqb Bool.eqb];
    unfold call_generate_password, call_list_passwords, with_default, get_default;
    cbn [int_items bool_items str_items];
    repeat first [ rewrite PyDictFacts.get_set_eq
                 | rewrite PyDictFacts.get_set_ne by discriminate ];
    rewrite ?Hi, ?Hb; reflexivity.
Qed.

End DispatchProperties.

(** * Further properties of the server manager *)

Module ManagerFacts.
Import PyDict PyDictFacts Connectors ConnectorFacts.

Section Dicts.
Context {V : Type}.
Implicit Types (d : dict V) (k : string) (v : V).

Lemma set_same d k v : get d k = Some v -> set d k v = d.
Proof.
  induction d as [|[k' v'] rest IH]; simpl; [discriminate|].
  destruct (String.eqb_spec k k') as [->|Hne].
  - now intros [= ->].
  - intros H. now rewrite IH.
Qed.

Lemma set_set d k v v' : set (set d k v) k v' = set d k v'.
Proof.
  induction d as [|[k0 v0] rest IH]; simpl.
  - now rewrite String.eqb_refl.
  - destruct (k =? k0) eqn:E; simpl; rewrite E; [reflexivity | now rewrite IH].
Qed.

(** Two dicts with the same keys in the same order and the same lookups
    are the same dict. *)
Lemma dict_ext d d' :
  wf d -> keys d = keys d' -> (forall k, get d k = get d' k) -> d = d'.
Proof.
  revert d'. induction d as [|[k v] rest IH]; intros [|[k' v'] rest'] Hwf Hkeys Hget;
    try discriminate Hkeys; [reflexivity|].
  simpl in Hkeys. injection Hkeys as <- Hkeys.
  inversion Hwf as [|? ? Hnotin Hrest]; subst.
  pose proof (Hget k) as Hk. simpl in Hk. rewrite String.eqb_refl in Hk.
  injection Hk as <-. f_equal. apply IH; [exact Hrest | exact Hkeys|].
  intros k0. specialize (Hget k0). simpl in Hget.
  destruct (String.eqb_spec k0 k) as [Heq|Hne]; [subst k0 | exact Hget].
  transitivity (@None V).
  - now apply get_None_keys.
  - symmetry. apply get_None_keys. now rewrite <- Hkeys.
Qed.

Lemma In_get d k v : wf d -> In (k, v) d -> get d k = Some v.
Proof.
  unfold wf, keys. induction d as [|[k0 v0] rest IH]; intros Hwf Hin; [contradiction|].
  cbn [map fst] in Hwf. inversion Hwf as [|? ? Hnot Hrest]; subst.
  cbn [get]. destruct Hin as [Heq|Hin].
  - injection Heq as Hk Hv. subst k0 v0. now rewrite String.eqb_refl.
  - destruct (String.eqb_spec k k0) as [Heq|Hne].
    + subst k0. exfalso. apply Hnot. apply in_map_iff. exists (k, v). now split.
    + now apply IH.
Qed.

Lemma Forall_set_item (Q : string * V -> Prop) d k v :
  Forall Q d -> Q (k, v) -> Forall Q (set d k v).
Proof.
  intros Hd Hv. induction Hd as [|[k0 v0] rest H0 Hrest IH]; cbn [set].
  - now constructor.
  - destruct (String.eqb_spec k k0) as [Heq|Hne].
    + subst k0. now constructor.
    + constructor; assumption.
Qed.

Lemma Forall_del_item (Q : string * V -> Prop) d k :
  Forall Q d -> Forall Q (del d k).
Proof.
  intros Hd. induction Hd as [|[k0 v0] rest H0 Hrest IH]; cbn [del]; [constructor|].
  destruct (k =? k0); [assumption | now constructor].
Qed.

(** When only [k] can pass the filter, at most its item is left. *)
Lemma filter_at_most_one (f : string * V -> bool) d k v :
  wf d -> get d k = Some v ->
  (forall k' v', get d k' = Some v' -> f (k', v') = true -> k' = k) ->
  filter f d = [] \/ filter f d = [(k, v)].
Proof.
  intros Hwf Hget Honly.
  pose proof (wf_filter f d Hwf) as Hwff.
  assert (Hall : forall item, In item (filter f d) -> item = (k, v)).
  { intros [k' v'] Hin. apply filter_In in Hin. destruct Hin as [Hin Hf].
    apply (In_get _ _ _ Hwf) in Hin. pose proof (Honly _ _ Hin Hf) as Hk. subst k'.
    rewrite Hget in Hin. now injection Hin as ->. }
  destruct (filter f d) as [|a [|b rest]]; [now left | right | exfalso].
  - now rewrite (Hall a (or_introl eq_refl)).
  - pose proof (Hall a (or_introl eq_refl)) as Ha.
    pose proof (Hall b (or_intror (or_introl eq_refl))) as Hb. subst a b.
    unfold wf, keys in Hwff. cbn in Hwff. inversion Hwff as [|? ? Hnot _].
    apply Hnot. now left.
Qed.

(** Storing a value that passes, where nothing passed before. *)
Lemma filter_set_only (g : V -> bool) d k c v :
  filter (fun item => g (snd item)) d = [] ->
  get d k = Some c ->
  g v = true ->
  filter (fun item => g (snd item)) (set d k v) = [(k, v)].
Proof.
  intros Hfilter Hget Hv. induction d as [|[k0 v0] rest IH]; [discriminate|].
  cbn [filter snd] in Hfilter. cbn [get] in Hget. cbn [set].
  destruct (g v0) eqn:Hv0; [discriminate|].
  destruct (String.eqb_spec k k0) as [Heq|Hne].
  - subst k0. cbn [filter snd]. now rewrite Hv, Hfilter.
  - cbn [filter snd]. rewrite Hv0. now apply IH.
Qed.

End Dicts.

Lemma with_enabled_same config : with_enabled config (enabled config) = config.
Proof. now destruct config. Qed.

Lemma with_enabled_twice config b b' :
  with_enabled (with_enabled config b) b' = with_enabled config b'.
Proof. reflexivity. Qed.

Lemma manager_ext self self' : servers self = servers self' -> self = self'.
Proof. destruct self, self'. simpl. now intros ->. Qed.

Lemma enabled_with_enabled config b : enabled (with_enabled config b) = b.
Proof. reflexivity. Qed.

Lemma manager_eta self : {| servers := servers self |} = self.
Proof. now destruct self. Qed.

(** What [set_server_selections] does to each server, for a selection with
    distinct names. *)
Lemma set_server_selections_lookup selections :
  wf selections ->
  forall self,
    keys (servers (set_server_selections self selections)) = keys (servers self) /\
    forall k,
      get (servers (set_server_selections self selections)) k =
        option_map
          (fun config =>
             match get selections k with
             | Some b => with_enabled config b
             | None => config
             end)
          (get (servers self) k).
Proof.
  unfold set_server_selections.
  induction selections as [|[k b] rest IH]; intros Hwf self.
  - split; [reflexivity|]. intros k. simpl. now destruct (get (servers self) k).
  - inversion Hwf as [|? ? Hnotin Hrest]; subst. cbn [fold_left fst snd].
    set (self1 := match get (servers self) k with
                  | Some config =>
                      {| servers := set (servers self) k (with_enabled config b) |}
                  | None => self
                  end).
    destruct (IH Hrest self1) as [Hkeys Hget].
    assert (Hkeys1 : keys (servers self1) = keys (servers self)).
    { unfold self1. destruct (get (servers self) k) as [config|] eqn:Hk;
        [|reflexivity].
      cbn [servers]. rewrite keys_set.
      now rewrite (proj2 (mem_true_get (servers self) k) (ex_intro _ config Hk)). }
    split; [congruence|].
    intros k0. rewrite Hget. cbn [get].
    destruct (String.eqb_spec k0 k) as [Heq|Hne].
    + subst k0. rewrite (proj2 (get_None_keys rest k) Hnotin).
      unfold self1. destruct (get (servers self) k) as [config|] eqn:Hk.
      * cbn [servers]. now rewrite get_set_eq.
      * now rewrite Hk.
    + unfold self1. destruct (get (servers self) k) as [config|] eqn:Hk.
      * cbn [servers]. now rewrite get_set_ne.
      * reflexivity.
Qed.

Lemma same_but_flags_refl self : same_but_flags self self.
Proof.
  split; [reflexivity|]. intros k. destruct (get (servers self) k) as [c|]; [|exact I].
  exists (enabled c). now rewrite with_enabled_same.
Qed.

(** Setting a flag keeps the relation. *)
Lemma same_but_flags_set self m k b :
  same_but_flags self m ->
  same_but_flags self
    (match get (servers m) k with
     | Some config => {| servers := set (servers m) k (with_enabled config b) |}
     | None => m
     end).
Proof.
  intros [Hkeys Hget].
  destruct (get (servers m) k) as [config|] eqn:Hk; [|now split].
  split.
  - cbn [servers]. rewrite keys_set.
    now rewrite (proj2 (mem_true_get (servers m) k) (ex_intro _ config Hk)).
  - intros k0. cbn [servers]. specialize (Hget k0).
    destruct (String.eqb_spec k0 k) as [Heq|Hne].
    + subst k0. rewrite get_set_eq. rewrite Hk in Hget.
      destruct (get (servers self) k) as [c|]; [|contradiction].
      destruct Hget as [b0 ->]. now exists b.
    + now rewrite get_set_ne.
Qed.

Lemma same_but_flags_selections self selections :
  forall m, same_but_flags self m ->
            same_but_flags self (set_server_selections m selections).
Proof.
  unfold set_server_selections.
  induction selections as [|[k b] rest IH]; intros m Hm; cbn [fold_left fst snd].
  - exact Hm.
  - apply IH. now apply same_but_flags_set.
Qed.

Lemma same_but_flags_step self m op :
  flag_operation op -> same_but_flags self m -> same_but_flags self (step m op).
Proof.
  intros Hop Hm. destruct op; try contradiction; cbn [step]; try exact Hm.
  - unfold enable_server.
    pose proof (same_but_flags_set self m server_name true Hm) as H.
    now destruct (get (servers m) server_name).
  - unfold disable_server.
    pose proof (same_but_flags_set self m server_name false Hm) as H.
    now destruct (get (servers m) server_name).
  - unfold toggle_server.
    destruct (get (servers m) server_name) as [config|] eqn:Hk; [|exact Hm].
    pose proof (same_but_flags_set self m server_name (negb (enabled config)) Hm) as H.
    now rewrite Hk in H.
  - now apply same_but_flags_selections.
Qed.

Lemma same_but_flags_run self ops :
  Forall flag_operation ops ->
  forall m, same_but_flags self m -> same_but_flags self (run m ops).
Proof.
  unfold run. induction 1 as [|op rest Hop Hrest IH]; intros m Hm; cbn [fold_left].
  - exact Hm.
  - apply IH. now apply same_but_flags_step.
Qed.

Lemma get_server_selection_dict_wf self :
  wf (servers self) ->
  ConnectorsApi.get_server_selection_dict self =
    map (fun item => (fst item, enabled (snd item))) (servers self).
Proof.
  intros Hwf. unfold ConnectorsApi.get_server_selection_dict, get_available_servers.
  apply of_items_wf. unfold wf. now rewrite keys_map_values.
Qed.

(** The client [create_client_from_selection] makes, by cases on the
    enabled servers. *)
Lemma create_client_from_selection_spec self :
  wf (servers self) ->
  match filter (fun item => enabled (snd item)) (servers self) with
  | [] =>
      match get (servers self) "filesystem" with
      | Some config =>
          create_client_from_selection self =
            (Ok (from_dict {| mcpServers := [("filesystem", params_of config)] |}),
             {| servers := set (servers self) "filesystem" (with_enabled config true) |})
      | None => create_client_from_selection self = (Raise (KeyError "filesystem"), self)
      end
  | item :: rest =>
      create_client_from_selection self =
        (Ok (from_dict
               {| mcpServers :=
                    map (fun item => (fst item, params_of (snd item)))
                      (filter (fun item => enabled (snd item)) (servers self)) |}),
         self)
  end.
Proof.
  intros Hwf. unfold create_client_from_selection.
  rewrite (get_enabled_servers_wf self Hwf).
  pose proof (wf_filter (fun item => enabled (snd item)) _ Hwf) as Hwff.
  destruct (filter (fun item => enabled (snd item)) (servers self))
    as [|item rest] eqn:Hfilter.
  - unfold enable_server.
    destruct (get (servers self) "filesystem") as [config|] eqn:Hfs.
    + cbn [snd servers]. rewrite get_set_eq. reflexivity.
    + cbn [snd]. now rewrite Hfs.
  - do 2 f_equal. destruct (build_config (item :: rest)) as [d] eqn:Hbuild.
    pose proof (build_config_wf (item :: rest) Hwff) as Hcfg.
    rewrite Hbuild in Hcfg. cbn [mcpServers] in Hcfg. now subst d.
Qed.

Lemma create_multi_server_client_unfold manager selections :
  ConnectorsApi.create_multi_server_client manager (Some selections)
    = create_client_from_selection (set_server_selections manager selections).
Proof. now destruct selections. Qed.

(** The names shown as enabled are the keys of the enabled servers. *)
Lemma enabled_names_of_selection self :
  map sel_name (filter sel_enabled (list_servers_for_selection self))
    = keys (filter (fun item => enabled (snd item)) (servers self)).
Proof.
  unfold list_servers_for_selection, keys.
  induction (servers self) as [|[k c] rest IH]; [reflexivity|].
  cbn [map filter fst snd sel_enabled]. destruct (enabled c); cbn [map fst sel_name];
    now rewrite IH.
Qed.

(** The client is always made from the servers enabled when the call
    returns. *)
Lemma create_client_config self :
  manager_ok self ->
  exists self',
    create_client_from_selection self =
      (Ok (from_dict
             {| mcpServers :=
                  map (fun item => (fst item, params_of (snd item)))
                    (filter (fun item => enabled (snd item)) (servers self')) |}),
       self') /\
    manager_ok self' /\
    (self' = self \/
     (filter (fun item => enabled (snd item)) (servers self) = [] /\
      self' = snd (enable_server self "filesystem"))).
Proof.
  intros Hok. pose proof Hok as [Hwf Hfs].
  pose proof (create_client_from_selection_spec self Hwf) as Hspec.
  destruct (filter (fun item => enabled (snd item)) (servers self))
    as [|item rest] eqn:Hfilter.
  - apply mem_true_get in Hfs. destruct Hfs as [c Hc]. rewrite Hc in Hspec.
    exists {| servers := set (servers self) "filesystem" (with_enabled c true) |}.
    split; [|split].
    + rewrite Hspec. cbn [servers].
      now rewrite (filter_set_only enabled _ _ c (with_enabled c true) Hfilter Hc eq_refl).
    + now apply manager_ok_set.
    + right. split; [reflexivity|]. unfold enable_server. now rewrite Hc.
  - exists self. split; [|split]; [|exact Hok|now left].
    rewrite Hfilter. exact Hspec.
Qed.

Lemma snd_create_client_from_selection self :
  snd (create_client_from_selection self) = self \/
  snd (create_client_from_selection self) = snd (enable_server self "filesystem").
Proof.
  unfold create_client_from_selection.
  destruct (get_enabled_servers self); [right|now left]. cbv zeta.
  now destruct (get (servers (snd (enable_server self "filesystem"))) "filesystem").
Qed.

(** *** The shape of the servers dict *)

Lemma named_get self k c :
  named_by_key self -> get (servers self) k = Some c -> name c = k.
Proof.
  intros Hn Hget. apply get_In in Hget. unfold named_by_key in Hn.
  rewrite Forall_forall in Hn. exact (Hn _ Hget).
Qed.

Lemma manager_shape_flag self k c b :
  manager_shape self -> get (servers self) k = Some c ->
  manager_shape {| servers := set (servers self) k (with_enabled c b) |}.
Proof.
  intros [Hn [fsc [Hfs Hentry]]] Hget. split.
  - apply Forall_set_item; [exact Hn|]. cbn. exact (named_get _ _ _ Hn Hget).
  - cbn [servers]. destruct (String.eqb_spec k "filesystem") as [Heq|Hne].
    + subst k. rewrite Hfs in Hget. injection Hget as <-.
      exists (with_enabled fsc b). rewrite get_set_eq. split; [reflexivity|].
      exact Hentry.
    + exists fsc. rewrite get_set_ne by congruence. now split.
Qed.

Lemma manager_shape_enable self k :
  manager_shape self -> manager_shape (snd (enable_server self k)).
Proof.
  intros H. unfold enable_server.
  destruct (get (servers self) k) eqn:Hget; cbn [snd];
    [now apply manager_shape_flag | exact H].
Qed.

Lemma manager_shape_selections selections :
  forall self, manager_shape self ->
               manager_shape (set_server_selections self selections).
Proof.
  unfold set_server_selections.
  induction selections as [|[k b] rest IH]; intros self H; [exact H|].
  cbn [fold_left fst snd]. apply IH.
  destruct (get (servers self) k) eqn:Hget; [now apply manager_shape_flag | exact H].
Qed.

Lemma manager_shape_init current_dir : manager_shape (__init__ current_dir).
Proof.
  split.
  - repeat constructor.
  - eexists. split; [reflexivity|]. repeat split. now exists [current_dir].
Qed.

Lemma manager_shape_step self op : manager_shape self -> manager_shape (step self op).
Proof.
  intros H. destruct op; cbn [step]; try exact H.
  - now apply manager_shape_enable.
  - unfold disable_server.
    destruct (get (servers self) server_name) eqn:Hget; cbn [snd];
      [now apply manager_shape_flag | exact H].
  - unfold toggle_server.
    destruct (get (servers self) server_name) eqn:Hget; cbn [snd];
      [now apply manager_shape_flag | exact H].
  - now apply manager_shape_selections.
  - unfold add_custom_server.
    destruct (mem (servers self) name') eqn:Hmem; cbn [snd]; [exact H|].
    destruct H as [Hn [fsc [Hfs He]]]. split.
    + apply Forall_set_item; [exact Hn | reflexivity].
    + exists fsc. cbn [servers]. rewrite get_set_ne; [now split|].
      intros Heq. subst name'. unfold mem in Hmem. rewrite Hfs in Hmem. discriminate.
  - unfold remove_server.
    destruct (String.eqb_spec server_name "filesystem") as [Heq|Hne]; cbn [snd];
      [exact H|].
    destruct (mem (servers self) server_name); cbn [snd]; [|exact H].
    destruct H as [Hn [fsc [Hfs He]]]. split.
    + apply Forall_del_item. exact Hn.
    + exists fsc. cbn [servers]. rewrite get_del_ne by congruence. now split.
  - unfold update_filesystem_directories.
    destruct H as [Hn [fsc [Hfs He]]]. rewrite Hfs. split.
    + apply Forall_set_item; [exact Hn|]. cbn. exact (proj1 He).
    + cbn [servers]. rewrite get_set_eq. eexists. split; [reflexivity|].
      destruct He as (H1 & H2 & H3 & _). repeat split; cbn; try assumption.
      now exists directories.
  - destruct (snd_create_client_from_selection self) as [-> | ->];
      [exact H | now apply manager_shape_enable].
Qed.

Lemma manager_shape_run ops :
  forall self, manager_shape self -> manager_shape (run self ops).
Proof.
  unfold run. induction ops as [|op rest IH]; intros self H; [exact H|].
  cbn [fold_left]. apply IH. now apply manager_shape_step.
Qed.

(** *** Looking a server up in the client's configuration *)

Lemma get_client_config self k :
  wf (servers self) ->
  get (map (fun item => (fst item, params_of (snd item)))
         (filter (fun item => enabled (snd item)) (servers self))) k =
    match get (servers self) k with
    | Some config => if enabled config then Some (params_of config) else None
    | None => None
    end.
Proof.
  intros Hwf. rewrite get_map_values, get_filter by exact Hwf.
  destruct (get (servers self) k) as [c|]; [|reflexivity].
  cbn [snd]. now destruct (enabled c).
Qed.

Lemma get_enable_server_other self k k' :
  k' <> k -> get (servers (snd (enable_server self k))) k' = get (servers self) k'.
Proof.
  intros Hne. unfold enable_server.
  destruct (get (servers self) k); cbn [snd servers]; [|reflexivity].
  now apply get_set_ne.
Qed.

(** *** The loop of [setup_with_custom_servers] *)

Lemma add_custom_servers_cons manager name' command' args' description' rest :
  ConnectorsApi.add_custom_servers manager
    ((name', command', args', description') :: rest)
  = ConnectorsApi.add_custom_servers
      (snd (add_custom_server manager name' command' args' None description' true))
      rest.
Proof. reflexivity. Qed.

Lemma manager_ok_add_custom_servers custom_servers :
  forall manager,
    manager_ok manager ->
    manager_ok (ConnectorsApi.add_custom_servers manager custom_servers).
Proof.
  induction custom_servers as [|[[[n0 c0] a0] d0] rest IH]; intros manager Hok;
    [exact Hok|].
  rewrite add_custom_servers_cons. apply IH.
  exact (manager_ok_step manager (AddCustomServer n0 c0 a0 None d0 true) Hok).
Qed.

Lemma add_custom_servers_existing custom_servers :
  forall manager k,
    mem (servers manager) k = true ->
    get (servers (ConnectorsApi.add_custom_servers manager custom_servers)) k
      = get (servers manager) k.
Proof.
  induction custom_servers as [|[[[n0 c0] a0] d0] rest IH]; intros manager k Hmem;
    [reflexivity|].
  rewrite add_custom_servers_cons. unfold add_custom_server.
  destruct (mem (servers manager) n0) eqn:Hn0; cbn [snd].
  - now apply IH.
  - rewrite IH by (cbn [servers]; now apply mem_set_other).
    cbn [servers]. apply get_set_ne. intros Heq. subst k. congruence.
Qed.

Lemma add_custom_servers_new custom_servers :
  forall manager name' command' args' description',
    NoDup (map custom_name custom_servers) ->
    In (name', command', args', description') custom_servers ->
    mem (servers manager) name' = false ->
    get (servers (ConnectorsApi.add_custom_servers manager custom_servers)) name'
      = Some {| name := name'; command := command'; args := args';
                env := PyDict.empty; description := description';
                enabled := true |}.
Proof.
  induction custom_servers as [|[[[n0 c0] a0] d0] rest IH];
    intros manager n c a d Hnodup Hin Hmem; [contradiction|].
  cbn [map custom_name] in Hnodup. inversion Hnodup as [|? ? Hnot Hrest]; subst.
  rewrite add_custom_servers_cons. destruct Hin as [Heq|Hin].
  - injection Heq as -> -> -> ->. unfold add_custom_server. rewrite Hmem. cbn [snd].
    rewrite add_custom_servers_existing by (cbn [servers]; apply mem_set_eq).
    cbn [servers]. apply get_set_eq.
  - assert (Hne : n <> n0).
    { intros Heq. subst n0. apply Hnot. apply in_map_iff.
      exists (n, c, a, d). now split. }
    apply IH; [exact Hrest | exact Hin |].
    unfold add_custom_server. destruct (mem (servers manager) n0); cbn [snd];
      [exact Hmem|].
    cbn [servers]. unfold mem in *. now rewrite get_set_ne by exact Hne.
Qed.

End ManagerFacts.

(** ** Facts about Custom/add_password_server.py *)

Module SetupFacts.
Import PyDict PyDictFacts Connectors ConnectorFacts ManagerFacts AddPasswordServer.

(** Setting up again, once the server is there and enabled. *)
Lemma setup_password_server_again server_script manager config :
  get (servers manager) "password_manager" = Some config ->
  enabled config = true ->
  setup_password_server server_script true manager
    = (Returned true, manager,
       ["ℹ️ Password manager server already exists";
        "✅ Password manager server enabled"]).
Proof.
  intros Hget Hen.
  unfold setup_password_server, add_password_server,
    ConnectorsApi.add_custom_server, add_custom_server, mem.
  rewrite Hget. cbn [negb]. unfold enable_server. rewrite Hget. cbn [snd app].
  do 2 f_equal. apply manager_ext. cbn [servers]. apply set_same.
  rewrite Hget. f_equal. rewrite <- Hen. symmetry. apply with_enabled_same.
Qed.

End SetupFacts.

Section ManagerProperties.
Import PyDict PyDictFacts Connectors ConnectorFacts ManagerFacts.

(** X18. [add_custom_server] never overwrites. Under a name the manager
    already has it returns [False] and changes nothing; under a new name it
    returns [True], the server is added last with the given command, args,
    description and enabled flag and with an empty env when none (or an empty
    one) is given, and every other server is as before. *)
Theorem add_custom_server_never_overwrites :
  forall self name' command' args' env' description' enabled',
    (mem (servers self) name' = true ->
     add_custom_server self name' command' args' env' description' enabled'
       = (false, self)) /\
    (mem (servers self) name' = false ->
     exists self',
       add_custom_server self name' command' args' env' description' enabled'
         = (true, self') /\
       keys (servers self') = (keys (servers self) ++ [name'])%list /\
       get (servers self') name' =
         Some {| name := name'; command := command'; args := args';
                 env := match env' with Some e => e | None => [] end;
                 description := description'; enabled := enabled' |} /\
       (forall other, other <> name' ->
                      get (servers self') other = get (servers self) other)).
Proof.
  intros self name' command' args' env' description' enabled'.
  unfold add_custom_server. split; intros Hmem; rewrite Hmem; [reflexivity|].
  eexists. split; [reflexivity|]. cbn [servers].
  split; [now rewrite keys_set, Hmem|].
  split.
  - rewrite get_set_eq. do 2 f_equal. now destruct env' as [[|item rest]|].
  - intros other Hne. now apply get_set_ne.
Qed.

(** X19. Toggling twice restores the manager. For a known server the first
    [toggle_server] returns the negated flag and the second returns the
    original flag and leaves the manager exactly as it was before the first;
    for an unknown name it returns [False] and changes nothing, the same
    value it returns after disabling a known server. *)
Theorem toggle_server_twice :
  forall self server_name,
    (forall config,
       get (servers self) server_name = Some config ->
       exists self1,
         toggle_server self server_name = (negb (enabled config), self1) /\
         get (servers self1) server_name =
           Some (with_enabled config (negb (enabled config))) /\
         toggle_server self1 server_name = (enabled config, self)) /\
    (get (servers self) server_name = None ->
     toggle_server self server_name = (false, self)).
Proof.
  intros self server_name. split.
  - intros config Hget. unfold toggle_server at 1. rewrite Hget.
    eexists. split; [reflexivity|]. cbn [servers].
    split; [apply get_set_eq|].
    unfold toggle_server. cbn [servers]. rewrite get_set_eq.
    rewrite enabled_with_enabled, with_enabled_twice, negb_involutive.
    rewrite with_enabled_same, set_set, (set_same _ _ _ Hget).
    now rewrite manager_eta.
  - intros Hnone. unfold toggle_server. now rewrite Hnone.
Qed.

(** X20. [remove_server] removes one server other than ["filesystem"]. For
    a stored name other than ["filesystem"] it returns [True], the name is
    gone and every other server is as before; for a name the manager does not
    have it returns [False] and changes nothing. *)
Theorem remove_server_removes_one :
  forall self server_name,
    wf (servers self) ->
    server_name <> "filesystem" ->
    (mem (servers self) server_name = true ->
     exists self',
       remove_server self server_name = (true, self') /\
       get (servers self') server_name = None /\
       (forall other, other <> server_name ->
                      get (servers self') other = get (servers self) other) /\
       S (List.length (servers self')) = List.length (servers self)) /\
    (mem (servers self) server_name = false ->
     remove_server self server_name = (false, self)).
Proof.
  intros self server_name Hwf Hne. unfold remove_server.
  apply String.eqb_neq in Hne. rewrite Hne.
  split; intros Hmem; rewrite Hmem; [|reflexivity].
  eexists. split; [reflexivity|]. cbn [servers].
  split; [now apply get_del_eq|].
  split; [intros other Hother; now apply get_del_ne|].
  now apply length_del.
Qed.

(** X21. [set_server_selections] sets the selected flags and nothing else.
    For a selection dict, the manager keeps its servers in their order; a
    server the selection names gets the selected flag and keeps its name,
    command, args, env and description; a server it does not name is as
    before; and a selected name the manager does not have is ignored. *)
Theorem set_server_selections_sets_flags :
  forall self selections,
    wf selections ->
    let self' := set_server_selections self selections in
    keys (servers self') = keys (servers self) /\
    (forall k config b,
       get (servers self) k = Some config -> get selections k = Some b ->
       get (servers self') k =
         Some {| name := name config; command := command config;
                 args := args config; env := env config;
                 description := description config; enabled := b |}) /\
    (forall k, get selections k = None ->
               get (servers self') k = get (servers self) k) /\
    (forall k, get (servers self) k = None -> get (servers self') k = None).
Proof.
  intros self selections Hwf self'.
  destruct (set_server_selections_lookup selections Hwf self) as [Hkeys Hget].
  split; [exact Hkeys|]. fold self' in Hget.
  split; [|split].
  - intros k config b Hk Hb. now rewrite Hget, Hk, Hb.
  - intros k Hnone. rewrite Hget, Hnone. now destruct (get (servers self) k).
  - intros k Hnone. now rewrite Hget, Hnone.
Qed.

(** X22. A saved selection restores the manager. Take the selection dict of
    a manager with [get_server_selection_dict]; after any sequence of calls
    that enable, disable, toggle or select servers (or only read),
    [apply_server_selections] with the saved dict gives back exactly the
    manager the dict was taken from. *)
Theorem saved_selection_restores :
  forall self ops,
    wf (servers self) ->
    Forall flag_operation ops ->
    ConnectorsApi.apply_server_selections (run self ops)
      (ConnectorsApi.get_server_selection_dict self) = self.
Proof.
  intros self ops Hwf Hops.
  unfold ConnectorsApi.apply_server_selections.
  rewrite (get_server_selection_dict_wf self Hwf).
  set (saved := map (fun item => (fst item, enabled (snd item))) (servers self)).
  assert (Hsaved : wf saved)
    by (unfold wf, saved; now rewrite keys_map_values).
  destruct (same_but_flags_run self ops Hops self (same_but_flags_refl self))
    as [Hkeys Hrel].
  destruct (set_server_selections_lookup saved Hsaved (run self ops))
    as [Hkeys' Hget].
  apply manager_ext. symmetry. apply dict_ext; [exact Hwf | congruence|].
  intros k. rewrite Hget. unfold saved. rewrite get_map_values.
  specialize (Hrel k).
  destruct (get (servers self) k) as [c|], (get (servers (run self ops)) k) as [c'|];
    try contradiction; [|reflexivity].
  destruct Hrel as [b ->]. cbn [option_map].
  now rewrite with_enabled_twice, with_enabled_same.
Qed.

(** X23. [create_multi_server_client] starts what is selected, and never
    nothing. On a manager that has ["filesystem"], for a selection dict the
    call returns a client whose [mcpServers] is not empty; a known server
    selected as [True] is in it; and a server selected as [False] can only be
    in it when it is ["filesystem"] and the client has that server alone,
    which is what happens when the selection leaves nothing enabled. *)
Theorem create_multi_server_client_selection :
  forall manager selections,
    manager_ok manager ->
    wf selections ->
    exists config manager',
      ConnectorsApi.create_multi_server_client manager (Some selections)
        = (Ok (from_dict config), manager') /\
      mcpServers config <> [] /\
      (forall k, get selections k = Some true -> mem (servers manager) k = true ->
                 mem (mcpServers config) k = true) /\
      (forall k, get selections k = Some false -> mem (mcpServers config) k = true ->
                 k = "filesystem" /\ keys (mcpServers config) = ["filesystem"]) /\
      (forall k, mem (mcpServers config) k = true ->
                 exists server_config,
                   get (servers manager') k = Some server_config /\
                   enabled server_config = true /\
                   get (mcpServers config) k = Some (params_of server_config)).
Proof.
  intros manager selections Hok Hsel.
  rewrite create_multi_server_client_unfold.
  pose proof (manager_ok_selections selections manager Hok) as [Hwf Hfs].
  destruct (set_server_selections_lookup selections Hsel manager) as [_ Hget].
  set (m1 := set_server_selections manager selections) in *.
  pose proof (create_client_from_selection_spec m1 Hwf) as Hspec.
  assert (Hlookup : forall k,
    get (map (fun item => (fst item, params_of (snd item)))
           (filter (fun item : string * MCPServerConfig => enabled (snd item))
              (servers m1))) k =
    match get (servers m1) k with
    | Some c => if enabled c then Some (params_of c) else None
    | None => None
    end).
  { intros k. rewrite get_map_values, get_filter by exact Hwf.
    destruct (get (servers m1) k) as [c|]; [|reflexivity].
    cbn [snd]. now destruct (enabled c). }
  destruct (filter (fun item => enabled (snd item)) (servers m1))
    as [|item rest] eqn:Hfilter.
  - apply mem_true_get in Hfs. destruct Hfs as [c Hc]. rewrite Hc in Hspec.
    eexists _, _. split; [exact Hspec|]. cbn [mcpServers servers].
    split; [discriminate|]. split; [|split].
    + intros k Htrue Hknown. exfalso.
      apply mem_true_get in Hknown. destruct Hknown as [c0 Hc0].
      assert (Hin : In (k, with_enabled c0 true)
                      (filter (fun item => enabled (snd item)) (servers m1))).
      { apply filter_In. split; [|reflexivity]. apply get_In.
        now rewrite Hget, Hc0, Htrue. }
      rewrite Hfilter in Hin. contradiction.
    + intros k _ Hmem. unfold mem in Hmem. cbn [get] in Hmem.
      destruct (String.eqb_spec k "filesystem") as [Heq|Hne];
        [subst k; now split | discriminate].
    + intros k Hmem. unfold mem in Hmem. cbn [get] in Hmem. cbn [get].
      destruct (String.eqb_spec k "filesystem") as [Heq|Hne]; [subst k|discriminate].
      exists (with_enabled c true). rewrite get_set_eq. now repeat split.
  - rewrite <- Hfilter in *. eexists _, _. split; [exact Hspec|].
    cbn [mcpServers]. split; [rewrite Hfilter; discriminate|].
    split; [|split].
    + intros k Htrue Hknown. apply mem_true_get in Hknown.
      destruct Hknown as [c0 Hc0]. unfold mem.
      now rewrite Hlookup, Hget, Hc0, Htrue.
    + intros k Hfalse Hmem. exfalso. unfold mem in Hmem.
      rewrite Hlookup, Hget, Hfalse in Hmem.
      destruct (get (servers manager) k); discriminate.
    + intros k Hmem. unfold mem in Hmem. rewrite Hlookup in Hmem. rewrite Hlookup.
      destruct (get (servers m1) k) as [c|]; [|discriminate].
      destruct (enabled c) eqn:Hen; [|discriminate]. now exists c.
Qed.

(** X24. Whatever methods are called on a new manager, every server stays
    stored under its own name, and ["filesystem"] stays the filesystem
    package run through [npx] with an empty environment: only its
    directories and its [enabled] flag can change. *)
Theorem reachable_manager_shape :
  forall current_dir ops,
    let manager := run (__init__ current_dir) ops in
    (forall k config, get (servers manager) k = Some config -> name config = k) /\
    exists config directories,
      get (servers manager) "filesystem" = Some config /\
      command config = "npx" /\
      args config =
        (["-y"; "@modelcontextprotocol/server-filesystem"] ++ directories)%list /\
      env config = PyDict.empty.
Proof.
  intros current_dir ops manager.
  pose proof (manager_shape_run ops _ (manager_shape_init current_dir))
    as [Hn [fsc [Hfs (_ & Hcommand & Henv & directories & Hargs)]]].
  split.
  - intros k config Hget. exact (named_get _ _ _ Hn Hget).
  - now exists fsc, directories.
Qed.

(** X25. [create_filesystem_client] and the manager agree. A new manager
    makes the client of [setup_basic_filesystem] (in the working directory
    the manager was created in); and after any method calls followed by
    [update_filesystem_directories(directories)], when no server other than
    ["filesystem"] is enabled, [create_client_from_selection] makes the client
    of [create_filesystem_client(directories)]. *)
Theorem create_filesystem_client_agrees :
  forall current_dir,
    fst (create_client_from_selection (__init__ current_dir))
      = Ok (ConnectorsApi.setup_basic_filesystem current_dir) /\
    forall ops directories,
      let manager :=
        update_filesystem_directories (run (__init__ current_dir) ops) directories in
      (forall k config, get (servers manager) k = Some config ->
                        enabled config = true -> k = "filesystem") ->
      fst (create_client_from_selection manager)
        = Ok (ConnectorsApi.create_filesystem_client current_dir (Some directories)).
Proof.
  intros current_dir. split; [reflexivity|].
  intros ops directories manager.
  pose proof (manager_shape_run ops _ (manager_shape_init current_dir))
    as [Hn [fsc [Hfs (_ & Hcommand & Henv & _)]]].
  pose proof (manager_ok_run ops _ (manager_ok_init current_dir)) as [Hwf _].
  set (config' :=
         with_args fsc
           (["-y"; "@modelcontextprotocol/server-filesystem"] ++ directories)%list).
  assert (Hmanager :
            manager =
              {| servers :=
                   set (servers (run (__init__ current_dir) ops)) "filesystem" config' |}).
  { unfold manager, update_filesystem_directories. now rewrite Hfs. }
  clearbody manager. intros Honly.
  assert (Hservers :
            servers manager =
              set (servers (run (__init__ current_dir) ops)) "filesystem" config')
    by now rewrite Hmanager.
  assert (Hwf' : wf (servers manager)) by (rewrite Hservers; now apply wf_set).
  assert (Hget : get (servers manager) "filesystem" = Some config')
    by (rewrite Hservers; apply get_set_eq).
  pose proof (create_client_from_selection_spec manager Hwf') as Hspec.
  assert (Hparams : params_of config' =
            {| params_command := "npx";
               params_args :=
                 (["-y"; "@modelcontextprotocol/server-filesystem"] ++ directories)%list;
               params_env := PyDict.empty |}).
  { unfold params_of, config'. cbn. now rewrite Hcommand, Henv. }
  destruct (filter_at_most_one (fun item => enabled (snd item)) _ _ _ Hwf' Hget)
    as [Hfilter|Hfilter].
  - intros k' v' Hk' Hen. exact (Honly _ _ Hk' Hen).
  - rewrite Hfilter, Hget in Hspec. rewrite Hspec. cbn [fst].
    unfold ConnectorsApi.create_filesystem_client. now rewrite Hparams.
  - rewrite Hfilter in Hspec. rewrite Hspec. cbn [fst map snd].
    unfold ConnectorsApi.create_filesystem_client. now rewrite Hparams.
Qed.

(** X26. The selection list and the client agree. After
    [create_client_from_selection] returns, the servers that
    [list_available_servers] shows as enabled are the client's [mcpServers],
    in the same order, and the command line shown for each is the command and
    the arguments the client was given. *)
Theorem selection_list_matches_client :
  forall self,
    manager_ok self ->
    exists config self',
      create_client_from_selection self = (Ok (from_dict config), self') /\
      keys (mcpServers config)
        = map sel_name
            (filter sel_enabled (ConnectorsApi.list_available_servers self')) /\
      forall shown,
        In shown (ConnectorsApi.list_available_servers self') ->
        sel_enabled shown = true ->
        exists params,
          get (mcpServers config) (sel_name shown) = Some params /\
          sel_command shown
            = params_command params ++ " " ++ join " " (params_args params).
Proof.
  intros self Hok.
  destruct (create_client_config self Hok) as [self' [Hcall [[Hwf' _] _]]].
  eexists _, self'. split; [exact Hcall|]. cbn [mcpServers].
  unfold ConnectorsApi.list_available_servers. split.
  - now rewrite keys_map_values, enabled_names_of_selection.
  - intros shown Hin Hen. unfold list_servers_for_selection in Hin.
    apply in_map_iff in Hin. destruct Hin as [[k c] [Hshown Hin]]. subst shown.
    cbn [sel_enabled sel_name sel_command fst snd] in *.
    rewrite get_map_values, get_filter by exact Hwf'.
    rewrite (In_get _ _ _ Hwf' Hin). cbn [snd]. rewrite Hen.
    eexists. split; reflexivity.
Qed.

(** X27. [setup_with_custom_servers] starts the servers it adds. For
    tuples with distinct names, a tuple whose name is new is in the client
    with its command and arguments and an empty environment; a tuple whose
    name is already taken changes nothing: that name (other than
    ["filesystem"]) is in the client with the old configuration if the old
    server is enabled, and not at all if it is disabled. *)
Theorem setup_with_custom_servers_adds :
  forall manager custom_servers,
    manager_ok manager ->
    NoDup (map custom_name custom_servers) ->
    exists config manager',
      ConnectorsApi.setup_with_custom_servers manager custom_servers
        = (Ok (from_dict config), manager') /\
      forall name' command' args' description',
        In (name', command', args', description') custom_servers ->
        match get (servers manager) name' with
        | None =>
            get (mcpServers config) name'
              = Some {| params_command := command'; params_args := args';
                        params_env := PyDict.empty |}
        | Some old =>
            name' <> "filesystem" ->
            get (mcpServers config) name'
              = if enabled old then Some (params_of old) else None
        end.
Proof.
  intros manager custom_servers Hok Hnodup.
  unfold ConnectorsApi.setup_with_custom_servers.
  pose proof (manager_ok_add_custom_servers custom_servers manager Hok) as Hok1.
  destruct (create_client_config _ Hok1) as [self' [Hcall [[Hwf' _] Hrel]]].
  eexists _, self'. split; [exact Hcall|]. cbn [mcpServers].
  assert (Hother : forall k, k <> "filesystem" ->
            get (servers self') k =
            get (servers (ConnectorsApi.add_custom_servers manager custom_servers)) k).
  { intros k Hne. destruct Hrel as [->|[_ ->]]; [reflexivity|].
    now apply get_enable_server_other. }
  intros n c a d Hin. rewrite get_client_config by exact Hwf'.
  destruct (get (servers manager) n) as [old|] eqn:Hold.
  - intros Hne. rewrite Hother by exact Hne.
    rewrite add_custom_servers_existing by (unfold mem; now rewrite Hold).
    now rewrite Hold.
  - assert (Hne : n <> "filesystem").
    { intros Heq. subst n. destruct Hok as [_ Hfs]. unfold mem in Hfs.
      rewrite Hold in Hfs. discriminate. }
    rewrite Hother by exact Hne.
    rewrite (add_custom_servers_new custom_servers manager n c a d Hnodup Hin)
      by (unfold mem; now rewrite Hold).
    reflexivity.
Qed.

End ManagerProperties.

(** ** Setting the password server up *)

Section SetupProperties.
Import PyDict PyDictFacts Connectors ConnectorFacts ManagerFacts AddPasswordServer
  SetupFacts.

(** X28. [setup_password_server] leaves the password server present and
    enabled. Without the script it raises [FileNotFoundError] and the manager
    is as before. With the script it returns [True]; ["password_manager"] is
    then enabled: a server of that name that was there already keeps its
    configuration, a new one runs the script with [python], as
    [get_password_server_config] says; no other server changes; and setting
    up once more changes nothing. *)
Theorem setup_password_server_enables :
  forall server_script manager,
    setup_password_server server_script false manager
      = (FileNotFoundError ("Password server script not found: " ++ server_script),
         manager, []) /\
    exists manager' printed,
      setup_password_server server_script true manager
        = (Returned true, manager', printed) /\
      (exists config,
         get (servers manager') "password_manager" = Some config /\
         enabled config = true /\
         match get (servers manager) "password_manager" with
         | Some old => config = with_enabled old true
         | None =>
             name config = "password_manager" /\
             params_of config = get_password_server_config server_script
         end) /\
      (forall k, k <> "password_manager" ->
                 get (servers manager') k = get (servers manager) k) /\
      fst (setup_password_server server_script true manager')
        = (Returned true, manager').
Proof.
  intros server_script manager. split; [reflexivity|].
  unfold setup_password_server at 1.
  unfold add_password_server, ConnectorsApi.add_custom_server, add_custom_server, mem.
  cbn [negb].
  destruct (get (servers manager) "password_manager") as [old|] eqn:Hold.
  - unfold enable_server. rewrite Hold. cbn [snd].
    eexists _, _. split; [reflexivity|]. cbn [servers]. split; [|split].
    + exists (with_enabled old true). rewrite get_set_eq. now repeat split.
    + intros k Hne. now apply get_set_ne.
    + erewrite setup_password_server_again; [reflexivity | apply get_set_eq | reflexivity].
  - unfold enable_server. cbn [snd servers]. rewrite get_set_eq. cbn [snd].
    eexists _, _. split; [reflexivity|]. cbn [servers]. rewrite set_set.
    split; [|split].
    + eexists. rewrite get_set_eq. now repeat split.
    + intros k Hne. now apply get_set_ne.
    + erewrite setup_password_server_again; [reflexivity | apply get_set_eq | reflexivity].
Qed.

End SetupProperties.

(** * The statements at concrete runs *)

(** ** The password server *)

Section ServerRuns.
Import PyDict PasswordServer PasswordServerSchema.

Lemma key_file_never_overwritten_witness :
  key_file (snd demo_saved) = Some (toy_generate_key [x01; x02; x03]).
Proof.
  destruct (@key_file_never_overwritten toy_crypto demo_oracle "save_password"
              demo_save_arguments demo_world (fst demo_saved) (snd demo_saved))
    as [_ Hkey]; [reflexivity|].
  apply Hkey. reflexivity.
Defined.

Lemma other_tools_do_not_write_witness :
  snd (handle_call_tool demo_oracle "list_passwords" (str_arguments [])
         (snd demo_saved))
    = snd demo_saved.
Proof.
  destruct (@other_tools_do_not_write toy_crypto demo_oracle "list_passwords"
              (str_arguments []) (snd demo_saved)
              (fst (handle_call_tool demo_oracle "list_passwords" (str_arguments [])
                      (snd demo_saved)))
              (snd (handle_call_tool demo_oracle "list_passwords" (str_arguments [])
                      (snd demo_saved))))
    as [_ Hworld]; try discriminate; [reflexivity|].
  apply Hworld. discriminate.
Defined.

Lemma first_run_round_trip_witness :
  exists w1,
    (c <- encrypt_password demo_oracle "hunter2" ;; decrypt_password demo_oracle c)
      demo_first_world = (Ok "hunter2", w1) /\
    key_file w1 = Some (toy_generate_key [x01; x02; x03]).
Proof.
  destruct (@first_run_round_trip toy_crypto demo_oracle demo_oracle
              demo_first_world "hunter2")
    as (w1 & _ & Hkey & _ & Hround); [reflexivity|].
  exists w1. split; [exact Hround | exact Hkey].
Defined.

Lemma save_password_succeeds_iff_usable_key_witness :
  (reports saved_marker
     (fst (handle_call_tool demo_oracle "save_password" demo_save_arguments
             demo_world)) = true
   <-> usable_key demo_world = true) /\
  (reports saved_marker
     (fst (handle_call_tool demo_oracle "save_password" demo_save_arguments
             demo_rejected_key_world)) = true
   <-> usable_key demo_rejected_key_world = true).
Proof.
  split.
  - apply (proj1 (@save_password_succeeds_iff_usable_key toy_crypto demo_oracle
                    demo_world demo_save_arguments "Gmail" "john@example.com"
                    "hunter2" _ _ eq_refl eq_refl eq_refl eq_refl)
             PyDict.empty).
    reflexivity.
  - apply (proj1 (@save_password_succeeds_iff_usable_key toy_crypto demo_oracle
                    demo_rejected_key_world demo_save_arguments "Gmail"
                    "john@example.com" "hunter2" _ _ eq_refl eq_refl eq_refl
                    eq_refl)
             demo_kept_store).
    reflexivity.
Defined.

Lemma missing_argument_raises_witness :
  handle_call_tool demo_oracle "get_password" (str_arguments []) demo_world
    = (Raise (KeyError "service"), demo_world).
Proof.
  apply (proj1 (@missing_argument_raises toy_crypto demo_oracle (str_arguments [])
                  demo_world)); [reflexivity | simpl; tauto].
Defined.

Lemma delete_update_missing_service_witness :
  exists t,
    handle_call_tool demo_oracle "delete_password" demo_other_arguments
      (snd demo_saved) = (Ok (text_content t), snd demo_saved) /\
    Contains "Gmail" t.
Proof.
  destruct (@delete_update_missing_service toy_crypto demo_oracle "delete_password"
              demo_other_arguments (snd demo_saved) "GitHub" demo_store)
    as (t & Hcall & _ & Hnames);
    [simpl; tauto | reflexivity | reflexivity | reflexivity |].
  exists t. split; [exact Hcall | apply Hnames; reflexivity].
Defined.


Lemma deleted_service_is_gone_witness :
  handle_call_tool demo_oracle "get_password" demo_service_arguments
    (snd (handle_call_tool demo_oracle "delete_password" demo_service_arguments
            (snd demo_saved)))
  = (Ok (text_content (not_found_text "Gmail" (del demo_store "Gmail"))),
     snd (handle_call_tool demo_oracle "delete_password" demo_service_arguments
            (snd demo_saved))).
Proof.
  destruct (@deleted_service_is_gone toy_crypto demo_oracle demo_oracle
              demo_service_arguments demo_service_arguments (snd demo_saved)
              "Gmail" demo_store
              (fst (handle_call_tool demo_oracle "delete_password"
                      demo_service_arguments (snd demo_saved)))
              (snd (handle_call_tool demo_oracle "delete_password"
                      demo_service_arguments (snd demo_saved))))
    as [Hget _]; [reflexivity.. | exact Hget].
Defined.

Lemma updated_password_is_retrieved_witness :
  exists t,
    fst (handle_call_tool demo_oracle "get_password" demo_service_arguments
           (snd (handle_call_tool demo_oracle "update_password"
                   demo_change_arguments (snd demo_saved))))
      = Ok (text_content t) /\
    Contains "correct horse" t /\ Contains "jane@example.com" t.
Proof.
  destruct (@updated_password_is_retrieved toy_crypto demo_oracle demo_oracle
              demo_change_arguments demo_service_arguments (snd demo_saved)
              "Gmail" demo_store "jane@example.com" "correct horse"
              (fst (handle_call_tool demo_oracle "update_password"
                      demo_change_arguments (snd demo_saved)))
              (snd (handle_call_tool demo_oracle "update_password"
                      demo_change_arguments (snd demo_saved))))
    as (t & Hcall & Hp & Hu); try reflexivity.
  exists t. rewrite Hcall. now repeat split.
Defined.

Lemma update_password_changes_what_is_given_witness :
  exists st1 e1,
    load_passwords
      (snd (handle_call_tool demo_oracle "update_password" demo_change_arguments
              (snd demo_saved)))
      = (Ok st1,
         snd (handle_call_tool demo_oracle "update_password" demo_change_arguments
                (snd demo_saved))) /\
    get st1 "Gmail" = Some e1 /\
    get e1 "notes" = Some "personal" /\
    get e1 "created_at" = Some "2024-05-17T10:30:00".
Proof.
  destruct (@update_password_changes_what_is_given toy_crypto demo_oracle
              demo_change_arguments (snd demo_saved) "Gmail" demo_store
              (new_entry "john@example.com"
                 (ciphertext (toy_generate_key [x01; x02; x03]) demo_oracle "hunter2")
                 "" "personal" "2024-05-17T10:30:00")
              (fst (handle_call_tool demo_oracle "update_password"
                      demo_change_arguments (snd demo_saved)))
              (snd (handle_call_tool demo_oracle "update_password"
                      demo_change_arguments (snd demo_saved))))
    as (st1 & e1 & Hload & _ & _ & Hget & _ & _ & _ & _ & _ & _ & Hnotes & Hrest);
    try reflexivity.
  exists st1, e1. split; [exact Hload|]. split; [exact Hget|]. split.
  - rewrite Hnotes; reflexivity.
  - rewrite Hrest; [reflexivity|]. simpl. intuition discriminate.
Defined.

Lemma list_passwords_hides_passwords_witness :
  exists r,
    handle_call_tool demo_oracle "list_passwords" (str_arguments [])
      (snd demo_saved) = (r, snd demo_saved) /\
    handle_call_tool demo_oracle "list_passwords" (str_arguments [])
      demo_other_saved = (r, demo_other_saved).
Proof.
  apply (@list_passwords_hides_passwords toy_crypto demo_oracle (str_arguments [])
           (snd demo_saved) demo_other_saved demo_store
           [("Gmail",
             new_entry "john@example.com" "another ciphertext" "" "personal"
               "2024-05-17T10:30:00")]);
    [reflexivity | reflexivity |].
  constructor; [|constructor]. split; [reflexivity|].
  intros k Hne. cbn.
  destruct (k =? "username"); [reflexivity|].
  destruct (String.eqb_spec k "encrypted_password"); [contradiction | reflexivity].
Defined.

Lemma list_passwords_names_every_service_witness :
  exists t,
    handle_call_tool demo_oracle "list_passwords" (str_arguments [])
      (snd demo_saved) = (Ok (text_content t), snd demo_saved) /\
    Contains "Gmail" t.
Proof.
  destruct (@list_passwords_names_every_service toy_crypto demo_oracle
              (str_arguments []) (snd demo_saved) demo_store)
    as [Hall _]; [reflexivity|].
  destruct Hall as (t & Hcall & Hnames).
  - repeat constructor. discriminate.
  - exists t. split; [exact Hcall|].
    destruct (Hnames "Gmail" _ (or_introl eq_refl)) as [Hservice _].
    exact Hservice.
Defined.

Lemma generate_password_any_options_witness :
  exists password,
    handle_call_tool demo_oracle "generate_password" demo_digit_arguments demo_world
      = (Ok (text_content (generated_text password 1 false false true false)),
         demo_world) /\
    String.length password = 1.
Proof.
  pose proof (@generate_password_any_options toy_crypto demo_oracle
                demo_digit_arguments demo_world) as H.
  cbv zeta in H. destruct H as [_ H].
  destruct (H eq_refl) as (password & Hcall & Hlen & _).
  exists password. split; [exact Hcall | exact Hlen].
Defined.

Lemma generate_password_covers_enabled_classes_witness :
  exists password,
    handle_call_tool demo_oracle "generate_password" demo_short_arguments demo_world
      = (Ok (text_content (generated_text password 3 true true true true)),
         demo_world) /\
    Exists (fun c => char_in string_digits c = true) (list_ascii_of_string password).
Proof.
  pose proof (@generate_password_covers_enabled_classes toy_crypto demo_oracle
                demo_short_arguments demo_world) as H.
  cbv zeta in H.
  destruct H as (password & Hcall & _ & _ & Hdigit & _);
    [vm_compute; discriminate | reflexivity |].
  exists password. split; [exact Hcall|].
  apply Hdigit; [reflexivity | vm_compute; reflexivity].
Defined.

Lemma complete_entries_preserved_witness :
  Forall (fun r => exists contents, r = Ok contents)
    (fst (serve demo_requests demo_world)) /\
  complete_entries (snd (serve demo_requests demo_world)).
Proof.
  apply (@complete_entries_preserved toy_crypto demo_requests demo_world).
  - exists []. split; [reflexivity | constructor].
  - repeat (constructor; [unfold meets_required; cbn; repeat constructor|]).
    constructor.
Defined.

Lemma unknown_tool_iff_not_advertised_witness :
  handle_call_tool demo_oracle "rename_password" demo_service_arguments demo_world
    = (Ok (text_content "❌ Unknown tool: rename_password"), demo_world).
Proof.
  destruct (@unknown_tool_iff_not_advertised toy_crypto) as (_ & _ & Hcall).
  apply (proj1 (Hcall demo_oracle "rename_password" demo_service_arguments
                  demo_world)).
  reflexivity.
Defined.

Lemma declared_defaults_are_used_witness :
  handle_call_tool demo_oracle "generate_password" (str_arguments []) demo_world
    = handle_call_tool demo_oracle "generate_password"
        (with_default (str_arguments []) "length" (DefaultInt 16)) demo_world.
Proof.
  assert (H : forall t,
             advertised "generate_password" = Some t ->
             handle_call_tool demo_oracle (name t) (str_arguments []) demo_world
               = handle_call_tool demo_oracle (name t)
                   (with_default (str_arguments []) "length" (DefaultInt 16))
                   demo_world).
  { intros t Ht. vm_compute in Ht. injection Ht as <-.
    eapply (@declared_defaults_are_used toy_crypto _ "length" _ (DefaultInt 16));
      [left; reflexivity | reflexivity | reflexivity | repeat split]. }
  exact (H _ eq_refl).
Defined.

End ServerRuns.

(** ** The server manager *)

Section ManagerRuns.
Import PyDict Connectors.

Lemma add_custom_server_never_overwrites_witness :
  add_custom_server demo_manager "notes" "node" ["notes.js"] None "Other notes" true
    = (false, demo_manager).
Proof.
  apply (proj1 (add_custom_server_never_overwrites demo_manager "notes" "node"
                  ["notes.js"] None "Other notes" true)).
  reflexivity.
Defined.

Lemma toggle_server_twice_witness :
  exists self1,
    toggle_server demo_manager "filesystem" = (false, self1) /\
    toggle_server self1 "filesystem" = (true, demo_manager).
Proof.
  destruct (proj1 (toggle_server_twice demo_manager "filesystem") _ eq_refl)
    as (self1 & Hfirst & _ & Hsecond).
  exists self1. split; [exact Hfirst | exact Hsecond].
Defined.

Lemma remove_server_removes_one_witness :
  exists self',
    remove_server demo_manager "notes" = (true, self') /\
    get (servers self') "notes" = None /\
    get (servers self') "filesystem" = get (servers demo_manager) "filesystem".
Proof.
  destruct (remove_server_removes_one demo_manager "notes") as [Hfound _].
  - repeat constructor; simpl; intuition discriminate.
  - discriminate.
  - destruct (Hfound eq_refl) as (self' & Hcall & Hgone & Hother & _).
    exists self'. split; [exact Hcall|]. split; [exact Hgone|].
    apply Hother. discriminate.
Defined.

Lemma set_server_selections_sets_flags_witness :
  keys (servers (set_server_selections demo_manager
                   [("notes", true); ("ghost", true)]))
    = ["filesystem"; "notes"] /\
  get (servers (set_server_selections demo_manager
                  [("notes", true); ("ghost", true)])) "ghost" = None.
Proof.
  pose proof (set_server_selections_sets_flags demo_manager
                [("notes", true); ("ghost", true)]) as H.
  cbv zeta in H. destruct H as (Hkeys & _ & _ & Hghost).
  - repeat constructor; simpl; intuition discriminate.
  - split; [rewrite Hkeys; reflexivity | apply Hghost; reflexivity].
Defined.

Lemma saved_selection_restores_witness :
  ConnectorsApi.apply_server_selections
    (run demo_manager
       [ToggleServer "notes"; DisableServer "filesystem";
        SetServerSelections [("notes", false); ("filesystem", false)];
        EnableServer "notes"])
    (ConnectorsApi.get_server_selection_dict demo_manager)
  = demo_manager.
Proof.
  apply saved_selection_restores.
  - repeat constructor; simpl; intuition discriminate.
  - repeat constructor.
Defined.

Lemma create_multi_server_client_selection_witness :
  exists config manager',
    ConnectorsApi.create_multi_server_client demo_manager
      (Some [("notes", true); ("filesystem", false)])
      = (Ok (from_dict config), manager') /\
    mem (mcpServers config) "notes" = true /\
    (mem (mcpServers config) "filesystem" = true ->
     keys (mcpServers config) = ["filesystem"]).
Proof.
  destruct (create_multi_server_client_selection demo_manager
              [("notes", true); ("filesystem", false)])
    as (config & manager' & Hcall & _ & Htrue & Hfalse & _).
  - split; [repeat constructor; simpl; intuition discriminate | reflexivity].
  - repeat constructor; simpl; intuition discriminate.
  - exists config, manager'. split; [exact Hcall|]. split.
    + apply Htrue; reflexivity.
    + intros Hmem. apply (Hfalse "filesystem"); [reflexivity | exact Hmem].
Defined.

Lemma reachable_manager_shape_witness :
  exists config directories,
    get (servers (run (__init__ "/srv/demo")
                    [UpdateFilesystemDirectories ["/srv/a"; "/srv/b"];
                     RemoveServer "filesystem"; ToggleServer "filesystem"]))
      "filesystem" = Some config /\
    command config = "npx" /\
    args config
      = (["-y"; "@modelcontextprotocol/server-filesystem"] ++ directories)%list.
Proof.
  pose proof (reachable_manager_shape "/srv/demo"
                [UpdateFilesystemDirectories ["/srv/a"; "/srv/b"];
                 RemoveServer "filesystem"; ToggleServer "filesystem"]) as H.
  cbv zeta in H.
  destruct H as (_ & config & directories & Hget & Hcommand & Hargs & _).
  now exists config, directories.
Defined.

Lemma create_filesystem_client_agrees_witness :
  fst (create_client_from_selection
         (update_filesystem_directories
            (run (__init__ "/srv/demo")
               [AddCustomServer "notes" "python" ["-m"; "notes_server"] None "Notes"
                  false;
                DisableServer "filesystem"])
            ["/srv/a"; "/srv/b"]))
    = Ok (ConnectorsApi.create_filesystem_client "/srv/demo"
            (Some ["/srv/a"; "/srv/b"])).
Proof.
  apply (proj2 (create_filesystem_client_agrees "/srv/demo")
           [AddCustomServer "notes" "python" ["-m"; "notes_server"] None "Notes" false;
            DisableServer "filesystem"]
           ["/srv/a"; "/srv/b"]).
  intros k config Hget Hen. cbn in Hget.
  destruct (String.eqb_spec k "filesystem") as [Heq|Hne]; [exact Heq|].
  destruct (k =? "notes"); [|discriminate].
  injection Hget as <-. discriminate.
Defined.

Lemma selection_list_matches_client_witness :
  exists config self',
    create_client_from_selection demo_manager = (Ok (from_dict config), self') /\
    keys (mcpServers config)
      = map sel_name (filter sel_enabled (ConnectorsApi.list_available_servers self')).
Proof.
  destruct (selection_list_matches_client demo_manager)
    as (config & self' & Hcall & Hkeys & _).
  - split; [repeat constructor; simpl; intuition discriminate | reflexivity].
  - now exists config, self'.
Defined.

Lemma setup_with_custom_servers_adds_witness :
  exists config manager',
    ConnectorsApi.setup_with_custom_servers demo_manager demo_custom_servers
      = (Ok (from_dict config), manager') /\
    get (mcpServers config) "search"
      = Some {| params_command := "python";
                params_args := ["-m"; "search_server"];
                params_env := PyDict.empty |} /\
    get (mcpServers config) "notes" = None.
Proof.
  destruct (setup_with_custom_servers_adds demo_manager demo_custom_servers)
    as (config & manager' & Hcall & Hservers).
  - split; [repeat constructor; simpl; intuition discriminate | reflexivity].
  - repeat constructor; simpl; intuition discriminate.
  - exists config, manager'. split; [exact Hcall|]. split.
    + apply (Hservers "search" "python" ["-m"; "search_server"] "Search").
      simpl. tauto.
    + apply (Hservers "notes" "node" ["notes.js"] "Other notes");
        [simpl; tauto | discriminate].
Defined.

Lemma setup_password_server_enables_witness :
  exists manager' printed config,
    AddPasswordServer.setup_password_server "/srv/Custom/password_server.py" true
      demo_manager = (AddPasswordServer.Returned true, manager', printed) /\
    get (servers manager') "password_manager" = Some config /\
    enabled config = true /\
    get (servers manager') "notes" = get (servers demo_manager) "notes".
Proof.
  destruct (proj2 (setup_password_server_enables "/srv/Custom/password_server.py"
                     demo_manager))
    as (manager' & printed & Hcall & (config & Hget & Hen & _) & Hother & _).
  exists manager', printed, config. split; [exact Hcall|]. split; [exact Hget|].
  split; [exact Hen|]. apply Hother. discriminate.
Defined.

End ManagerRuns.
